(** * NeoMutt window management: a shallow embedding

    The development follows the window sources of the repository:

    - [mutt_window_wrap_cols], which both variants of mutt_window.c share;
    - module [Flat]: the variant of mutt_window.c whose [mutt_window_reflow]
      lays the named windows out against the curses screen ([LINES], [COLS]);
    - module [Tree]: the variant whose windows carry a [WindowState], together
      with the dialog stack ([dialog_push], [dialog_pop]);
    - module [Draw]: the cursor and drawing functions of mutt_window.c;
    - module [Signal]: the curses signal handler of mutt_signal.c;
    - module [Rfc3676]: the format=flowed handler and the space-stuffing of
      rfc3676.c.

    C integers are kept as [Z]; every [int] result and every store into a
    [short] goes through the matching two's complement wrap-around ([to_int],
    [to_short]), which is also what stands for signed overflow.  A pointer is an
    [option]: [None] is [NULL].  An operation that would dereference [NULL] or
    a pointer that is not allocated yields [None] (the program faults). *)

From Stdlib Require Import ZArith Lia List Bool.
From stdpp Require Import base option list gmap strings.

Local Open Scope Z_scope.

(** ** Machine integers *)

Module CInt.

(** Two's complement reduction to [bits] bits. *)
Definition wrap (bits : Z) (z : Z) : Z :=
  (z + 2 ^ (bits - 1)) mod 2 ^ bits - 2 ^ (bits - 1).

Definition to_int (z : Z) : Z := wrap 32 z.
Definition to_short (z : Z) : Z := wrap 16 z.

Definition INT_MIN : Z := - 2 ^ 31.
Definition INT_MAX : Z := 2 ^ 31 - 1.
Definition SHRT_MIN : Z := - 2 ^ 15.
Definition SHRT_MAX : Z := 2 ^ 15 - 1.

Definition in_int (z : Z) : Prop := INT_MIN <= z <= INT_MAX.
Definition in_short (z : Z) : Prop := SHRT_MIN <= z <= SHRT_MAX.

End CInt.

Import CInt.

(** ** Enumerations of mutt_window.h *)

Inductive MuttWindowOrientation :=
| MUTT_WIN_ORIENT_VERTICAL
| MUTT_WIN_ORIENT_HORIZONTAL.

Inductive MuttWindowSize :=
| MUTT_WIN_SIZE_FIXED
| MUTT_WIN_SIZE_MAXIMISE
| MUTT_WIN_SIZE_MINIMISE.

Definition MUTT_WIN_SIZE_UNLIMITED : Z := -1.

(** ** mutt_window_wrap_cols

    [int mutt_window_wrap_cols(int width, short wrap)]: [wrap] is promoted to
    [int] before it is negated or added. *)

Definition mutt_window_wrap_cols (width wrap : Z) : Z :=
  if wrap <? 0 then
    (if width >? to_int (- wrap) then to_int (width + wrap) else width)
  else if negb (wrap =? 0) then
    (if wrap <? width then wrap else width)
  else width.

(** The wrap column as the specification words it: a positive value caps the
    width, a negative value reserves a right margin of [|wrap|] columns, zero
    uses the full width. *)
Definition wrap_cols_spec (width wrap : Z) : Z :=
  if 0 <? wrap then Z.min width wrap
  else if wrap <? 0 then width - Z.abs wrap
  else width.

(** ** The flat layout (mutt_window.c)

    In this variant a window holds its geometry in [int] fields of its own,
    and [mutt_window_reflow] computes the named windows from the curses
    screen size and the configuration.  The sidebar is compiled in
    ([USE_SIDEBAR]): [mutt_window_init] creates its window
    unconditionally. *)

Module Flat.

(** The windows of this variant, each named after the variable that holds
    its pointer: the locals [w1] .. [w6] of [mutt_window_init] (the root
    window is [w1]) and the seven globals. *)
Inductive Win :=
| W1 | W2 | W3 | W4 | W5 | W6
| Help | Index | Message | PagerBar | Pager | Sidebar | Status.

Definition Win_eqb (a b : Win) : bool :=
  match a, b with
  | W1, W1 | W2, W2 | W3, W3 | W4, W4 | W5, W5 | W6, W6
  | Help, Help | Index, Index | Message, Message | PagerBar, PagerBar
  | Pager, Pager | Sidebar, Sidebar | Status, Status => true
  | _, _ => false
  end.

(** [struct MuttWindow]; [children] is the TAILQ of child windows, in order. *)
Record MuttWindow := mkWindow {
  rows : Z;
  cols : Z;
  row_offset : Z;
  col_offset : Z;
  visible : bool;
  orient : MuttWindowOrientation;
  size : MuttWindowSize;
  parent : option Win;
  children : list Win
}.

Definition set_rows (v : Z) (w : MuttWindow) : MuttWindow :=
  mkWindow v (cols w) (row_offset w) (col_offset w) (visible w) (orient w)
    (size w) (parent w) (children w).
Definition set_cols (v : Z) (w : MuttWindow) : MuttWindow :=
  mkWindow (rows w) v (row_offset w) (col_offset w) (visible w) (orient w)
    (size w) (parent w) (children w).
Definition set_row_offset (v : Z) (w : MuttWindow) : MuttWindow :=
  mkWindow (rows w) (cols w) v (col_offset w) (visible w) (orient w)
    (size w) (parent w) (children w).
Definition set_col_offset (v : Z) (w : MuttWindow) : MuttWindow :=
  mkWindow (rows w) (cols w) (row_offset w) v (visible w) (orient w)
    (size w) (parent w) (children w).
Definition set_visible (v : bool) (w : MuttWindow) : MuttWindow :=
  mkWindow (rows w) (cols w) (row_offset w) (col_offset w) v (orient w)
    (size w) (parent w) (children w).
Definition set_parent (v : option Win) (w : MuttWindow) : MuttWindow :=
  mkWindow (rows w) (cols w) (row_offset w) (col_offset w) (visible w)
    (orient w) (size w) v (children w).
Definition set_children (v : list Win) (w : MuttWindow) : MuttWindow :=
  mkWindow (rows w) (cols w) (row_offset w) (col_offset w) (visible w)
    (orient w) (size w) (parent w) v.

(** Calls into the menu code, which is not part of these sources; they are
    kept in a log, oldest first. *)
Inductive MenuCall :=
| mutt_menu_set_current_redraw_full
| mutt_menu_set_current_redraw_FLOW.

(** The process state the window code reads and writes: the curses screen
    size, the configuration, the window each pointer variable holds ([None]
    when the variable is [NULL]) and the log of menu calls. *)
Record Globals := mkGlobals {
  LINES : Z;
  COLS : Z;
  C_Help : bool;
  C_StatusOnTop : bool;
  C_SidebarVisible : bool;
  C_SidebarWidth : Z;
  C_SidebarOnRight : bool;
  OptNoCurses : bool;
  win : Win -> option MuttWindow;
  menu_calls : list MenuCall
}.

Definition set_win (f : Win -> option MuttWindow) (g : Globals) : Globals :=
  mkGlobals (LINES g) (COLS g) (C_Help g) (C_StatusOnTop g)
    (C_SidebarVisible g) (C_SidebarWidth g) (C_SidebarOnRight g)
    (OptNoCurses g) f (menu_calls g).

Definition call (c : MenuCall) (g : Globals) : Globals :=
  mkGlobals (LINES g) (COLS g) (C_Help g) (C_StatusOnTop g)
    (C_SidebarVisible g) (C_SidebarWidth g) (C_SidebarOnRight g)
    (OptNoCurses g) (win g) (menu_calls g ++ [c]).

Definition store (p : Win) (w : option MuttWindow) (g : Globals) : Globals :=
  set_win (fun q => if Win_eqb q p then w else win g q) g.

(** [p->field = v]: faults when [p] is [NULL]. *)
Definition assign (p : Win) (f : MuttWindow -> MuttWindow) (g : Globals)
  : option Globals :=
  w ← win g p; Some (store p (Some (f w)) g).

(** The macro [MAX(a, b)]. *)
Definition MAX (a b : Z) : Z := if a <? b then b else a.

(** [mutt_window_new]: the zeroed allocation with the four arguments stored. *)
Definition mutt_window_new (o : MuttWindowOrientation) (s : MuttWindowSize)
  (r c : Z) : MuttWindow :=
  mkWindow r c 0 0 false o s None [].

(** [mutt_window_add_child]. *)
Definition mutt_window_add_child (parent child : Win) (g : Globals) : Globals :=
  match win g parent, win g child with
  | Some p, Some _ =>
      let g := store parent (Some (set_children (children p ++ [child]) p)) g in
      match win g child with
      | Some c => store child (Some (set_parent (Some parent) c)) g
      | None => g
      end
  | _, _ => g
  end.

(** [mutt_window_init]. *)
Definition mutt_window_init (g : Globals) : Globals :=
  match win g W1 with
  | Some _ => g
  | None =>
    let V := MUTT_WIN_ORIENT_VERTICAL in
    let H := MUTT_WIN_ORIENT_HORIZONTAL in
    let U := MUTT_WIN_SIZE_UNLIMITED in
    let g := store W1 (Some (mutt_window_new V MUTT_WIN_SIZE_MAXIMISE U U)) g in
    let g := store W2 (Some (mutt_window_new V MUTT_WIN_SIZE_MAXIMISE U U)) g in
    let g := store W3 (Some (mutt_window_new H MUTT_WIN_SIZE_MAXIMISE U U)) g in
    let g := store W4 (Some (mutt_window_new V MUTT_WIN_SIZE_MAXIMISE U U)) g in
    let g := store W5 (Some (mutt_window_new V MUTT_WIN_SIZE_MAXIMISE U U)) g in
    let g := store W6 (Some (set_visible false
                               (mutt_window_new V MUTT_WIN_SIZE_MAXIMISE U U))) g in
    let g := store Help (Some (mutt_window_new V MUTT_WIN_SIZE_FIXED 1 U)) g in
    let g := store Index (Some (mutt_window_new V MUTT_WIN_SIZE_MAXIMISE U U)) g in
    let g := store Message (Some (mutt_window_new V MUTT_WIN_SIZE_FIXED 1 U)) g in
    let g := store PagerBar (Some (mutt_window_new V MUTT_WIN_SIZE_FIXED 1 U)) g in
    let g := store Pager (Some (mutt_window_new V MUTT_WIN_SIZE_MAXIMISE U U)) g in
    let g := store Sidebar (Some (mutt_window_new H MUTT_WIN_SIZE_FIXED U 20)) g in
    let g := store Status (Some (mutt_window_new V MUTT_WIN_SIZE_FIXED 1 U)) g in
    let g := mutt_window_add_child W1 W2 g in
    let g := mutt_window_add_child W1 Message g in
    let g := mutt_window_add_child W2 Help g in
    let g := mutt_window_add_child W2 W3 g in
    let g := mutt_window_add_child W3 Sidebar g in
    let g := mutt_window_add_child W3 W4 g in
    let g := mutt_window_add_child W4 W5 g in
    let g := mutt_window_add_child W5 Index g in
    let g := mutt_window_add_child W5 Status g in
    let g := mutt_window_add_child W4 W6 g in
    let g := mutt_window_add_child W6 Pager g in
    mutt_window_add_child W6 PagerBar g
  end.

(** [mutt_window_copy_size]. *)
Definition mutt_window_copy_size (win_src win_dst : Win) (g : Globals) : Globals :=
  match win g win_src, win g win_dst with
  | Some s, Some d =>
      store win_dst
        (Some (set_col_offset (col_offset s)
                 (set_row_offset (row_offset s)
                    (set_cols (cols s) (set_rows (rows s) d))))) g
  | _, _ => g
  end.

(** [mutt_window_reflow]: every assignment of the C text, in its order. *)
Definition mutt_window_reflow (g : Globals) : option Globals :=
  if OptNoCurses g then Some g else
  g ← assign Status (set_rows 1) g;
  g ← assign Status (set_cols (COLS g)) g;
  g ← assign Status
        (set_row_offset (if C_StatusOnTop g then 0 else to_int (LINES g - 2))) g;
  g ← assign Status (set_col_offset 0) g;
  let g := mutt_window_copy_size Status Help g in
  g ← (if C_Help g
        then assign Help
               (set_row_offset
                  (if C_StatusOnTop g then to_int (LINES g - 2) else 0)) g
        else assign Help (set_rows 0) g);
  let g := mutt_window_copy_size Status Message g in
  g ← assign Message (set_row_offset (to_int (LINES g - 1))) g;
  let g := mutt_window_copy_size Status Index g in
  s ← win g Status;
  h ← win g Help;
  m ← win g Message;
  g ← assign Index
        (set_rows
           (MAX (to_int (to_int (to_int (LINES g - rows s) - rows h) - rows m))
              0)) g;
  g ← assign Index
        (set_row_offset (if C_StatusOnTop g then rows s else rows h)) g;
  g ← (if C_SidebarVisible g then
          let g := mutt_window_copy_size Index Sidebar g in
          g ← assign Sidebar (set_cols (C_SidebarWidth g)) g;
          g ← assign Index
                (fun w => set_cols (to_int (cols w - C_SidebarWidth g)) w) g;
          if C_SidebarOnRight g
          then assign Sidebar
                 (set_col_offset (to_int (COLS g - C_SidebarWidth g))) g
          else assign Index
                 (fun w =>
                    set_col_offset (to_int (col_offset w + C_SidebarWidth g)) w)
                 g
        else Some g);
  Some (call mutt_menu_set_current_redraw_FLOW
          (call mutt_menu_set_current_redraw_full g)).

(** [mutt_window_reflow_message_rows]. *)
Definition mutt_window_reflow_message_rows (mw_rows : Z) (g : Globals)
  : option Globals :=
  g ← assign Message (set_rows mw_rows) g;
  g ← assign Message (set_row_offset (to_int (LINES g - mw_rows))) g;
  g ← assign Status
        (set_row_offset
           (if C_StatusOnTop g then 0
            else to_int (to_int (LINES g - mw_rows) - 1))) g;
  g ← (if C_Help g
        then assign Help
               (set_row_offset
                  (if C_StatusOnTop g
                   then to_int (to_int (LINES g - mw_rows) - 1) else 0)) g
        else Some g);
  s ← win g Status;
  h ← win g Help;
  m ← win g Message;
  g ← assign Index
        (set_rows
           (MAX (to_int (to_int (to_int (LINES g - rows s) - rows h) - rows m))
              0)) g;
  g ← (if C_SidebarVisible g then
          i ← win g Index;
          assign Sidebar (set_rows (rows i)) g
        else Some g);
  Some (call mutt_menu_set_current_redraw_full g).

(** *** Layout predicates

    The flat reflow places every window against the screen, so the screen is
    the parent of the stack: Help, the band of Sidebar and Index, Status and
    Message share the [LINES] rows; within the band, Sidebar and Index share
    the [COLS] columns.  A window is shown when the configuration shows it. *)

Definition shown (g : Globals) : list Win :=
  (if C_Help g then [Help] else []) ++ [Index; Status; Message] ++
  (if C_SidebarVisible g then [Sidebar] else []).

Definition win_rows (g : Globals) (p : Win) : Z :=
  match win g p with Some w => rows w | None => 0 end.
Definition win_cols (g : Globals) (p : Win) : Z :=
  match win g p with Some w => cols w | None => 0 end.

(** The rows of the stacked windows add up to the screen's. *)
Definition tiles_rows (g : Globals) : Prop :=
  (if C_Help g then win_rows g Help else 0) + win_rows g Index
  + win_rows g Status + win_rows g Message = LINES g.

(** The columns of the band add up to the screen's. *)
Definition tiles_cols (g : Globals) : Prop :=
  (if C_SidebarVisible g then win_cols g Sidebar else 0) + win_cols g Index
  = COLS g.

(** Two rectangles share a cell. *)
Definition overlap (a b : MuttWindow) : bool :=
  (Z.max (row_offset a) (row_offset b)
     <? Z.min (row_offset a + rows a) (row_offset b + rows b))
  && (Z.max (col_offset a) (col_offset b)
        <? Z.min (col_offset a + cols a) (col_offset b + cols b)).

Definition win_overlap (g : Globals) (p q : Win) : bool :=
  match win g p, win g q with
  | Some a, Some b => overlap a b
  | _, _ => false
  end.

Definition no_overlap (g : Globals) : Prop :=
  forall p q, In p (shown g) -> In q (shown g) -> p <> q ->
    win_overlap g p q = false.

Definition tiling (g : Globals) : Prop :=
  tiles_rows g /\ tiles_cols g /\ no_overlap g.

(** Every shown window is allocated, has no negative extent and lies
    within the [LINES] rows and [COLS] columns of the screen. *)
Definition within_screen (g : Globals) : Prop :=
  forall p, In p (shown g) ->
    exists w, win g p = Some w
              /\ 0 <= rows w /\ 0 <= cols w
              /\ 0 <= row_offset w /\ row_offset w + rows w <= LINES g
              /\ 0 <= col_offset w /\ col_offset w + cols w <= COLS g.

(** A window with its four geometry fields replaced. *)
Definition with_geometry (r c ro co : Z) (w : MuttWindow) : MuttWindow :=
  mkWindow r c ro co (visible w) (orient w) (size w) (parent w) (children w).

(** The five windows [mutt_window_reflow] writes are allocated. *)
Definition laid_out (g : Globals) : Prop :=
  is_Some (win g Help) /\ is_Some (win g Index) /\ is_Some (win g Message)
  /\ is_Some (win g Status) /\ is_Some (win g Sidebar).

(** The screen and the configuration of [g'] are those of [g]. *)
Definition same_settings (g g' : Globals) : Prop :=
  LINES g' = LINES g /\ COLS g' = COLS g /\ C_Help g' = C_Help g
  /\ C_StatusOnTop g' = C_StatusOnTop g
  /\ C_SidebarVisible g' = C_SidebarVisible g
  /\ C_SidebarWidth g' = C_SidebarWidth g
  /\ C_SidebarOnRight g' = C_SidebarOnRight g
  /\ OptNoCurses g' = OptNoCurses g.

(** *** A view of the state for the proofs

    The reflow reads and writes five windows.  [models g0 g v l] says that
    [g] has the screen and configuration of [g0], holds the windows of [v]
    at those five places and the windows of [g0] everywhere else, and has
    made the menu calls [l] since [g0]. *)

Record Five := mkFive {
  fHelp : MuttWindow;
  fIndex : MuttWindow;
  fMessage : MuttWindow;
  fStatus : MuttWindow;
  fSidebar : MuttWindow
}.

Definition get5 (p : Win) (v : Five) : option MuttWindow :=
  match p with
  | Help => Some (fHelp v)
  | Index => Some (fIndex v)
  | Message => Some (fMessage v)
  | Status => Some (fStatus v)
  | Sidebar => Some (fSidebar v)
  | _ => None
  end.

Definition set5 (p : Win) (w : MuttWindow) (v : Five) : Five :=
  match p with
  | Help => mkFive w (fIndex v) (fMessage v) (fStatus v) (fSidebar v)
  | Index => mkFive (fHelp v) w (fMessage v) (fStatus v) (fSidebar v)
  | Message => mkFive (fHelp v) (fIndex v) w (fStatus v) (fSidebar v)
  | Status => mkFive (fHelp v) (fIndex v) (fMessage v) w (fSidebar v)
  | Sidebar => mkFive (fHelp v) (fIndex v) (fMessage v) (fStatus v) w
  | _ => v
  end.

Definition models (g0 g : Globals) (v : Five) (l : list MenuCall) : Prop :=
  same_settings g0 g
  /\ (forall p w, get5 p v = Some w -> win g p = Some w)
  /\ (forall p, get5 p v = None -> win g p = win g0 p)
  /\ menu_calls g = menu_calls g0 ++ l.

(** The rows [mutt_window_reflow] gives the Index window. *)
Definition index_rows (L : Z) (help : bool) : Z :=
  MAX (to_int (to_int (to_int (L - 1) - (if help then 1 else 0)) - 1)) 0.

(** The windows [mutt_window_reflow] leaves behind. *)
Definition reflow_view (g : Globals) (wh wi wm ws wb : MuttWindow) : Five :=
  let top := C_StatusOnTop g in
  let ir := index_rows (LINES g) (C_Help g) in
  let iro := if top then 1 else if C_Help g then 1 else 0 in
  mkFive
    (if C_Help g
     then with_geometry 1 (COLS g)
            (if top then to_int (LINES g - 2) else 0) 0 wh
     else with_geometry 0 (COLS g)
            (if top then 0 else to_int (LINES g - 2)) 0 wh)
    (with_geometry ir
       (if C_SidebarVisible g
        then to_int (COLS g - C_SidebarWidth g) else COLS g)
       iro
       (if C_SidebarVisible g && negb (C_SidebarOnRight g)
        then to_int (0 + C_SidebarWidth g) else 0) wi)
    (with_geometry 1 (COLS g) (to_int (LINES g - 1)) 0 wm)
    (with_geometry 1 (COLS g) (if top then 0 else to_int (LINES g - 2)) 0 ws)
    (if C_SidebarVisible g
     then with_geometry ir (C_SidebarWidth g) iro
            (if C_SidebarOnRight g
             then to_int (COLS g - C_SidebarWidth g) else 0) wb
     else wb).

(** The windows [mutt_window_reflow_message_rows] leaves behind. *)
Definition message_rows_view (mw_rows : Z) (g : Globals)
  (wh wi wm ws wb : MuttWindow) : Five :=
  let top := C_StatusOnTop g in
  let ir :=
    MAX (to_int (to_int (to_int (LINES g - rows ws) - rows wh) - mw_rows)) 0 in
  mkFive
    (if C_Help g
     then with_geometry (rows wh) (cols wh)
            (if top then to_int (to_int (LINES g - mw_rows) - 1) else 0)
            (col_offset wh) wh
     else wh)
    (with_geometry ir (cols wi) (row_offset wi) (col_offset wi) wi)
    (with_geometry mw_rows (cols wm) (to_int (LINES g - mw_rows))
       (col_offset wm) wm)
    (with_geometry (rows ws) (cols ws)
       (if top then 0 else to_int (to_int (LINES g - mw_rows) - 1))
       (col_offset ws) ws)
    (if C_SidebarVisible g
     then with_geometry ir (cols wb) (row_offset wb) (col_offset wb) wb
     else wb).

(** [w'] is [w] but for its rows and its row offset. *)
Definition same_but_rows (w w' : MuttWindow) : Prop :=
  cols w' = cols w /\ col_offset w' = col_offset w /\ visible w' = visible w
  /\ orient w' = orient w /\ size w' = size w /\ parent w' = parent w
  /\ children w' = children w.

(** A screen with the windows of [mutt_window_init] and nothing logged. *)
Definition boot (lines columns : Z) (help status_on_top sidebar : bool)
  (sidebar_width : Z) (sidebar_on_right : bool) : Globals :=
  mutt_window_init
    (mkGlobals lines columns help status_on_top sidebar sidebar_width
       sidebar_on_right false (fun _ => None) []).

(** A window with its geometry erased, and two views that hold the same
    windows up to their geometry; a sidebar that is not shown is left
    alone by the reflow, so there it has to be the same window. *)
Definition strip (w : MuttWindow) : MuttWindow := with_geometry 0 0 0 0 w.

Definition same_but_geometry (sidebar : bool) (v v' : Five) : Prop :=
  strip (fHelp v') = strip (fHelp v) /\ strip (fIndex v') = strip (fIndex v)
  /\ strip (fMessage v') = strip (fMessage v)
  /\ strip (fStatus v') = strip (fStatus v)
  /\ (if sidebar then strip (fSidebar v') = strip (fSidebar v)
      else fSidebar v' = fSidebar v).

(** The parent pointers and the child lists agree: [p] is in the child
    list of [q] exactly when the parent of [p] is [q]. *)
Definition linked (g : Globals) : Prop :=
  forall p q,
    (exists wq, win g q = Some wq /\ In p (children wq))
    <-> (exists wp, win g p = Some wp /\ parent wp = Some q).

End Flat.

(** ** The window tree (the variant with [struct WindowState]) and the
    dialog stack

    Windows live in a heap, addressed by natural numbers; a pointer is an
    [option] of an address, [None] being [NULL].  The child list of a window
    (a TAILQ) is the list of the children's addresses, in order. *)

Module Tree.

Abbreviation ptr := nat (only parsing).

(** [struct WindowState]; the four sizes are [short]. *)
Record WindowState := mkState {
  visible : bool;
  rows : Z;
  cols : Z;
  row_offset : Z;
  col_offset : Z
}.

(** [struct MuttWindow]. *)
Record MuttWindow := mkWindow {
  req_rows : Z;
  req_cols : Z;
  state : WindowState;
  old : WindowState;
  orient : MuttWindowOrientation;
  size : MuttWindowSize;
  parent : option ptr;
  children : list ptr;
  name : option string
}.

Definition set_state_visible (v : bool) (w : MuttWindow) : MuttWindow :=
  mkWindow (req_rows w) (req_cols w)
    (mkState v (rows (state w)) (cols (state w)) (row_offset (state w))
       (col_offset (state w)))
    (old w) (orient w) (size w) (parent w) (children w) (name w).
Definition set_state_rows (v : Z) (w : MuttWindow) : MuttWindow :=
  mkWindow (req_rows w) (req_cols w)
    (mkState (visible (state w)) v (cols (state w)) (row_offset (state w))
       (col_offset (state w)))
    (old w) (orient w) (size w) (parent w) (children w) (name w).
Definition set_state_cols (v : Z) (w : MuttWindow) : MuttWindow :=
  mkWindow (req_rows w) (req_cols w)
    (mkState (visible (state w)) (rows (state w)) v (row_offset (state w))
       (col_offset (state w)))
    (old w) (orient w) (size w) (parent w) (children w) (name w).
Definition set_state_row_offset (v : Z) (w : MuttWindow) : MuttWindow :=
  mkWindow (req_rows w) (req_cols w)
    (mkState (visible (state w)) (rows (state w)) (cols (state w)) v
       (col_offset (state w)))
    (old w) (orient w) (size w) (parent w) (children w) (name w).
Definition set_state_col_offset (v : Z) (w : MuttWindow) : MuttWindow :=
  mkWindow (req_rows w) (req_cols w)
    (mkState (visible (state w)) (rows (state w)) (cols (state w))
       (row_offset (state w)) v)
    (old w) (orient w) (size w) (parent w) (children w) (name w).
Definition set_req_rows (v : Z) (w : MuttWindow) : MuttWindow :=
  mkWindow v (req_cols w) (state w) (old w) (orient w) (size w) (parent w)
    (children w) (name w).
Definition set_size (v : MuttWindowSize) (w : MuttWindow) : MuttWindow :=
  mkWindow (req_rows w) (req_cols w) (state w) (old w) (orient w) v (parent w)
    (children w) (name w).
Definition set_parent (v : option ptr) (w : MuttWindow) : MuttWindow :=
  mkWindow (req_rows w) (req_cols w) (state w) (old w) (orient w) (size w) v
    (children w) (name w).
Definition set_children (v : list ptr) (w : MuttWindow) : MuttWindow :=
  mkWindow (req_rows w) (req_cols w) (state w) (old w) (orient w) (size w)
    (parent w) v (name w).
Definition set_name (v : option string) (w : MuttWindow) : MuttWindow :=
  mkWindow (req_rows w) (req_cols w) (state w) (old w) (orient w) (size w)
    (parent w) (children w) v.

(** Calls that leave these sources: the reflow engine [window_reflow] (of
    reflow.c), the menu's redraw requests and the curses cursor.  They are
    kept in a log, oldest first. *)
Inductive Call :=
| call_window_reflow (win : option ptr)
| call_redraw_full
| call_redraw_FLOW
| call_move (row col : Z).

(** What the code outside these sources does: how [window_reflow] rewrites
    the windows, and what curses' [move] returns. *)
Record Extern := mkExtern {
  window_reflow : option ptr -> gmap nat MuttWindow -> gmap nat MuttWindow;
  move : Z -> Z -> Z
}.

(** [struct Dialog] (dialog.h is not among the sources): the code uses its
    [root] window only. *)
Record Dialog := mkDialog { root : option ptr }.

(** The process state: the heap of windows, the global window pointers, the
    configuration the window code reads, and the call log. *)
Record World := mkWorld {
  heap : gmap nat MuttWindow;
  RootWindow : option ptr;
  MuttDialogWindow : option ptr;
  MuttHelpWindow : option ptr;
  MuttIndexWindow : option ptr;
  MuttMessageWindow : option ptr;
  MuttPagerBarWindow : option ptr;
  MuttPagerWindow : option ptr;
  MuttSidebarWindow : option ptr;
  MuttStatusWindow : option ptr;
  C_Help : bool;
  C_StatusOnTop : bool;
  C_PagerIndexLines : Z;
  OptNoCurses : bool;
  calls : list Call
}.

Definition set_heap (h : gmap nat MuttWindow) (s : World) : World :=
  mkWorld h (RootWindow s) (MuttDialogWindow s) (MuttHelpWindow s)
    (MuttIndexWindow s) (MuttMessageWindow s) (MuttPagerBarWindow s)
    (MuttPagerWindow s) (MuttSidebarWindow s) (MuttStatusWindow s) (C_Help s)
    (C_StatusOnTop s) (C_PagerIndexLines s) (OptNoCurses s) (calls s).

Definition log (c : Call) (s : World) : World :=
  mkWorld (heap s) (RootWindow s) (MuttDialogWindow s) (MuttHelpWindow s)
    (MuttIndexWindow s) (MuttMessageWindow s) (MuttPagerBarWindow s)
    (MuttPagerWindow s) (MuttSidebarWindow s) (MuttStatusWindow s) (C_Help s)
    (C_StatusOnTop s) (C_PagerIndexLines s) (OptNoCurses s) (calls s ++ [c]).

(** [p->field = v] through [f]; faults when [p] is not allocated. *)
Definition modify (p : ptr) (f : MuttWindow -> MuttWindow) (s : World)
  : option World :=
  w ← heap s !! p; Some (set_heap (<[p := f w]> (heap s)) s).

(** *** TAILQ *)

Fixpoint remove_first (x : ptr) (l : list ptr) : list ptr :=
  match l with
  | [] => []
  | y :: l' => if Nat.eqb x y then l' else y :: remove_first x l'
  end.

Definition TAILQ_FIRST (w : MuttWindow) : option ptr := head (children w).
Definition TAILQ_LAST (w : MuttWindow) : option ptr := last (children w).

(** [TAILQ_INSERT_TAIL(&head->children, elm, entries)]: writes the links of
    [elm], then those of the list.  The macro takes an element that is in no
    list: [elm] has one [entries] link, which the macro overwrites.  For
    such an element the child list of [head] with [elm] appended is what
    the macro leaves; the theorems that depend on the resulting lists take
    an element that is in no child list ([in_no_list]). *)
Definition TAILQ_INSERT_TAIL (head elm : ptr) (s : World) : option World :=
  _ ← heap s !! elm;
  modify head (fun w => set_children (children w ++ [elm]) w) s.

(** The window [elm] is in the child list of no allocated window. *)
Definition in_no_list (elm : ptr) (s : World) : Prop :=
  forall q wq, heap s !! q = Some wq -> elm ∉ children wq.

(** [TAILQ_REMOVE(&head->children, elm, entries)]. *)
Definition TAILQ_REMOVE (head elm : ptr) (s : World) : option World :=
  _ ← heap s !! elm;
  modify head (fun w => set_children (remove_first elm (children w)) w) s.

(** *** mutt_window.c *)

(** The contents [mutt_window_new] gives the zeroed allocation: the [int]
    arguments are stored in [short] fields. *)
Definition new_window (o : MuttWindowOrientation) (sz : MuttWindowSize)
  (r c : Z) : MuttWindow :=
  mkWindow (to_short r) (to_short c) (mkState true 0 0 0 0)
    (mkState false 0 0 0 0) o sz None [] None.

(** [mutt_window_new]: the allocation is an address not in use. *)
Definition mutt_window_new (o : MuttWindowOrientation) (sz : MuttWindowSize)
  (r c : Z) (s : World) : ptr * World :=
  let p := fresh (dom (heap s)) in
  (p, set_heap (<[p := new_window o sz r c]> (heap s)) s).

(** [mutt_window_add_child]. *)
Definition mutt_window_add_child (parent child : option ptr) (s : World)
  : option World :=
  match parent, child with
  | Some p, Some c =>
      s ← TAILQ_INSERT_TAIL p c s;
      modify c (set_parent (Some p)) s
  | _, _ => Some s
  end.

(** [mutt_winlist_free]: [head] is the window whose child list is freed.
    The recursion follows the children; [fuel] bounds its depth, and running
    out of it yields [None] as a fault does. *)
Fixpoint mutt_winlist_free (fuel : nat) (head : option ptr) (s : World)
  : option World :=
  match head with
  | None => Some s
  | Some h =>
      match fuel with
      | O => None
      | S fuel =>
          w ← heap s !! h;
          foldl (fun acc np =>
                   s ← acc;
                   s ← TAILQ_REMOVE h np s;
                   s ← mutt_winlist_free fuel (Some np) s;
                   Some (set_heap (delete np (heap s)) s))
            (Some s) (children w)
      end
  end.

(** [mutt_window_free(ptr)]: the argument is [None] for a null [ptr], and
    [Some None] when [*ptr] is null.  The caller's pointer is null
    afterwards. *)
Definition mutt_window_free (pp : option (option ptr)) (s : World)
  : option World :=
  match pp with
  | None | Some None => Some s
  | Some (Some p) =>
      s ← mutt_winlist_free (S (base.size (heap s))) (Some p) s;
      _ ← heap s !! p;
      Some (set_heap (delete p (heap s)) s)
  end.

(** [mutt_window_copy_size]. *)
Definition mutt_window_copy_size (win_src win_dst : option ptr) (s : World)
  : option World :=
  match win_src, win_dst with
  | Some a, Some b =>
      src ← heap s !! a;
      s ← modify b (set_state_rows (rows (state src))) s;
      src ← heap s !! a;
      s ← modify b (set_state_cols (cols (state src))) s;
      src ← heap s !! a;
      s ← modify b (set_state_row_offset (row_offset (state src))) s;
      src ← heap s !! a;
      modify b (set_state_col_offset (col_offset (state src))) s
  | _, _ => Some s
  end.

Definition set_RootWindow (v : option ptr) (s : World) : World :=
  mkWorld (heap s) v (MuttDialogWindow s) (MuttHelpWindow s)
    (MuttIndexWindow s) (MuttMessageWindow s) (MuttPagerBarWindow s)
    (MuttPagerWindow s) (MuttSidebarWindow s) (MuttStatusWindow s) (C_Help s)
    (C_StatusOnTop s) (C_PagerIndexLines s) (OptNoCurses s) (calls s).
Definition set_MuttDialogWindow (v : option ptr) (s : World) : World :=
  mkWorld (heap s) (RootWindow s) v (MuttHelpWindow s)
    (MuttIndexWindow s) (MuttMessageWindow s) (MuttPagerBarWindow s)
    (MuttPagerWindow s) (MuttSidebarWindow s) (MuttStatusWindow s) (C_Help s)
    (C_StatusOnTop s) (C_PagerIndexLines s) (OptNoCurses s) (calls s).
Definition set_MuttHelpWindow (v : option ptr) (s : World) : World :=
  mkWorld (heap s) (RootWindow s) (MuttDialogWindow s) v
    (MuttIndexWindow s) (MuttMessageWindow s) (MuttPagerBarWindow s)
    (MuttPagerWindow s) (MuttSidebarWindow s) (MuttStatusWindow s) (C_Help s)
    (C_StatusOnTop s) (C_PagerIndexLines s) (OptNoCurses s) (calls s).
Definition set_MuttMessageWindow (v : option ptr) (s : World) : World :=
  mkWorld (heap s) (RootWindow s) (MuttDialogWindow s) (MuttHelpWindow s)
    (MuttIndexWindow s) v (MuttPagerBarWindow s)
    (MuttPagerWindow s) (MuttSidebarWindow s) (MuttStatusWindow s) (C_Help s)
    (C_StatusOnTop s) (C_PagerIndexLines s) (OptNoCurses s) (calls s).

(** [mutt_window_init]. *)
Definition mutt_window_init (s : World) : option World :=
  match RootWindow s with
  | Some _ => Some s
  | None =>
      let U := MUTT_WIN_SIZE_UNLIMITED in
      let '(r, s) :=
        mutt_window_new MUTT_WIN_ORIENT_VERTICAL MUTT_WIN_SIZE_FIXED 0 0 s in
      let s := set_RootWindow (Some r) s in
      let '(h, s) :=
        mutt_window_new MUTT_WIN_ORIENT_VERTICAL MUTT_WIN_SIZE_FIXED 1 U s in
      let s := set_MuttHelpWindow (Some h) s in
      let '(d, s) :=
        mutt_window_new MUTT_WIN_ORIENT_VERTICAL MUTT_WIN_SIZE_MAXIMISE U U s in
      let s := set_MuttDialogWindow (Some d) s in
      let '(m, s) :=
        mutt_window_new MUTT_WIN_ORIENT_VERTICAL MUTT_WIN_SIZE_FIXED 1 U s in
      let s := set_MuttMessageWindow (Some m) s in
      s ← modify r (set_name (Some "Root"%string)) s;
      s ← modify h (set_name (Some "Help"%string)) s;
      s ← modify d (set_name (Some "Dialogs"%string)) s;
      s ← modify m (set_name (Some "Message"%string)) s;
      s ← mutt_window_add_child (RootWindow s) (MuttHelpWindow s) s;
      s ← mutt_window_add_child (RootWindow s) (MuttDialogWindow s) s;
      mutt_window_add_child (RootWindow s) (MuttMessageWindow s) s
  end.

(** The swap of [mutt_window_reflow_prep]: when [anchor] is first in
    [head]'s child list with the status on top, or is not first with the
    status at the bottom, the first child moves to the tail. *)
Definition swap_first (head anchor : ptr) (s : World) : option World :=
  w ← heap s !! head;
  let first := TAILQ_FIRST w in
  if (C_StatusOnTop s && bool_decide (first = Some anchor))
     || (negb (C_StatusOnTop s) && negb (bool_decide (first = Some anchor)))
  then
    f ← first;
    s ← TAILQ_REMOVE head f s;
    TAILQ_INSERT_TAIL head f s
  else Some s.

(** [mutt_window_reflow_prep]. *)
Definition mutt_window_reflow_prep (s : World) : option World :=
  help ← MuttHelpWindow s;
  s ← modify help (set_state_visible (C_Help s)) s;
  w ← heap s !! help;
  parent ← parent w;
  s ← swap_first parent help s;
  match MuttIndexWindow s, MuttPagerWindow s with
  | Some index, Some pager =>
      wi ← heap s !! index;
      parent ← Tree.parent wi;
      s ← swap_first parent index s;
      wp ← heap s !! pager;
      parent ← Tree.parent wp;
      s ← swap_first parent pager s;
      wp ← heap s !! pager;
      parent ← Tree.parent wp;
      pw ← heap s !! parent;
      if visible (state pw) then
        s ← modify index (set_req_rows (C_PagerIndexLines s)) s;
        s ← modify index (set_size MUTT_WIN_SIZE_FIXED) s;
        wi ← heap s !! index;
        ip ← Tree.parent wi;
        s ← modify ip (set_size MUTT_WIN_SIZE_MINIMISE) s;
        wi ← heap s !! index;
        ip ← Tree.parent wi;
        modify ip (set_state_visible (negb (C_PagerIndexLines s =? 0))) s
      else
        s ← modify index (set_req_rows (to_short MUTT_WIN_SIZE_UNLIMITED)) s;
        s ← modify index (set_size MUTT_WIN_SIZE_MAXIMISE) s;
        wi ← heap s !! index;
        ip ← Tree.parent wi;
        s ← modify ip (set_size MUTT_WIN_SIZE_MAXIMISE) s;
        wi ← heap s !! index;
        ip ← Tree.parent wi;
        modify ip (set_state_visible true) s
  | _, _ => Some s
  end.

(** [dump]: it only reads; what it prints is not kept. *)
Fixpoint dump (fuel : nat) (h : gmap nat MuttWindow) (win : ptr)
  : option unit :=
  match fuel with
  | O => None
  | S fuel =>
      w ← h !! win;
      if negb (visible (state w)) then Some tt
      else foldl (fun acc np => _ ← acc; dump fuel h np) (Some tt)
             (children w)
  end.

(** [win_dump]. *)
Definition win_dump (s : World) : option World :=
  r ← RootWindow s;
  _ ← dump (S (base.size (heap s))) (heap s) r;
  Some s.

Section WithExtern.

Variable E : Extern.

(** [mutt_window_move]: the result is what curses' [move] returns. *)
Definition mutt_window_move (win : option ptr) (row col : Z) (s : World)
  : option (Z * World) :=
  p ← win;
  w ← heap s !! p;
  let r := to_int (row_offset (state w) + row) in
  let c := to_int (col_offset (state w) + col) in
  Some (move E r c, log (call_move r c) s).

(** [mutt_window_reflow]. *)
Definition mutt_window_reflow (win : option ptr) (s : World) : option World :=
  if OptNoCurses s then Some s else
  s ← mutt_window_reflow_prep s;
  let target := match win with Some p => Some p | None => RootWindow s end in
  let s := log (call_window_reflow target)
             (set_heap (window_reflow E target (heap s)) s) in
  let s := log call_redraw_full s in
  let s := log call_redraw_FLOW s in
  win_dump s.

(** [mutt_window_reflow_message_rows]. *)
Definition mutt_window_reflow_message_rows (mw_rows : Z) (s : World)
  : option World :=
  m ← MuttMessageWindow s;
  s ← modify m (set_req_rows (to_short mw_rows)) s;
  w ← heap s !! m;
  s ← mutt_window_reflow (parent w) s;
  Some (log call_redraw_full s).

(** [mutt_window_set_root]. *)
Definition mutt_window_set_root (rows cols : Z) (s : World) : option World :=
  match RootWindow s with
  | None => Some s
  | Some r =>
      let changed := false in
      w ← heap s !! r;
      '(s, changed) ←
        (if negb (Tree.rows (state w) =? rows)
         then s ← modify r (set_state_rows (to_short rows)) s; Some (s, true)
         else Some (s, changed));
      w ← heap s !! r;
      '(s, changed) ←
        (if negb (Tree.cols (state w) =? cols)
         then s ← modify r (set_state_cols (to_short cols)) s; Some (s, true)
         else Some (s, changed));
      if (changed : bool) then mutt_window_reflow (Some r) s else Some s
  end.

End WithExtern.

(** The geometry of a window: the four computed sizes of its current and of
    its previous state, and its requested sizes. *)
Definition geometry (w : MuttWindow) : list Z :=
  [rows (state w); cols (state w); row_offset (state w); col_offset (state w);
   rows (old w); cols (old w); row_offset (old w); col_offset (old w);
   req_rows w; req_cols w].


(** An [Extern] whose reflow engine leaves the windows alone and whose
    [move] returns 0; it stands in where an example needs one. *)
Definition idle : Extern := mkExtern (fun _ h => h) (fun _ _ => 0).

(** A world with no window, the given configuration and an empty log. *)
Definition blank (help status_on_top : bool) (pager_index_lines : Z)
  (no_curses : bool) : World :=
  mkWorld ∅ None None None None None None None None None help status_on_top
    pager_index_lines no_curses [].

(** The windows of [mutt_window_init] on a blank world, and the same with
    two more windows allocated for dialogs (at addresses 4 and 5). *)
Definition stage : World :=
  default (blank true false 0 false)
    (mutt_window_init (blank true false 0 false)).

Definition stage2 : World :=
  let U := MUTT_WIN_SIZE_UNLIMITED in
  let s := stage in
  let s :=
    (mutt_window_new MUTT_WIN_ORIENT_VERTICAL MUTT_WIN_SIZE_MAXIMISE U U s).2 in
  (mutt_window_new MUTT_WIN_ORIENT_VERTICAL MUTT_WIN_SIZE_MAXIMISE U U s).2.

(** *** The dialog stack *)

(** [dialog_push]. *)
Definition dialog_push (dlg : option Dialog) (s : World) : option World :=
  match dlg, MuttDialogWindow s with
  | Some d, Some c =>
      w ← heap s !! c;
      s ← match TAILQ_LAST w with
           | Some l => modify l (set_state_visible false) s
           | None => Some s
           end;
      r ← root d;
      s ← TAILQ_INSERT_TAIL c r s;
      modify r (set_state_visible true) s
  | _, _ => Some s
  end.

(** [dialog_pop]. *)
Definition dialog_pop (s : World) : option World :=
  match MuttDialogWindow s with
  | None => Some s
  | Some c =>
      w ← heap s !! c;
      match TAILQ_LAST w with
      | None => Some s
      | Some l =>
          s ← modify l (set_state_visible false) s;
          s ← TAILQ_REMOVE c l s;
          w ← heap s !! c;
          match TAILQ_LAST w with
          | Some l' => modify l' (set_state_visible true) s
          | None => Some s
          end
      end
  end.

(** *** Sequences of dialog operations *)

Inductive Op :=
| Push (d : Dialog)
| Pop.

Definition step (o : Op) (s : World) : option World :=
  match o with
  | Push d => dialog_push (Some d) s
  | Pop => dialog_pop s
  end.

Fixpoint run (ops : list Op) (s : World) : option World :=
  match ops with
  | [] => Some s
  | o :: k => s ← step o s; run k s
  end.

(** The dialogs on screen as a plain stack: a push adds the dialog's root on
    top, a pop takes the top away. *)
Definition stack_step (st : list ptr) (o : Op) : list ptr :=
  match o with
  | Push d => match root d with Some r => st ++ [r] | None => st end
  | Pop => removelast st
  end.

Definition stack_of (ops : list Op) : list ptr := foldl stack_step [] ops.

(** Every push of the sequence is given a dialog whose root is a window
    allocated in [h], is not the container [c] and is not on the stack at
    that moment. *)
Fixpoint pushes_ok (h : gmap nat MuttWindow) (c : ptr) (st : list ptr)
  (ops : list Op) : Prop :=
  match ops with
  | [] => True
  | Push d :: k =>
      exists r, root d = Some r /\ r <> c /\ (r ∉ st) /\ is_Some (h !! r)
                /\ pushes_ok h c (st ++ [r]) k
  | Pop :: k => pushes_ok h c (removelast st) k
  end.

(** The stack [st] is on screen in [s]: it is the child sequence of the
    container [c], and a child is visible exactly when it is the last. *)
Definition on_screen (c : ptr) (st : list ptr) (s : World) : Prop :=
  MuttDialogWindow s = Some c /\
  (exists wc, heap s !! c = Some wc /\ children wc = st) /\
  NoDup st /\ (c ∉ st) /\
  forall p, p ∈ st ->
    exists w, heap s !! p = Some w
              /\ (visible (state w) = true <-> last st = Some p).

(** The world after two pushes on [stage2]. *)
Definition stage3 : World :=
  default stage2
    (run [Push (mkDialog (Some 4%nat)); Push (mkDialog (Some 5%nat))] stage2).

(** The world after one push on [stage2]: the dialog at address 4 is on
    screen, the window at address 5 is in no list. *)
Definition stage_pushed : World :=
  default stage2 (run [Push (mkDialog (Some 4%nat))] stage2).

(** [s'] differs from [s] in the heap at most. *)
Definition heap_only (s s' : World) : Prop := s' = set_heap (heap s') s.

(** *** The heaps the dialog stack leaves

    Each assignment through a pointer is an [alter] of the heap; these are
    the heaps [dialog_push] and [dialog_pop] produce, written once for the
    proofs. *)

Definition hide_last (wc : MuttWindow) (h : gmap nat MuttWindow)
  : gmap nat MuttWindow :=
  match TAILQ_LAST wc with
  | Some l => alter (set_state_visible false) l h
  | None => h
  end.

Definition push_heap (c r : ptr) (wc : MuttWindow) (h : gmap nat MuttWindow)
  : gmap nat MuttWindow :=
  alter (set_state_visible true) r
    (alter (fun w => set_children (children w ++ [r]) w) c (hide_last wc h)).

Definition show_last (l : list ptr) (h : gmap nat MuttWindow)
  : gmap nat MuttWindow :=
  match last l with
  | Some l' => alter (set_state_visible true) l' h
  | None => h
  end.

Definition pop_heap (c l : ptr) (wc : MuttWindow) (h : gmap nat MuttWindow)
  : gmap nat MuttWindow :=
  show_last (remove_first l (children wc))
    (alter (fun w => set_children (remove_first l (children w)) w) c
       (alter (set_state_visible false) l h)).

(** *** The default windows, made and freed *)

(** [mutt_window_free_all]: [FREE] leaves [RootWindow] null. *)
Definition mutt_window_free_all (s : World) : option World :=
  let s :=
    mkWorld (heap s) (RootWindow s) (MuttDialogWindow s) None None None None
      None None None (C_Help s) (C_StatusOnTop s) (C_PagerIndexLines s)
      (OptNoCurses s) (calls s) in
  s ← mutt_window_free (Some (RootWindow s)) s;
  Some (set_RootWindow None s).

(** The world [mutt_window_init] makes of [s] when the allocations of the
    root, help, dialogs and message windows are [r], [h], [d] and [m]. *)
Definition init_world (r h d m : ptr) (s : World) : World :=
  let U := MUTT_WIN_SIZE_UNLIMITED in
  let V := MUTT_WIN_ORIENT_VERTICAL in
  mkWorld
    (<[m := set_parent (Some r)
              (set_name (Some "Message"%string)
                 (new_window V MUTT_WIN_SIZE_FIXED 1 U))]>
       (<[d := set_parent (Some r)
                 (set_name (Some "Dialogs"%string)
                    (new_window V MUTT_WIN_SIZE_MAXIMISE U U))]>
          (<[h := set_parent (Some r)
                    (set_name (Some "Help"%string)
                       (new_window V MUTT_WIN_SIZE_FIXED 1 U))]>
             (<[r := set_children [h; d; m]
                       (set_name (Some "Root"%string)
                          (new_window V MUTT_WIN_SIZE_FIXED 0 0))]>
                (heap s)))))
    (Some r) (Some d) (Some h) (MuttIndexWindow s) (Some m)
    (MuttPagerBarWindow s) (MuttPagerWindow s) (MuttSidebarWindow s)
    (MuttStatusWindow s) (C_Help s) (C_StatusOnTop s) (C_PagerIndexLines s)
    (OptNoCurses s) (calls s).

(** The world of [init_world] with another heap. *)
Definition init_frame (r h d m : ptr) (s : World) (hp : gmap nat MuttWindow)
  : World :=
  set_heap hp (init_world r h d m s).

(** Child lists and parent pointers agree: every child of an allocated
    window is allocated and has that window for its parent. *)
Definition linked (s : World) : Prop :=
  forall p wp c,
    heap s !! p = Some wp -> c ∈ children wp ->
    exists wc, heap s !! c = Some wc /\ parent wc = Some p.

End Tree.

(** ** Drawing in a window (mutt_window.c)

    The cursor functions of the flat variant.  A window argument is the
    variable that holds the pointer, as in [Flat]; the curses calls are kept
    in a log, oldest first. *)

From Stdlib Require Import Ascii.

Module Draw.

Import Flat.

Local Open Scope char_scope.
Local Open Scope Z_scope.

(** The value of the curses macro [ERR]. *)
Definition ERR : Z := -1.

Inductive CursesCall :=
| move (row col : Z)
| addch (ch : ascii)
| clrtoeol
| mvaddstr (row col : Z) (str : list ascii)
| vw_printw (fmt : list ascii).

(** Curses is not in the sources.  What a call returns is some function of
    the call and of the calls before it, and so is the cursor position
    [getyx] reports (row first). *)
Record Curses := mkCurses {
  result : CursesCall -> list CursesCall -> Z;
  getyx : list CursesCall -> Z * Z
}.

(** The terminal: whether [stdscr] is set, and the log. *)
Record Term := mkTerm {
  stdscr : bool;
  log : list CursesCall
}.

(** A curses call: its result, and the terminal with the call logged. *)
Definition curses (L : Curses) (c : CursesCall) (t : Term) : Z * Term :=
  (result L c (log t), mkTerm (stdscr t) (log t ++ [c])).

(** [mutt_window_move]. *)
Definition mutt_window_move (L : Curses) (g : Globals) (p : Win)
  (row col : Z) (t : Term) : option (Z * Term) :=
  w ← win g p;
  Some (curses L (move (to_int (row_offset w + row))
                    (to_int (col_offset w + col))) t).

(** [mutt_window_mvaddstr]. *)
Definition mutt_window_mvaddstr (L : Curses) (g : Globals) (p : Win)
  (row col : Z) (str : list ascii) (t : Term) : option (Z * Term) :=
  w ← win g p;
  Some (curses L (mvaddstr (to_int (row_offset w + row))
                    (to_int (col_offset w + col)) str) t).

(** [mutt_window_mvprintw]. *)
Definition mutt_window_mvprintw (L : Curses) (g : Globals) (p : Win)
  (row col : Z) (fmt : list ascii) (t : Term) : option (Z * Term) :=
  '(rc, t) ← mutt_window_move L g p row col t;
  if rc =? ERR then Some (rc, t)
  else Some (curses L (vw_printw fmt) t).

(** [mutt_window_getxy]: [x] and [y] tell whether the pointer given for
    the coordinate is not null; the result holds what is stored through
    each of them.  The window is read only for a coordinate that is asked
    for. *)
Definition mutt_window_getxy (L : Curses) (g : Globals) (p : Win)
  (x y : bool) (t : Term) : option (option Z * option Z) :=
  let '(row, col) := getyx L (log t) in
  xv ← (if x then w ← win g p; Some (Some (to_int (col - col_offset w)))
        else Some None);
  yv ← (if y then w ← win g p; Some (Some (to_int (row - row_offset w)))
        else Some None);
  Some (xv, yv).

(** The [while] loop of [mutt_window_clrtoeol]; every turn brings [curcol]
    one closer to [limit], and [fuel] bounds the turns. *)
Fixpoint blank_loop (L : Curses) (fuel : nat) (curcol limit : Z) (t : Term)
  : option Term :=
  if curcol <? limit then
    match fuel with
    | O => None
    | S fuel =>
        blank_loop L fuel (to_int (curcol + 1)) limit (curses L (addch " ") t).2
    end
  else Some t.

(** [mutt_window_clrtoeol]. *)
Definition mutt_window_clrtoeol (L : Curses) (g : Globals) (p : Win)
  (t : Term) : option Term :=
  match win g p with
  | None => Some t
  | Some w =>
      if negb (stdscr t) then Some t
      else if to_int (col_offset w + cols w) =? COLS g
      then Some (curses L clrtoeol t).2
      else
        let '(row, col) := getyx L (log t) in
        let curcol := col in
        let limit := to_int (col_offset w + cols w) in
        t ← blank_loop L (Z.to_nat (limit - curcol)) curcol limit t;
        Some (curses L (move row col) t).2
  end.

(** [mutt_window_clearline]. *)
Definition mutt_window_clearline (L : Curses) (g : Globals) (p : Win)
  (row : Z) (t : Term) : option Term :=
  '(_, t) ← mutt_window_move L g p row 0 t;
  mutt_window_clrtoeol L g p t.

(** The curses the examples use: after a [move] the cursor is where it was
    sent, [addch] advances it by a column, and every call returns 0. *)
Fixpoint sample_cursor (l : list CursesCall) (at_ : Z * Z) : Z * Z :=
  match l with
  | [] => at_
  | move r c :: l' => sample_cursor l' (r, c)
  | mvaddstr r c str :: l' => sample_cursor l' (r, c + Z.of_nat (length str))
  | addch _ :: l' => sample_cursor l' (at_.1, at_.2 + 1)
  | _ :: l' => sample_cursor l' at_
  end.

Definition sample_curses : Curses :=
  mkCurses (fun _ _ => 0) (fun l => sample_cursor l (0, 0)).

End Draw.

(** ** The curses signal handler (mutt_signal.c) *)

Module Signal.

(** The signal number, as far as [curses_signal_handler] tells numbers
    apart. *)
Inductive Signum :=
| SIGTSTP
| SIGCONT
| SIGWINCH
| SIGINT
| SIGother.

(** The calls the handler makes into curses, libc and curs_lib.c; they are
    kept in a log, oldest first. *)
Inductive LibCall :=
| isendwin
| curs_set (visibility : Z)
| endwin
| kill_0_SIGSTOP
| refresh
| mutt_curs_set (visibility : Z).

(** What those calls do is not in the sources: [isendwin] may answer
    anything, as a function of the calls so far, and every call may leave
    any value in [errno]. *)
Record Lib := mkLib {
  isendwin_answer : list LibCall -> bool;
  errno_after : LibCall -> Z -> Z
}.

(** The variables the handler reads and writes, and the log. *)
Record Proc := mkProc {
  IsEndwin : Z;
  SigWinch : Z;
  SigInt : Z;
  errno : Z;
  C_Suspend : bool;
  calls : list LibCall
}.

Definition set_IsEndwin (v : Z) (p : Proc) : Proc :=
  mkProc v (SigWinch p) (SigInt p) (errno p) (C_Suspend p) (calls p).
Definition set_SigWinch (v : Z) (p : Proc) : Proc :=
  mkProc (IsEndwin p) v (SigInt p) (errno p) (C_Suspend p) (calls p).
Definition set_SigInt (v : Z) (p : Proc) : Proc :=
  mkProc (IsEndwin p) (SigWinch p) v (errno p) (C_Suspend p) (calls p).
Definition set_errno (v : Z) (p : Proc) : Proc :=
  mkProc (IsEndwin p) (SigWinch p) (SigInt p) v (C_Suspend p) (calls p).

(** A library call: it is logged, and [errno] is what the call leaves. *)
Definition lib (L : Lib) (c : LibCall) (p : Proc) : Proc :=
  mkProc (IsEndwin p) (SigWinch p) (SigInt p) (errno_after L c (errno p))
    (C_Suspend p) (calls p ++ [c]).

(** The statements under [case SIGCONT], which [case SIGTSTP] falls
    through to. *)
Definition case_SIGCONT (L : Lib) (p : Proc) : Proc :=
  let p := if IsEndwin p =? 0 then lib L refresh p else p in
  let p := lib L (mutt_curs_set (-1)) p in
  set_SigWinch 1 p.

(** [curses_signal_handler]. *)
Definition curses_signal_handler (L : Lib) (sig : Signum) (p : Proc) : Proc :=
  let save_errno := errno p in
  let p :=
    match sig with
    | SIGTSTP =>
        if negb (C_Suspend p) then p
        else
          let answer := isendwin_answer L (calls p) in
          let p := set_IsEndwin (if answer then 1 else 0) (lib L isendwin p) in
          let p := lib L (curs_set 1) p in
          let p := if IsEndwin p =? 0 then lib L endwin p else p in
          let p := lib L kill_0_SIGSTOP p in
          case_SIGCONT L p
    | SIGCONT => case_SIGCONT L p
    | SIGWINCH => set_SigWinch 1 p
    | SIGINT => set_SigInt 1 p
    | SIGother => p
    end in
  set_errno save_errno p.

(** The handler run on one signal after the other. *)
Definition deliver (L : Lib) (sigs : list Signum) (p : Proc) : Proc :=
  foldl (fun p sig => curses_signal_handler L sig p) p sigs.

(** The signal makes the handler ask for a resize. *)
Definition resizes (suspend : bool) (sig : Signum) : bool :=
  match sig with
  | SIGTSTP => suspend
  | SIGCONT | SIGWINCH => true
  | SIGINT | SIGother => false
  end.

Definition is_SIGINT (sig : Signum) : bool :=
  match sig with SIGINT => true | _ => false end.

(** A library whose [isendwin] tells whether [endwin] was the last of
    [endwin] and [refresh] in the log, and that leaves 4 in [errno]. *)
Definition sample_lib : Lib :=
  mkLib
    (fun log => match List.filter
                        (fun c => match c with
                                  | endwin | refresh => true
                                  | _ => false
                                  end) (rev log) with
                | endwin :: _ => true
                | _ => false
                end)
    (fun _ _ => 4).

End Signal.

(** ** Format=flowed text (rfc3676.c)

    A C string is the list of its characters before the terminating NUL.
    [size_t] and [unsigned int] values are kept as [Z], reduced modulo
    [2 ^ 64] and [2 ^ 32] where the C text computes them. *)

Module Rfc3676.

Local Open Scope char_scope.
Local Open Scope Z_scope.

Definition LF : ascii := "010".
Definition CR : ascii := "013".
Definition NUL : ascii := "000".

Definition to_size_t (z : Z) : Z := z mod 2 ^ 64.
Definition to_uint (z : Z) : Z := z mod 2 ^ 32.

Definition FLOWED_MAX : Z := 72.

(** [struct FlowedState]. *)
Record FlowedState := mkFlowed {
  width : Z;
  spaces : Z;
  delsp : bool
}.

Definition set_width (v : Z) (fst : FlowedState) : FlowedState :=
  mkFlowed v (spaces fst) (delsp fst).
Definition set_spaces (v : Z) (fst : FlowedState) : FlowedState :=
  mkFlowed (width fst) v (delsp fst).
Definition set_delsp (v : bool) (fst : FlowedState) : FlowedState :=
  mkFlowed (width fst) (spaces fst) v.

(** [struct State] (state.h is not among the sources).  This file uses:
    whether [flags] has [MUTT_REPLYING]; the [prefix] string, which may be
    [NULL]; the input [fp_in], kept as the lines [mutt_file_read_line] has
    still to return; and the output [fp_out], kept as the text written to
    it. *)
Record State := mkState {
  replying : bool;
  prefix : option (list ascii);
  fp_in : list (list ascii);
  fp_out : list ascii
}.

(** [state_puts(str, s)] and [state_putc(c, s)] write to [s->fp_out]. *)
Definition state_puts (str : list ascii) (s : State) : State :=
  mkState (replying s) (prefix s) (fp_in s) (fp_out s ++ str).
Definition state_putc (c : ascii) (s : State) : State := state_puts [c] s.

(** What the file reads from the rest of the program: three configuration
    variables, the windows (for [MuttIndexWindow]), and the display width
    [mutt_strwidth] gives a string (curs_lib.c, not among the sources; it
    returns an [int]). *)
Record Env := mkEnv {
  C_TextFlowed : bool;
  C_ReflowSpaceQuotes : bool;
  C_ReflowWrap : Z;
  windows : Tree.World;
  mutt_strwidth : list ascii -> Z
}.

Definition b2z (b : bool) : Z := if b then 1 else 0.

(** The loop of [get_quote_level]. *)
Fixpoint quote_loop (p : list ascii) (quoted : Z) : Z :=
  match p with
  | c :: p' => if Ascii.eqb c ">" then quote_loop p' (to_int (quoted + 1))
               else quoted
  | [] => quoted
  end.

(** [get_quote_level]. *)
Definition get_quote_level (line : option (list ascii)) : Z :=
  match line with
  | Some p => quote_loop p 0
  | None => 0
  end.

(** [space_quotes]. *)
Definition space_quotes (e : Env) (s : State) : bool :=
  if C_TextFlowed e && replying s then false else C_ReflowSpaceQuotes e.

Definition has_prefix (s : State) : bool :=
  match prefix s with Some _ => true | None => false end.

(** [add_quote_suffix]. *)
Definition add_quote_suffix (e : Env) (s : State) (ql : Z) : bool :=
  if replying s then false
  else if space_quotes e s then false
  else if (ql =? 0) && negb (has_prefix s) then false
  else if negb (C_TextFlowed e) && (ql =? 0) && has_prefix s then false
  else true.

(** [print_indent]: the number it returns, and the state after its writes.
    The [for] loop runs [ql] times when [ql] is positive and not at all
    otherwise. *)
Definition print_indent (e : Env) (ql : Z) (s : State) (add_suffix : Z)
  : Z * State :=
  let wid := 0 in
  let '(ql, wid, s) :=
    match prefix s with
    | Some pre =>
        if C_TextFlowed e then (to_int (ql + 1), wid, s)
        else (ql, to_size_t (to_int (mutt_strwidth e pre)), state_puts pre s)
    | None => (ql, wid, s)
    end in
  let s :=
    Nat.iter (Z.to_nat ql)
      (fun s => let s := state_putc ">" s in
                if space_quotes e s then state_putc " " s else s) s in
  let s := if negb (add_suffix =? 0) then state_putc " " s else s in
  let ql := if space_quotes e s then to_int (ql * 2) else ql in
  (to_size_t (to_int (ql + add_suffix) + wid), s).

(** [flush_par]. *)
Definition flush_par (s : State) (fst : FlowedState) : State * FlowedState :=
  let '(s, fst) :=
    if 0 <? width fst then (state_putc LF s, set_width 0 fst) else (s, fst) in
  (s, set_spaces 0 fst).

(** [quote_width]; it reads [MuttIndexWindow->state.cols]. *)
Definition quote_width (e : Env) (s : State) (ql : Z) : option Z :=
  p ← Tree.MuttIndexWindow (windows e);
  w ← Tree.heap (windows e) !! p;
  let width :=
    mutt_window_wrap_cols (Tree.cols (Tree.state w)) (C_ReflowWrap e) in
  let '(width, ql) :=
    if C_TextFlowed e && replying s
    then (if width >? FLOWED_MAX then FLOWED_MAX else width, to_int (ql + 1))
    else (width, ql) in
  let width :=
    to_int (width - (if space_quotes e s then to_int (ql * 2) else ql)) in
  let width := if add_quote_suffix e s ql then to_int (width - 1) else width in
  let width := if width <=? 0 then FLOWED_MAX else width in
  Some width.

(** [MuttIndexWindow] points to a window with [c] columns. *)
Definition index_cols (e : Env) (c : Z) : Prop :=
  exists p w, Tree.MuttIndexWindow (windows e) = Some p
              /\ Tree.heap (windows e) !! p = Some w
              /\ Tree.cols (Tree.state w) = c.

(** The strings [strsep(&line, " ")] returns one after the other: the
    stretches of [line] between single spaces, empty ones included. *)
Fixpoint strsep_tokens (line : list ascii) : list (list ascii) :=
  match line with
  | [] => [[]]
  | c :: line' =>
      if Ascii.eqb c " " then [] :: strsep_tokens line'
      else match strsep_tokens line' with
           | p :: ps => (c :: p) :: ps
           | [] => [[c]]
           end
  end.

(** One turn of the [for] loop of [print_flowed_line] on the string [p];
    [wd] is the paragraph width, [last] the last character of the line, and
    [words] the loop's counter. *)
Definition flowed_word (e : Env) (ql wd : Z) (last : ascii)
  (st : State * FlowedState * Z) (p : list ascii)
  : State * FlowedState * Z :=
  let '(s, fst, words) := st in
  match p with
  | [] => (s, set_spaces (to_size_t (spaces fst + 1)) fst, words)
  | _ :: _ =>
      let fst :=
        if negb (words =? 0) then set_spaces (to_size_t (spaces fst + 1)) fst
        else fst in
      let w := to_size_t (to_int (mutt_strwidth e p)) in
      let '(s, fst, words) :=
        if negb ((spaces fst =? 0) && delsp fst && negb (Ascii.eqb last " "))
           && (w <? wd)
           && (to_size_t (to_size_t (w + width fst) + spaces fst) >? wd)
        then
          let s :=
            if C_TextFlowed e
            then Nat.iter (Z.to_nat (spaces fst)) (state_putc " ") s
            else s in
          let s := state_putc LF s in
          (s, set_spaces 0 (set_width 0 fst), 0)
        else (s, fst, words) in
      let '(s, fst) :=
        if (words =? 0) && (width fst =? 0)
        then
          let '(n, s) := print_indent e ql s (b2z (add_quote_suffix e s ql)) in
          (s, set_width n fst)
        else (s, fst) in
      let fst :=
        set_width (to_size_t (width fst + to_size_t (w + spaces fst))) fst in
      let s := Nat.iter (Z.to_nat (spaces fst)) (state_putc " ") s in
      let fst := set_spaces 0 fst in
      let s := state_puts p s in
      (s, fst, to_size_t (words + 1))
  end.

(** [print_flowed_line]. *)
Definition print_flowed_line (e : Env) (line : option (list ascii))
  (s : State) (ql : Z) (fst : FlowedState) (term : bool)
  : option (State * FlowedState) :=
  match line with
  | None | Some [] =>
      let '(s, fst) := flush_par s fst in
      let '(_, s) := print_indent e ql s 0 in
      Some (state_putc LF s, fst)
  | Some l =>
      wd ← quote_width e s ql;
      let wd := to_size_t wd in
      let last := List.last l NUL in
      let '(s, fst, _) :=
        foldl (flowed_word e ql wd last) (s, fst, 0) (strsep_tokens l) in
      Some (if term then flush_par s fst else (s, fst))
  end.

(** [print_fixed_line]. *)
Definition print_fixed_line (e : Env) (line : option (list ascii))
  (s : State) (ql : Z) (fst : FlowedState) : State * FlowedState :=
  let '(_, s) := print_indent e ql s (b2z (add_quote_suffix e s ql)) in
  let s :=
    match line with
    | Some (c :: l) => state_puts (c :: l) s
    | _ => s
    end in
  let s := state_putc LF s in
  (s, set_spaces 0 (set_width 0 fst)).

(** [mutt_str_strcasecmp(t, "yes") == 0]. *)
Definition tolower (c : ascii) : ascii :=
  let n := nat_of_ascii c in
  if (65 <=? n)%nat && (n <=? 90)%nat then ascii_of_nat (n + 32) else c.

Definition is_yes (t : list ascii) : bool :=
  bool_decide (map tolower t = ["y"; "e"; "s"]).

(** [struct Body]: what [mutt_param_get(&a->parameter, "delsp")] returns,
    and the [filename]. *)
Record Body := mkBody {
  parameter_delsp : option (list ascii);
  filename : option string
}.

(** One turn of the [while] loop of [rfc3676_handler], on the line [buf].
    [buf_len] is the length of the line: a string in memory is shorter than
    [2 ^ 64]. *)
Definition handler_line (e : Env) (delsp : bool) (buf : list ascii)
  (st : State * FlowedState * Z) : option (State * FlowedState * Z) :=
  let '(s, fst, quotelevel) := st in
  let buf_len := Z.of_nat (length buf) in
  let newql := to_uint (get_quote_level (Some buf)) in
  let '(s, fst) :=
    if negb (newql =? quotelevel) then flush_par s fst else (s, fst) in
  let quotelevel := newql in
  let buf_off := to_int newql in
  let buf_off :=
    if bool_decide (buf !! Z.to_nat buf_off = Some " ")
    then to_int (buf_off + 1) else buf_off in
  let sigsep :=
    bool_decide (drop (Z.to_nat buf_off) buf = ["-"; "-"; " "]) in
  let fixed :=
    (buf_len =? to_size_t buf_off)
    || negb (bool_decide (List.last buf NUL = " ")) || sigsep in
  if (fixed && ((width fst =? 0) || (buf_len =? 0))) || sigsep then
    let '(s, fst) := flush_par s fst in
    let '(s, fst) :=
      print_fixed_line e (Some (drop (Z.to_nat buf_off) buf)) s
        (to_int quotelevel) fst in
    Some (s, fst, quotelevel)
  else
    let buf := if delsp && negb fixed then removelast buf else buf in
    '(s, fst) ←
      print_flowed_line e (Some (drop (Z.to_nat buf_off) buf)) s
        (to_int quotelevel) fst fixed;
    Some (s, fst, quotelevel).

(** The [while] loop: one turn for each line read. *)
Fixpoint handler_loop (e : Env) (delsp : bool) (lines : list (list ascii))
  (st : State * FlowedState * Z) : option (State * FlowedState * Z) :=
  match lines with
  | [] => Some st
  | buf :: lines' =>
      st ← handler_line e delsp buf st;
      handler_loop e delsp lines' st
  end.

(** [rfc3676_handler]: its return value and the state it leaves, with the
    input read to its end. *)
Definition rfc3676_handler (e : Env) (a : Body) (s : State)
  : option (Z * State) :=
  let quotelevel := 0 in
  let delsp := false in
  let fst := mkFlowed 0 0 false in
  let '(delsp, fst) :=
    match parameter_delsp a with
    | Some t => (is_yes t, set_delsp true fst)
    | None => (delsp, fst)
    end in
  let lines := fp_in s in
  let s := mkState (replying s) (prefix s) [] (fp_out s) in
  '(s, fst, _) ← handler_loop e delsp lines (s, fst, quotelevel);
  let '(s, fst) := flush_par s fst in
  Some (0, s).

(** *** Space-stuffing *)

(** The C string a buffer holds: its bytes up to the first NUL. *)
Fixpoint c_string (buf : list ascii) : list ascii :=
  match buf with
  | [] => []
  | c :: buf' => if Ascii.eqb c NUL then [] else c :: c_string buf'
  end.

(** [fgets(buf, n, fp)] on the bytes [f] left in the file: the bytes read,
    at most [room = n - 1] and none beyond a newline, and the bytes left. *)
Fixpoint fgets_bytes (room : nat) (f : list ascii) : list ascii * list ascii :=
  match room, f with
  | S room, c :: f' =>
      if Ascii.eqb c LF then ([c], f')
      else let '(b, r) := fgets_bytes room f' in (c :: b, r)
  | _, _ => ([], f)
  end.

(** [fgets] returns [NULL] at the end of the file. *)
Definition fgets (n : nat) (f : list ascii) : option (list ascii * list ascii) :=
  match f with
  | [] => None
  | _ :: _ => Some (fgets_bytes (n - 1) f)
  end.

(** [mutt_str_startswith(buf, "From ", CASE_MATCH)] as a truth value. *)
Definition starts_with_From (buf : list ascii) : bool :=
  bool_decide (take 5 (c_string buf) = ["F"; "r"; "o"; "m"; " "]).

(** The body of the [while] loop of [rfc3676_space_stuff]: what it writes
    for the buffer [buf]. *)
Definition stuff (buf : list ascii) : list ascii :=
  (if bool_decide (head buf = Some " ") || starts_with_From buf
   then [" "] else [])
  ++ c_string buf.

(** The loop: [fp_in] is what is left of the input, [fp_out] what was
    written.  Every turn reads at least one byte; [fuel] bounds the turns. *)
Fixpoint stuff_loop (fuel : nat) (fp_in fp_out : list ascii)
  : option (list ascii) :=
  match fgets 1024 fp_in with
  | None => Some fp_out
  | Some (buf, rest) =>
      match fuel with
      | O => None
      | S fuel => stuff_loop fuel rest (fp_out ++ stuff buf)
      end
  end.

(** [struct Email]: its [content]. *)
Record Email := mkEmail { content : option Body }.

(** [rfc3676_space_stuff] on the files [fs] (name to contents): the email
    and the files it leaves.  [tmpfile] is the name [mutt_mktemp] makes up,
    and [writable] tells whether that file can be opened for writing.  File
    times are not kept. *)
Definition rfc3676_space_stuff (tmpfile : string) (writable : bool)
  (e : option Email) (fs : gmap string (list ascii))
  : option (option Email * gmap string (list ascii)) :=
  match e with
  | Some (mkEmail (Some (mkBody par (Some name)))) =>
      match fs !! name with
      | None => Some (e, fs)
      | Some data =>
          if negb writable then Some (e, fs) else
          out ← stuff_loop (length data) data [];
          let fs := <[tmpfile := out]> fs in
          let fs := delete name fs in
          Some (Some (mkEmail (Some (mkBody par (Some tmpfile)))), fs)
      end
  | _ => Some (e, fs)
  end.

(** The lines of a file, as the handler reads them.  [mutt_file_read_line]
    (file.c, not among the sources) called without flags, as
    [rfc3676_handler] calls it, returns the lines of the file one by one,
    each without its newline, and a last line that has no newline as well.
    What it does to a carriage return before the newline is not modelled:
    the theorems that read a file take text without one.  [cur] holds the
    bytes of the line read so far. *)
Fixpoint file_lines_from (cur f : list ascii) : list (list ascii) :=
  match f with
  | [] => match cur with [] => [] | _ :: _ => [cur] end
  | c :: f' =>
      if Ascii.eqb c LF then cur :: file_lines_from [] f'
      else file_lines_from (cur ++ [c]) f'
  end.

Definition file_lines (f : list ascii) : list (list ascii) :=
  file_lines_from [] f.

(** A line without the one leading space that space-stuffing gives it. *)
Definition unstuffed (buf : list ascii) : list ascii :=
  match buf with
  | c :: buf' => if Ascii.eqb c " " then buf' else buf
  | [] => []
  end.

(** A line the handler takes as fixed text of quote level 0: it does not
    start with [>], and it is empty once unstuffed, or does not end in a
    space, or is the signature separator. *)
Definition plain_fixed (buf : list ascii) : Prop :=
  head buf <> Some ">"
  /\ (unstuffed buf = [] \/ List.last buf NUL <> " "
      \/ unstuffed buf = ["-"; "-"; " "]).

(** The characters of a text that are neither spaces nor newlines. *)
Definition ink (l : list ascii) : list ascii :=
  filter (fun c => c <> " " /\ c <> LF) l.

(** For the examples: a world whose only window is the index window, [cols]
    columns wide; the width of a string taken as its length; an
    environment over these with every option off; and the state of a
    display of [lines] with nothing written. *)
Definition index_world (cols : Z) : Tree.World :=
  Tree.mkWorld
    {[ 0%nat := Tree.set_state_cols cols
                  (Tree.new_window MUTT_WIN_ORIENT_VERTICAL
                     MUTT_WIN_SIZE_MAXIMISE MUTT_WIN_SIZE_UNLIMITED
                     MUTT_WIN_SIZE_UNLIMITED) ]}
    None None None (Some 0%nat) None None None None None true false 0 false [].

Definition byte_width (l : list ascii) : Z := Z.of_nat (length l).

Definition plain_env (cols : Z) : Env :=
  mkEnv false false 0 (index_world cols) byte_width.

Definition display (lines : list (list ascii)) : State :=
  mkState false None lines [].

End Rfc3676.

(** * Properties

    ** Machine integers *)

Section CIntFacts.

Lemma to_int_id z : in_int z -> to_int z = z.
Proof.
  unfold in_int, INT_MIN, INT_MAX, to_int, wrap. intros H.
  change (2 ^ (32 - 1)) with 2147483648. change (2 ^ 32) with 4294967296.
  change (2 ^ 31) with 2147483648 in H.
  rewrite Z.mod_small; lia.
Qed.

Lemma to_short_id z : in_short z -> to_short z = z.
Proof.
  unfold in_short, SHRT_MIN, SHRT_MAX, to_short, wrap. intros H.
  change (2 ^ (16 - 1)) with 32768. change (2 ^ 16) with 65536.
  change (2 ^ 15) with 32768 in H.
  rewrite Z.mod_small; lia.
Qed.

Lemma to_int_range z : in_int (to_int z).
Proof.
  unfold in_int, INT_MIN, INT_MAX, to_int, wrap.
  change (2 ^ (32 - 1)) with 2147483648. change (2 ^ 32) with 4294967296.
  change (2 ^ 31) with 2147483648.
  pose proof (Z.mod_pos_bound (z + 2147483648) 4294967296). lia.
Qed.

Lemma to_short_range z : in_short (to_short z).
Proof.
  unfold in_short, SHRT_MIN, SHRT_MAX, to_short, wrap.
  change (2 ^ (16 - 1)) with 32768. change (2 ^ 16) with 65536.
  change (2 ^ 15) with 32768.
  pose proof (Z.mod_pos_bound (z + 32768) 65536). lia.
Qed.

Lemma in_short_in_int z : in_short z -> in_int z.
Proof.
  unfold in_short, in_int, SHRT_MIN, SHRT_MAX, INT_MIN, INT_MAX.
  change (2 ^ 15) with 32768. change (2 ^ 31) with 2147483648. lia.
Qed.

End CIntFacts.

(** ** mutt_window_wrap_cols *)

Section WrapCols.

Lemma in_int_neg_short wrap : in_short wrap -> in_int (- wrap).
Proof.
  unfold in_short, in_int, SHRT_MIN, SHRT_MAX, INT_MIN, INT_MAX.
  change (2 ^ 15) with 32768. change (2 ^ 31) with 2147483648. lia.
Qed.

Lemma in_int_margin width wrap :
  in_int width -> wrap < 0 -> - wrap < width -> in_int (width + wrap).
Proof. unfold in_int, INT_MIN, INT_MAX. lia. Qed.

(** The function never leaves the range of [int]: no addition overflows. *)
Lemma wrap_cols_in_int width wrap :
  in_int width -> in_short wrap -> in_int (mutt_window_wrap_cols width wrap).
Proof.
  intros Hw Hs. unfold mutt_window_wrap_cols.
  destruct (wrap <? 0); [destruct (width >? _); [apply to_int_range | done] |].
  destruct (negb _); [destruct (wrap <? width) |]; auto using in_short_in_int.
Qed.

(** C7, as the claim words it, fails: with a negative [wrap] whose margin does
    not fit ([width <= |wrap|]) the code returns the full width, not
    [width - |wrap|].  Here width 5 and wrap -10 give 5, not -5. *)
Lemma C7_wrap_cols_counterexample :
  mutt_window_wrap_cols 5 (-10) <> wrap_cols_spec 5 (-10).
Proof. vm_compute. discriminate. Qed.

(** C7 (amended): for every [int] width and [short] wrap value,
    [mutt_window_wrap_cols] returns the smaller of width and wrap when wrap is
    positive; the width less a right margin of [|wrap|] columns when wrap is
    negative and the width exceeds [|wrap|]; the full width when wrap is
    negative and the width does not exceed [|wrap|]; and the full width when
    wrap is zero. *)
Theorem C7_wrap_cols_cases (width wrap : Z) :
  in_int width -> in_short wrap ->
  (0 < wrap -> mutt_window_wrap_cols width wrap = Z.min width wrap) /\
  (wrap < 0 -> Z.abs wrap < width ->
     mutt_window_wrap_cols width wrap = width - Z.abs wrap) /\
  (wrap < 0 -> width <= Z.abs wrap ->
     mutt_window_wrap_cols width wrap = width) /\
  (wrap = 0 -> mutt_window_wrap_cols width wrap = width).
Proof.
  intros Hw Hs. unfold mutt_window_wrap_cols.
  rewrite (to_int_id (- wrap)) by (by apply in_int_neg_short).
  repeat split; intros.
  - destruct (Z.ltb_spec wrap 0); [lia |].
    destruct (Z.eqb_spec wrap 0); [lia |]. cbn [negb].
    destruct (Z.ltb_spec wrap width); lia.
  - destruct (Z.ltb_spec wrap 0); [| lia].
    destruct (Z.gtb_spec width (- wrap)); [| lia].
    rewrite to_int_id by (apply in_int_margin; [done | lia | lia]). lia.
  - destruct (Z.ltb_spec wrap 0); [| lia].
    destruct (Z.gtb_spec width (- wrap)); [lia | done].
  - subst wrap. reflexivity.
Qed.

Lemma C7_wrap_cols_cases_witness :
  in_int 80 /\ in_short (-10) /\ mutt_window_wrap_cols 80 (-10) = 80 - Z.abs (-10).
Proof.
  assert (Hi : in_int 80) by (vm_compute; split; discriminate).
  assert (Hs : in_short (-10)) by (vm_compute; split; discriminate).
  split; [exact Hi |]. split; [exact Hs |].
  apply (proj1 (proj2 (C7_wrap_cols_cases 80 (-10) Hi Hs))); reflexivity.
Defined.

End WrapCols.

(** ** The flat layout *)

Section FlatFacts.

Import Flat.

Lemma MAX_zero_nonneg a : 0 <= MAX a 0.
Proof. unfold MAX. destruct (Z.ltb_spec a 0); lia. Qed.

Lemma MAX_zero_id a : 0 <= a -> MAX a 0 = a.
Proof. unfold MAX. destruct (Z.ltb_spec a 0); lia. Qed.

(** *** Stepping through the assignments *)

Lemma models_start g wh wi wm ws wb :
  win g Help = Some wh -> win g Index = Some wi -> win g Message = Some wm ->
  win g Status = Some ws -> win g Sidebar = Some wb ->
  models g g (mkFive wh wi wm ws wb) [].
Proof.
  intros HH HI HM HS HB. repeat split.
  - intros p w. destruct p; cbn; intros [= <-]; assumption.
  - by rewrite app_nil_r.
Qed.

Lemma models_win g0 g v l p w :
  models g0 g v l -> get5 p v = Some w -> win g p = Some w.
Proof. intros (_ & H & _) Hp. by apply H. Qed.

Lemma models_settings g0 g v l : models g0 g v l -> same_settings g0 g.
Proof. by intros (H & _). Qed.

Lemma models_assign g0 g v l p f w :
  models g0 g v l -> get5 p v = Some w ->
  exists g', assign p f g = Some g' /\ models g0 g' (set5 p (f w) v) l.
Proof.
  intros (Hs & Hin & Hout & Hl) Hp. unfold assign.
  rewrite (Hin p w Hp). eexists. split; [reflexivity |].
  split; [exact Hs |]. split; [| split; [| exact Hl]].
  - intros q u Hq. destruct p; try discriminate Hp;
      destruct q; try discriminate Hq; cbn in Hq |- *;
      first [exact Hq | apply Hin; exact Hq].
  - intros q Hq. destruct p; try discriminate Hp;
      destruct q; try discriminate Hq; cbn; apply Hout; reflexivity.
Qed.

Lemma models_copy_size g0 g v l src dst s d :
  models g0 g v l -> get5 src v = Some s -> get5 dst v = Some d ->
  models g0 (mutt_window_copy_size src dst g)
    (set5 dst (with_geometry (rows s) (cols s) (row_offset s) (col_offset s) d)
       v) l.
Proof.
  intros (Hs & Hin & Hout & Hl) Hsrc Hdst. unfold mutt_window_copy_size.
  rewrite (Hin src s Hsrc), (Hin dst d Hdst).
  split; [exact Hs |]. split; [| split; [| exact Hl]].
  - intros q u Hq. destruct dst; try discriminate Hdst;
      destruct q; try discriminate Hq; cbn in Hq |- *;
      first [exact Hq | apply Hin; exact Hq].
  - intros q Hq. destruct dst; try discriminate Hdst;
      destruct q; try discriminate Hq; cbn; apply Hout; reflexivity.
Qed.

Lemma models_call g0 g v l c :
  models g0 g v l -> models g0 (call c g) v (l ++ [c]).
Proof.
  intros (Hs & Hin & Hout & Hl). repeat split; try apply Hs; try assumption.
  cbn. rewrite Hl. by rewrite <- List.app_assoc.
Qed.

(** Setters and projections against [with_geometry], as rewrite rules. *)

Create Rewrite HintDb geom.

Lemma set_rows_geom v w :
  set_rows v w = with_geometry v (cols w) (row_offset w) (col_offset w) w.
Proof. reflexivity. Qed.
Lemma set_cols_geom v w :
  set_cols v w = with_geometry (rows w) v (row_offset w) (col_offset w) w.
Proof. reflexivity. Qed.
Lemma set_row_offset_geom v w :
  set_row_offset v w = with_geometry (rows w) (cols w) v (col_offset w) w.
Proof. reflexivity. Qed.
Lemma set_col_offset_geom v w :
  set_col_offset v w = with_geometry (rows w) (cols w) (row_offset w) v w.
Proof. reflexivity. Qed.
Lemma with_geometry_twice r c ro co r' c' ro' co' w :
  with_geometry r c ro co (with_geometry r' c' ro' co' w)
  = with_geometry r c ro co w.
Proof. reflexivity. Qed.
Lemma rows_geom r c ro co w : rows (with_geometry r c ro co w) = r.
Proof. reflexivity. Qed.
Lemma cols_geom r c ro co w : cols (with_geometry r c ro co w) = c.
Proof. reflexivity. Qed.
Lemma row_offset_geom r c ro co w : row_offset (with_geometry r c ro co w) = ro.
Proof. reflexivity. Qed.
Lemma col_offset_geom r c ro co w : col_offset (with_geometry r c ro co w) = co.
Proof. reflexivity. Qed.

#[local] Hint Rewrite set_rows_geom set_cols_geom set_row_offset_geom
  set_col_offset_geom with_geometry_twice rows_geom cols_geom
  row_offset_geom col_offset_geom : geom.

Lemma bind_Some {A B} (x : A) (k : A -> option B) : Some x ≫= k = k x.
Proof. reflexivity. Qed.

(** One statement of the C text at a time: [step] runs the statement at the
    head of the goal against the [models] hypothesis, [settle] brings the
    screen and configuration reads back to the initial state and splits on
    a configuration test that guards a statement. *)

Ltac norm_in H :=
  cbv beta in H;
  cbn [set5 get5 fHelp fIndex fMessage fStatus fSidebar] in H;
  autorewrite with geom in H.

Ltac settings Hst :=
  let S := constr:(models_settings _ _ _ _ Hst) in
  rewrite ?(proj1 S), ?(proj1 (proj2 S)), ?(proj1 (proj2 (proj2 S))),
    ?(proj1 (proj2 (proj2 (proj2 S)))),
    ?(proj1 (proj2 (proj2 (proj2 (proj2 S))))),
    ?(proj1 (proj2 (proj2 (proj2 (proj2 (proj2 S)))))),
    ?(proj1 (proj2 (proj2 (proj2 (proj2 (proj2 (proj2 S)))))));
  cbv beta iota.

Ltac step :=
  lazymatch goal with
  | Hst : models ?g0 ?g ?v ?l |- context [mutt_window_copy_size ?a ?b ?g] =>
      let s := eval cbn [get5 fHelp fIndex fMessage fStatus fSidebar]
               in (get5 a v) in
      let d := eval cbn [get5 fHelp fIndex fMessage fStatus fSidebar]
               in (get5 b v) in
      lazymatch s with
      | Some ?s0 =>
          lazymatch d with
          | Some ?d0 =>
              let Hst' := fresh "Hst" in
              pose proof (models_copy_size g0 g v l a b s0 d0 Hst eq_refl eq_refl)
                as Hst';
              norm_in Hst';
              let g' := fresh "g" in
              set (g' := mutt_window_copy_size a b g) in *;
              clearbody g'; clear Hst
          end
      end
  | Hst : models ?g0 ?g ?v ?l |- context [assign ?p ?f ?g] =>
      let w := eval cbn [get5 fHelp fIndex fMessage fStatus fSidebar]
               in (get5 p v) in
      lazymatch w with
      | Some ?w0 =>
          let g' := fresh "g" in
          let E := fresh "E" in
          let Hst' := fresh "Hst" in
          destruct (models_assign g0 g v l p f w0 Hst eq_refl)
            as (g' & E & Hst');
          rewrite E; clear E Hst; norm_in Hst'; rewrite bind_Some; cbv beta
      end
  | Hst : models ?g0 ?g ?v ?l |- context [win ?g _] =>
      rewrite ?(models_win g0 g v l Help _ Hst eq_refl),
        ?(models_win g0 g v l Index _ Hst eq_refl),
        ?(models_win g0 g v l Message _ Hst eq_refl),
        ?(models_win g0 g v l Status _ Hst eq_refl),
        ?(models_win g0 g v l Sidebar _ Hst eq_refl);
      repeat (rewrite bind_Some; cbv beta)
  end.

Ltac settle :=
  lazymatch goal with H : models _ _ _ _ |- _ => settings H end;
  repeat (rewrite bind_Some; cbv beta);
  autorewrite with geom;
  try lazymatch goal with
      | |- context [(if ?b then _ else _) ≫= _] =>
          lazymatch b with
          | context [mutt_window_copy_size] => fail
          | _ => idtac
          end;
          destruct b eqn:?; repeat (rewrite bind_Some; cbv beta)
      end.

Ltac finish_view :=
  repeat match goal with
         | E : _ = true |- _ => rewrite E; clear E
         | E : _ = false |- _ => rewrite E; clear E
         end;
  cbn [andb negb app] in *; cbv iota;
  lazymatch goal with H : models _ _ _ _ |- _ => exact H end.

(** When curses runs and the five windows exist, [mutt_window_reflow]
    returns, and leaves exactly [reflow_view] and the two redraw requests. *)
Lemma reflow_eval g wh wi wm ws wb :
  OptNoCurses g = false ->
  win g Help = Some wh -> win g Index = Some wi -> win g Message = Some wm ->
  win g Status = Some ws -> win g Sidebar = Some wb ->
  exists g',
    mutt_window_reflow g = Some g' /\
    models g g' (reflow_view g wh wi wm ws wb)
      [mutt_menu_set_current_redraw_full; mutt_menu_set_current_redraw_FLOW].
Proof.
  intros Hn HH HI HM HS HB.
  pose proof (models_start g wh wi wm ws wb HH HI HM HS HB) as Hst.
  unfold mutt_window_reflow. rewrite Hn. cbv zeta.
  repeat (step; settle).
  all: eexists; (split; [reflexivity |]).
  all: match goal with
       | H : models _ _ _ _ |- _ =>
           apply (models_call _ _ _ _ mutt_menu_set_current_redraw_full) in H;
           apply (models_call _ _ _ _ mutt_menu_set_current_redraw_FLOW) in H
       end.
  all: unfold reflow_view, index_rows; finish_view.
Qed.

Lemma message_rows_eval mw_rows g wh wi wm ws wb :
  win g Help = Some wh -> win g Index = Some wi -> win g Message = Some wm ->
  win g Status = Some ws -> win g Sidebar = Some wb ->
  exists g',
    mutt_window_reflow_message_rows mw_rows g = Some g' /\
    models g g' (message_rows_view mw_rows g wh wi wm ws wb)
      [mutt_menu_set_current_redraw_full].
Proof.
  intros HH HI HM HS HB.
  pose proof (models_start g wh wi wm ws wb HH HI HM HS HB) as Hst.
  unfold mutt_window_reflow_message_rows. cbv zeta.
  repeat (step; settle).
  all: eexists; (split; [reflexivity |]).
  all: match goal with
       | H : models _ _ _ _ |- _ =>
           apply (models_call _ _ _ _ mutt_menu_set_current_redraw_full) in H
       end.
  all: unfold message_rows_view; finish_view.
Qed.

(** *** Arithmetic of the layout when the screen is large enough *)

Ltac int_lia :=
  unfold in_int, INT_MIN, INT_MAX in *;
  change (2 ^ 31) with 2147483648 in *; lia.

Lemma index_rows_fits (L : Z) (help : bool) :
  2 + (if help then 1 else 0) <= L <= INT_MAX ->
  index_rows L help = L - 2 - (if help then 1 else 0).
Proof.
  intros HL. unfold index_rows.
  rewrite (to_int_id (L - 1)) by (destruct help; int_lia).
  rewrite (to_int_id (L - 1 - _)) by (destruct help; int_lia).
  rewrite (to_int_id (L - 1 - _ - 1)) by (destruct help; int_lia).
  rewrite MAX_zero_id by (destruct help; int_lia). lia.
Qed.

Lemma overlap_false a b :
  row_offset a + rows a <= row_offset b \/ row_offset b + rows b <= row_offset a
  \/ col_offset a + cols a <= col_offset b
  \/ col_offset b + cols b <= col_offset a
  \/ rows a <= 0 \/ rows b <= 0 \/ cols a <= 0 \/ cols b <= 0 ->
  overlap a b = false.
Proof.
  intros H. unfold overlap. apply andb_false_iff. rewrite !Z.ltb_ge. lia.
Qed.

Lemma index_rows_small (L : Z) (help : bool) :
  0 <= L < 2 + (if help then 1 else 0) -> index_rows L help = 0.
Proof.
  intros HL. unfold index_rows.
  rewrite (to_int_id (L - 1)) by (destruct help; int_lia).
  rewrite (to_int_id (L - 1 - _)) by (destruct help; int_lia).
  rewrite (to_int_id (L - 1 - _ - 1)) by (destruct help; int_lia).
  unfold MAX. destruct (Z.ltb_spec (L - 1 - (if help then 1 else 0) - 1) 0);
    [reflexivity | destruct help; lia].
Qed.

(** C1, as the claim words it, fails.  On a screen of two lines with the help
    line shown, the reflow gives Help, Status and Message one row each and
    clamps Index to none: three rows on a screen of two, with Help and Status
    both on row 0. *)
Lemma C1_reflow_tiling_counterexample :
  exists g',
    mutt_window_reflow (boot 2 80 true false false 20 false) = Some g'
    /\ win_rows g' Help = 1 /\ win_rows g' Status = 1
    /\ win_rows g' Message = 1 /\ win_rows g' Index = 0
    /\ ~ tiles_rows g' /\ win_overlap g' Help Status = true.
Proof.
  eexists. split; [vm_compute; reflexivity |].
  do 4 (split; [vm_compute; reflexivity |]). split.
  - unfold tiles_rows. vm_compute. discriminate.
  - vm_compute. reflexivity.
Qed.

(** C1 (amended): when curses runs, the five windows of the layout exist,
    [LINES] and [COLS] are not negative and a visible sidebar is no wider
    than the screen, [mutt_window_reflow] returns.  When [LINES] is at least
    the two lines of Status and Message plus one for the help line when it
    is shown, the shown windows tile the screen: the rows of Help, Index,
    Status and Message add up to [LINES], the columns of Sidebar and Index
    add up to [COLS], no two shown windows overlap, and every shown window
    has no negative extent and lies within the screen.  When [LINES] is
    smaller than that, Status and Message, and Help when it is shown, still
    have one row each and Index has none: the rows do not add up to
    [LINES]. *)
Theorem C1_reflow_tiles_iff_it_fits (g : Globals) :
  OptNoCurses g = false -> laid_out g ->
  0 <= LINES g <= INT_MAX -> 0 <= COLS g <= INT_MAX ->
  (C_SidebarVisible g = true -> 0 <= C_SidebarWidth g <= COLS g) ->
  exists g',
    mutt_window_reflow g = Some g' /\
    (2 + (if C_Help g then 1 else 0) <= LINES g ->
     tiling g' /\ within_screen g') /\
    (LINES g < 2 + (if C_Help g then 1 else 0) ->
     (exists ws, win g' Status = Some ws /\ rows ws = 1) /\
     (exists wm, win g' Message = Some wm /\ rows wm = 1) /\
     (C_Help g = true -> exists wh, win g' Help = Some wh /\ rows wh = 1) /\
     (exists wi, win g' Index = Some wi /\ rows wi = 0) /\
     ~ tiles_rows g').
Proof.
  intros Hn ([wh HH] & [wi HI] & [wm HM] & [ws HS] & [wb HB]) HL HC HW.
  destruct (reflow_eval g wh wi wm ws wb Hn HH HI HM HS HB)
    as (g' & Hr & (EL & EC & EH & ET & EV & EW & ER & _) & Hin & _ & _).
  exists g'. split; [exact Hr |].
  pose proof (Hin Help _ eq_refl) as GH.
  pose proof (Hin Index _ eq_refl) as GI.
  pose proof (Hin Message _ eq_refl) as GM.
  pose proof (Hin Status _ eq_refl) as GS.
  pose proof (Hin Sidebar _ eq_refl) as GB.
  cbn [reflow_view fHelp fIndex fMessage fStatus fSidebar] in GH, GI, GM, GS, GB.
  clear Hin Hr ET EW ER HH HI HM HS HB. split.
  - intros Hfit.
    assert (HL' : 2 + (if C_Help g then 1 else 0) <= LINES g <= INT_MAX)
      by lia.
    rewrite index_rows_fits in GI, GB by exact HL'.
    rewrite (to_int_id (LINES g - 2)) in GH, GS
      by (destruct (C_Help g); int_lia).
    rewrite (to_int_id (LINES g - 1)) in GM by (destruct (C_Help g); int_lia).
    assert (HW' : C_SidebarVisible g = true ->
                  to_int (COLS g - C_SidebarWidth g)
                  = COLS g - C_SidebarWidth g
                  /\ to_int (0 + C_SidebarWidth g) = C_SidebarWidth g).
    { intros E. specialize (HW E). split; apply to_int_id; int_lia. }
    unfold tiling, within_screen, tiles_rows, tiles_cols, no_overlap, shown,
      win_rows, win_cols, win_overlap.
    rewrite EL, EC, EH, EV. clear EL EC EH EV HL.
    destruct (C_Help g), (C_SidebarVisible g);
      try (destruct (HW' eq_refl) as [W1 W2]; rewrite W1, ?W2 in GI, GB;
           specialize (HW eq_refl));
      clear HW'; rewrite ?GH, ?GI, ?GM, ?GS, ?GB; autorewrite with geom;
      (split; [split; [lia |]; split; [lia |] |]).
    all: try (intros p q Hp Hq Hne; cbn in Hp, Hq;
              repeat match goal with H : _ \/ _ |- _ => destruct H end;
              try contradiction; subst p q; try congruence;
              rewrite ?GH, ?GI, ?GM, ?GS, ?GB; apply overlap_false;
              autorewrite with geom;
              destruct (C_StatusOnTop g), (C_SidebarOnRight g);
              cbn [andb negb]; lia).
    all: intros p Hp; cbn in Hp;
      repeat match goal with H : _ \/ _ |- _ => destruct H end;
      try contradiction; subst p;
      rewrite ?GH, ?GI, ?GM, ?GS, ?GB; (eexists; split; [reflexivity |]);
      autorewrite with geom;
      destruct (C_StatusOnTop g), (C_SidebarOnRight g);
      cbn [andb negb]; lia.
  - intros Hsmall.
    rewrite index_rows_small in GI by lia.
    split; [eexists; split; [exact GS | reflexivity] |].
    split; [eexists; split; [exact GM | reflexivity] |].
    split.
    { intros E. rewrite E in GH. eexists. split; [exact GH | reflexivity]. }
    split; [eexists; split; [exact GI | reflexivity] |].
    unfold tiles_rows, win_rows. rewrite EL, EH, GI, GM, GS.
    destruct (C_Help g); rewrite ?GH; autorewrite with geom; lia.
Qed.

Lemma C1_reflow_tiles_iff_it_fits_witness :
  exists g',
    mutt_window_reflow (boot 24 80 true false true 20 false) = Some g'
    /\ tiling g' /\ within_screen g'.
Proof.
  destruct (C1_reflow_tiles_iff_it_fits (boot 24 80 true false true 20 false))
    as (g' & Hr & Hfit & _).
  - reflexivity.
  - repeat split; vm_compute; eauto.
  - vm_compute. split; discriminate.
  - vm_compute. split; discriminate.
  - intros _. vm_compute. split; discriminate.
  - exists g'. split; [exact Hr |]. apply Hfit. vm_compute. discriminate.
Defined.

(** The reflow gives no geometry to the containers [w1] .. [w6] of
    [mutt_window_init], nor to the pager windows: it leaves them as they
    are. *)
Lemma reflow_leaves_containers g :
  OptNoCurses g = false -> laid_out g ->
  exists g',
    mutt_window_reflow g = Some g' /\
    forall p, In p [W1; W2; W3; W4; W5; W6; Pager; PagerBar] ->
              win g' p = win g p.
Proof.
  intros Hn ([wh HH] & [wi HI] & [wm HM] & [ws HS] & [wb HB]).
  destruct (reflow_eval g wh wi wm ws wb Hn HH HI HM HS HB)
    as (g' & Hr & _ & _ & Hout & _).
  exists g'. split; [exact Hr |]. intros p Hp. apply Hout.
  cbn in Hp. repeat destruct Hp as [<- | Hp]; try reflexivity. contradiction.
Qed.

(** *** The clamp on the Index window *)

(** The rows of the Index window are never negative after a reflow. *)
Lemma reflow_index_rows_nonneg g :
  OptNoCurses g = false -> laid_out g ->
  exists g', mutt_window_reflow g = Some g' /\ 0 <= win_rows g' Index.
Proof.
  intros Hn ([wh HH] & [wi HI] & [wm HM] & [ws HS] & [wb HB]).
  destruct (reflow_eval g wh wi wm ws wb Hn HH HI HM HS HB)
    as (g' & Hr & _ & Hin & _).
  exists g'. split; [exact Hr |]. unfold win_rows.
  rewrite (Hin Index _ eq_refl). cbn. apply MAX_zero_nonneg.
Qed.

(** Nor after the message window was resized. *)
Lemma message_rows_index_rows_nonneg mw_rows g :
  laid_out g ->
  exists g', mutt_window_reflow_message_rows mw_rows g = Some g'
             /\ 0 <= win_rows g' Index.
Proof.
  intros ([wh HH] & [wi HI] & [wm HM] & [ws HS] & [wb HB]).
  destruct (message_rows_eval mw_rows g wh wi wm ws wb HH HI HM HS HB)
    as (g' & Hr & _ & Hin & _).
  exists g'. split; [exact Hr |]. unfold win_rows.
  rewrite (Hin Index _ eq_refl). cbn. apply MAX_zero_nonneg.
Qed.

(** C8, at the failing input: on a screen of ten columns with a visible
    sidebar twenty columns wide, the reflow returns and leaves the Index
    window, created with the Maximise policy beside the Fixed sidebar, with
    minus ten columns. *)
Lemma C8_index_cols_not_clamped :
  exists g' wi wb,
    mutt_window_reflow (boot 24 10 true false true 20 false) = Some g'
    /\ win g' Index = Some wi /\ win g' Sidebar = Some wb
    /\ size wi = MUTT_WIN_SIZE_MAXIMISE /\ size wb = MUTT_WIN_SIZE_FIXED
    /\ cols wb = 20 /\ cols wi = -10 /\ 0 <= rows wi.
Proof.
  do 3 eexists. split; [vm_compute; reflexivity |].
  split; [vm_compute; reflexivity |]. split; [vm_compute; reflexivity |].
  repeat split. vm_compute. discriminate.
Qed.

(** *** The message-rows operation of the flat layout *)

(** [mutt_window_reflow_message_rows] returns when the five windows exist.
    It writes rows and row offsets only: those of [message_rows_view]; the
    columns and everything else of every window stay, windows other than
    the five are untouched, and it asks for one full redraw without
    calling [mutt_window_reflow]. *)
Lemma flat_message_rows_frame mw_rows g :
  laid_out g ->
  exists g',
    mutt_window_reflow_message_rows mw_rows g = Some g' /\
    same_settings g g' /\
    menu_calls g' = menu_calls g ++ [mutt_menu_set_current_redraw_full] /\
    (forall p w, win g p = Some w ->
       exists w', win g' p = Some w' /\ same_but_rows w w') /\
    (forall p, ~ In p [Help; Index; Message; Status; Sidebar] ->
       win g' p = win g p) /\
    (exists wm, win g' Message = Some wm /\ rows wm = mw_rows
                /\ row_offset wm = to_int (LINES g - mw_rows)) /\
    (exists wi, win g Index = Some wi /\
       exists wi', win g' Index = Some wi'
                   /\ row_offset wi' = row_offset wi /\ 0 <= rows wi').
Proof.
  intros ([wh HH] & [wi HI] & [wm HM] & [ws HS] & [wb HB]).
  destruct (message_rows_eval mw_rows g wh wi wm ws wb HH HI HM HS HB)
    as (g' & Hr & Hset & Hin & Hout & Hcalls).
  exists g'. split; [exact Hr |]. split; [exact Hset |].
  split; [exact Hcalls |]. split; [| split; [| split]].
  - intros p w Hp.
    destruct p;
      match goal with
      | |- context [win g' ?q] =>
          first
            [ rewrite (Hout q eq_refl), Hp; eexists; split; [reflexivity |];
              by repeat split
            | rewrite (Hin q _ eq_refl); eexists; (split; [reflexivity |]);
              cbn [message_rows_view fHelp fIndex fMessage fStatus fSidebar];
              try destruct (C_Help g); try destruct (C_SidebarVisible g);
              simplify_eq; by repeat split ]
      end.
  - intros p Hp. apply Hout. destruct p; try reflexivity; exfalso; apply Hp;
      cbn; tauto.
  - rewrite (Hin Message _ eq_refl). eexists. split; [reflexivity |].
    by split.
  - exists wi. split; [exact HI |]. rewrite (Hin Index _ eq_refl). eexists.
    split; [reflexivity |]. split; [reflexivity |]. cbn.
    apply MAX_zero_nonneg.
Qed.

End FlatFacts.

(** ** The window tree *)

Section TreeFacts.

Import Tree.

(** *** Heap steps *)

Lemma modify_Some p f s w :
  heap s !! p = Some w ->
  modify p f s = Some (set_heap (<[p := f w]> (heap s)) s).
Proof. intros H. unfold modify. by rewrite H. Qed.

Lemma modify_inv p f s s' :
  modify p f s = Some s' ->
  exists w, heap s !! p = Some w /\ s' = set_heap (<[p := f w]> (heap s)) s.
Proof.
  unfold modify. destruct (heap s !! p) as [w |] eqn:E; [| discriminate].
  cbn. intros [= <-]. eauto.
Qed.

Lemma set_heap_id s : set_heap (heap s) s = s.
Proof. by destruct s. Qed.

Lemma modify_alter p f s :
  is_Some (heap s !! p) ->
  modify p f s = Some (set_heap (alter f p (heap s)) s).
Proof.
  intros [w H]. unfold modify. rewrite H. cbn. do 2 f_equal.
  rewrite <- (insert_id (heap s) p w H) at 2. by rewrite alter_insert_eq.
Qed.

Lemma is_Some_alter (f : MuttWindow -> MuttWindow) p q
  (h : gmap nat MuttWindow) :
  is_Some (alter f p h !! q) <-> is_Some (h !! q).
Proof.
  rewrite lookup_alter. case_decide; [subst | done]. by rewrite fmap_is_Some.
Qed.

Lemma is_Some_hide_last wc h q :
  is_Some (hide_last wc h !! q) <-> is_Some (h !! q).
Proof.
  unfold hide_last. destruct (TAILQ_LAST wc); [apply is_Some_alter | done].
Qed.

Lemma is_Some_show_last l h q :
  is_Some (show_last l h !! q) <-> is_Some (h !! q).
Proof.
  unfold show_last. destruct (last l); [apply is_Some_alter | done].
Qed.

Lemma remove_first_last (st : list nat) l :
  l ∉ st -> remove_first l (st ++ [l]) = st.
Proof.
  induction st as [| x st IH]; intros Hl; cbn.
  - by rewrite Nat.eqb_refl.
  - apply not_elem_of_cons in Hl as [Hx Hl].
    destruct (Nat.eqb_spec l x); [done |]. by rewrite IH.
Qed.

(** *** mutt_window_new *)

Lemma mutt_window_new_fresh o sz r c s :
  heap s !! (mutt_window_new o sz r c s).1 = None.
Proof. cbn. apply not_elem_of_dom, is_fresh. Qed.

(** C10, as the claim words it, fails: the requested sizes are [int]
    arguments stored in [short] fields, so a request of 40000 rows is not
    what the window holds. *)
Lemma C10_new_window_counterexample :
  req_rows
    (new_window MUTT_WIN_ORIENT_VERTICAL MUTT_WIN_SIZE_FIXED 40000 0)
  <> 40000.
Proof. vm_compute. discriminate. Qed.

(** C10 (amended): for every orientation, size policy and requested rows and
    columns within the range of [short], [mutt_window_new] returns a newly
    allocated window that is visible, stores the given orientation, policy
    and requested sizes, has all current and previous computed geometry
    equal to zero, has no parent and has no children; the windows that
    existed are untouched. *)
Theorem C10_mutt_window_new (o : MuttWindowOrientation) (sz : MuttWindowSize)
  (r c : Z) (s : World) :
  in_short r -> in_short c ->
  let p := (mutt_window_new o sz r c s).1 in
  let s' := (mutt_window_new o sz r c s).2 in
  heap s !! p = None /\
  (forall q, q <> p -> heap s' !! q = heap s !! q) /\
  exists w,
    heap s' !! p = Some w /\
    visible (state w) = true /\ orient w = o /\ size w = sz /\
    req_rows w = r /\ req_cols w = c /\
    rows (state w) = 0 /\ cols (state w) = 0 /\
    row_offset (state w) = 0 /\ col_offset (state w) = 0 /\
    rows (old w) = 0 /\ cols (old w) = 0 /\
    row_offset (old w) = 0 /\ col_offset (old w) = 0 /\
    parent w = None /\ children w = [].
Proof.
  intros Hr Hc p s'. split; [apply mutt_window_new_fresh |]. split.
  - intros q Hq. subst p s'. cbn. by rewrite lookup_insert_ne.
  - exists (new_window o sz r c). subst p s'. cbn.
    rewrite lookup_insert_eq. unfold new_window. cbn.
    rewrite (to_short_id r Hr), (to_short_id c Hc). by repeat split.
Qed.

Lemma C10_mutt_window_new_witness :
  exists w,
    heap (mutt_window_new MUTT_WIN_ORIENT_VERTICAL MUTT_WIN_SIZE_FIXED 1
            MUTT_WIN_SIZE_UNLIMITED (blank true false 0 false)).2
      !! (mutt_window_new MUTT_WIN_ORIENT_VERTICAL MUTT_WIN_SIZE_FIXED 1
            MUTT_WIN_SIZE_UNLIMITED (blank true false 0 false)).1 = Some w
    /\ visible (state w) = true /\ req_rows w = 1 /\ req_cols w = -1
    /\ children w = [].
Proof.
  assert (H1 : in_short 1) by (vm_compute; split; discriminate).
  assert (H2 : in_short MUTT_WIN_SIZE_UNLIMITED)
    by (vm_compute; split; discriminate).
  destruct (C10_mutt_window_new MUTT_WIN_ORIENT_VERTICAL MUTT_WIN_SIZE_FIXED 1
              MUTT_WIN_SIZE_UNLIMITED (blank true false 0 false) H1 H2)
    as (_ & _ & w & Hw & Hv & _ & _ & Hrr & Hrc & H).
  exists w. repeat split; try assumption. apply H.
Defined.


(** *** The dialog stack, one operation *)

(** [dialog_push] returns when the container, the dialog's root and the
    container's last child are allocated, and leaves [push_heap]. *)
Lemma push_eval s d c r wc :
  MuttDialogWindow s = Some c -> heap s !! c = Some wc ->
  root d = Some r -> is_Some (heap s !! r) ->
  (forall l, TAILQ_LAST wc = Some l -> is_Some (heap s !! l)) ->
  dialog_push (Some d) s = Some (set_heap (push_heap c r wc (heap s)) s).
Proof.
  intros Hc Hwc Hr Hwr Hl. unfold dialog_push, push_heap.
  rewrite Hc, Hwc. cbn.
  assert (Hs1 : match TAILQ_LAST wc with
                | Some l => modify l (set_state_visible false) s
                | None => Some s
                end = Some (set_heap (hide_last wc (heap s)) s)).
  { unfold hide_last. destruct (TAILQ_LAST wc) as [l |].
    - apply modify_alter. by apply Hl.
    - by rewrite set_heap_id. }
  rewrite Hs1. cbn. rewrite Hr. cbn. unfold TAILQ_INSERT_TAIL.
  assert (Hr1 : is_Some (hide_last wc (heap s) !! r))
    by (by apply is_Some_hide_last).
  assert (Hc1 : is_Some (hide_last wc (heap s) !! c))
    by (apply is_Some_hide_last; by rewrite Hwc).
  destruct Hr1 as [wr1 Hr1]. cbn. rewrite Hr1. cbn.
  rewrite modify_alter by exact Hc1. cbn.
  rewrite modify_alter by (cbn; apply is_Some_alter; eauto).
  reflexivity.
Qed.

(** [dialog_pop] on a container whose last child is [l]. *)
Lemma pop_eval s c l wc :
  MuttDialogWindow s = Some c -> heap s !! c = Some wc ->
  TAILQ_LAST wc = Some l -> is_Some (heap s !! l) ->
  (forall l', last (remove_first l (children wc)) = Some l' ->
              is_Some (heap s !! l')) ->
  dialog_pop s = Some (set_heap (pop_heap c l wc (heap s)) s).
Proof.
  intros Hc Hwc Hl Hwl Hl'. unfold dialog_pop, pop_heap.
  rewrite Hc, Hwc. cbn. rewrite Hl.
  rewrite modify_alter by exact Hwl. cbn. unfold TAILQ_REMOVE. cbn.
  destruct (proj2 (is_Some_alter (set_state_visible false) l l (heap s)) Hwl)
    as [wl1 Hwl1].
  rewrite Hwl1. cbn.
  rewrite modify_alter by (cbn; apply is_Some_alter; by rewrite Hwc). cbn.
  rewrite lookup_alter_eq, lookup_alter, Hwc.
  assert (Hw2 : exists w2,
            (if decide (l = c) is left _
             then set_state_visible false <$> heap s !! l else Some wc)
            = Some w2 /\ children w2 = children wc).
  { case_decide; [subst l; rewrite Hwc |]; eexists; split; reflexivity. }
  destruct Hw2 as (w2 & -> & Hch). cbn. unfold TAILQ_LAST, show_last. cbn.
  rewrite Hch.
  destruct (last (remove_first l (children wc))) as [l' |] eqn:E.
  - rewrite modify_alter; [reflexivity |]. cbn.
    do 2 apply is_Some_alter. by apply Hl'.
  - reflexivity.
Qed.

Lemma lookup_alter_Some (f : MuttWindow -> MuttWindow) p
  (h : gmap nat MuttWindow) q w :
  h !! q = Some w ->
  alter f p h !! q = Some (if decide (p = q) then f w else w).
Proof.
  intros H. rewrite lookup_alter. case_decide; subst; by rewrite H.
Qed.

(** What [push_heap] holds at an address that was allocated. *)
Lemma push_heap_lookup c r wc h q w :
  h !! q = Some w ->
  push_heap c r wc h !! q =
    Some (let y := if decide (TAILQ_LAST wc = Some q)
                   then set_state_visible false w else w in
          let x := if decide (c = q)
                   then set_children (children y ++ [r]) y else y in
          if decide (r = q) then set_state_visible true x else x).
Proof.
  intros H. unfold push_heap.
  assert (H1 : hide_last wc h !! q =
               Some (if decide (TAILQ_LAST wc = Some q)
                     then set_state_visible false w else w)).
  { unfold hide_last. destruct (TAILQ_LAST wc) as [l |].
    - rewrite (lookup_alter_Some (set_state_visible false) l h q w H).
      repeat case_decide; simplify_eq; reflexivity.
    - rewrite H. by case_decide. }
  rewrite (lookup_alter_Some (set_state_visible true) r _ q _
             (lookup_alter_Some
                (fun w => set_children (children w ++ [r]) w) c _ q _ H1)).
  reflexivity.
Qed.

(** What [pop_heap] holds at an address that was allocated. *)
Lemma pop_heap_lookup c l wc h q w :
  h !! q = Some w ->
  pop_heap c l wc h !! q =
    Some (let y := if decide (l = q) then set_state_visible false w else w in
          let x := if decide (c = q)
                   then set_children (remove_first l (children y)) y else y in
          if decide (last (remove_first l (children wc)) = Some q)
          then set_state_visible true x else x).
Proof.
  intros H. unfold pop_heap, show_last.
  pose proof (lookup_alter_Some
                (fun w => set_children (remove_first l (children w)) w) c _ q _
                (lookup_alter_Some (set_state_visible false) l h q w H)) as H2.
  cbv zeta. destruct (last (remove_first l (children wc))) as [l' |].
  - rewrite (lookup_alter_Some (set_state_visible true) l' _ q _ H2).
    repeat case_decide; simplify_eq; reflexivity.
  - rewrite H2. repeat case_decide; simplify_eq; reflexivity.
Qed.

(** C4: for every state in which the dialog container, the dialog's root
    pane and the container's last child exist, and the root is in no child
    list yet, [dialog_push] returns; afterwards the child that was last in
    the container is invisible, the root is the new last child of the
    container, after the children that were there, and is visible, every
    pane keeps its geometry, the panes other than these three are
    untouched, and nothing outside the heap changes: no reflow is called. *)
Theorem C4_dialog_push (s : World) (d : Dialog) (c r : nat)
  (wc wr : MuttWindow) :
  MuttDialogWindow s = Some c -> heap s !! c = Some wc ->
  root d = Some r -> heap s !! r = Some wr ->
  in_no_list r s ->
  (forall st l, children wc = st ++ [l] -> is_Some (heap s !! l)) ->
  exists s',
    dialog_push (Some d) s = Some s' /\
    s' = set_heap (heap s') s /\ calls s' = calls s /\
    (exists wc', heap s' !! c = Some wc'
                 /\ children wc' = children wc ++ [r]) /\
    (exists wr', heap s' !! r = Some wr' /\ visible (state wr') = true) /\
    (forall st l, children wc = st ++ [l] ->
       l <> r /\
       exists wl', heap s' !! l = Some wl' /\ visible (state wl') = false) /\
    (forall p w, heap s !! p = Some w ->
       exists w', heap s' !! p = Some w' /\ geometry w' = geometry w /\
         ((forall st, children wc <> st ++ [p]) -> p <> c -> p <> r ->
          w' = w)).
Proof.
  intros Hc Hwc Hr Hwr Hfree Hl.
  assert (Hlast : forall l, TAILQ_LAST wc = Some l ->
                            exists st, children wc = st ++ [l]).
  { intros l El. unfold TAILQ_LAST in El.
    destruct (decide (children wc = [])) as [E | E];
      [rewrite E in El; discriminate El |].
    destruct (exists_last E) as (st & l' & E'). exists st.
    rewrite E' in El |- *. rewrite last_snoc in El. by injection El as ->. }
  assert (Hne : forall st l, children wc = st ++ [l] -> l <> r).
  { intros st l E ->. apply (Hfree c wc Hwc). rewrite E.
    apply elem_of_app. right. by left. }
  rewrite (push_eval s d c r wc Hc Hwc Hr (mk_is_Some _ _ Hwr)).
  2: { intros l El. destruct (Hlast l El) as (st & E). by apply (Hl st). }
  eexists. split; [reflexivity |]. cbn [heap set_heap calls].
  split; [reflexivity |]. split; [reflexivity |].
  split; [| split; [| split]].
  - rewrite (push_heap_lookup c r wc _ c wc Hwc). eexists.
    split; [reflexivity |]. cbv zeta. repeat case_decide; try done; reflexivity.
  - rewrite (push_heap_lookup c r wc _ r wr Hwr). eexists.
    split; [reflexivity |]. cbv zeta. repeat case_decide; try done; reflexivity.
  - intros st l E. pose proof (Hne st l E) as Hlr. split; [exact Hlr |].
    destruct (Hl st l E) as [wl Hwl].
    assert (El : TAILQ_LAST wc = Some l)
      by (unfold TAILQ_LAST; rewrite E; apply last_snoc).
    rewrite (push_heap_lookup c r wc _ l wl Hwl). eexists.
    split; [reflexivity |]. cbv zeta.
    repeat case_decide; simplify_eq; try done; reflexivity.
  - intros p w Hp. rewrite (push_heap_lookup c r wc _ p w Hp). eexists.
    split; [reflexivity |]. cbv zeta.
    repeat case_decide; simplify_eq; (split; [reflexivity |]);
      intros Hnl; intros; try congruence;
      match goal with
      | H : TAILQ_LAST wc = Some _ |- _ =>
          destruct (Hlast _ H) as (st & E); by destruct (Hnl st)
      end.
Qed.

Lemma C4_dialog_push_witness :
  exists s',
    dialog_push (Some (mkDialog (Some 5%nat))) stage_pushed = Some s'
    /\ calls s' = calls stage_pushed
    /\ (exists wc', heap s' !! 2%nat = Some wc'
                    /\ children wc' = [4%nat; 5%nat])
    /\ (exists wl', heap s' !! 4%nat = Some wl'
                    /\ visible (state wl') = false)
    /\ (exists wr', heap s' !! 5%nat = Some wr'
                    /\ visible (state wr') = true).
Proof.
  assert (Hc : MuttDialogWindow stage_pushed = Some 2%nat)
    by (vm_compute; reflexivity).
  assert (Hwc : exists wc, heap stage_pushed !! 2%nat = Some wc
                           /\ children wc = [] ++ [4%nat]).
  { assert (E : children <$> heap stage_pushed !! 2%nat = Some [4%nat])
      by (vm_compute; reflexivity).
    destruct (heap stage_pushed !! 2%nat) as [wc |]; [| discriminate E].
    exists wc. split; [reflexivity |]. by injection E. }
  assert (Hwr : is_Some (heap stage_pushed !! 5%nat)) by (vm_compute; eauto).
  assert (Hw4 : is_Some (heap stage_pushed !! 4%nat)) by (vm_compute; eauto).
  assert (Hfree : in_no_list 5 stage_pushed).
  { assert (H : map_Forall (fun _ wq => 5%nat ∉ children wq)
                  (heap stage_pushed))
      by (apply (bool_decide_unpack _); vm_compute; exact I).
    intros q wq Hq. exact (H q wq Hq). }
  destruct Hwc as (wc & Hwc & Hch). destruct Hwr as [wr Hwr].
  destruct (C4_dialog_push stage_pushed (mkDialog (Some 5%nat)) 2 5 wc wr Hc
              Hwc eq_refl Hwr Hfree)
    as (s' & Hs & _ & Hcalls & (wc' & Hwc' & Hch') & Hr & Hlast & _).
  - intros st l E. rewrite Hch in E. apply app_inj_tail in E as [_ <-].
    exact Hw4.
  - exists s'. split; [exact Hs |]. split; [exact Hcalls |].
    split; [exists wc'; split; [exact Hwc' | by rewrite Hch', Hch] |].
    split; [exact (proj2 (Hlast [] 4%nat Hch)) | exact Hr].
Defined.

Lemma pop_noop s :
  (MuttDialogWindow s = None -> dialog_pop s = Some s) /\
  (forall c wc, MuttDialogWindow s = Some c -> heap s !! c = Some wc ->
     children wc = [] -> dialog_pop s = Some s).
Proof.
  split.
  - intros H. unfold dialog_pop. by rewrite H.
  - intros c wc Hc Hwc Hch. unfold dialog_pop, TAILQ_LAST.
    rewrite Hc, Hwc. cbn. by rewrite Hch.
Qed.

(** C5: when the dialog container is absent, or exists and has no child,
    [dialog_pop] returns the state unchanged.  When it has children (none
    of them twice) and its last two children are allocated, [dialog_pop]
    returns: the last child is out of the container's child sequence, is
    still allocated and is invisible; the new last child, if there is one,
    is visible; every pane keeps its geometry, the panes other than these
    three are untouched, and nothing outside the heap changes. *)
Theorem C5_dialog_pop (s : World) :
  (MuttDialogWindow s = None -> dialog_pop s = Some s) /\
  (forall c wc, MuttDialogWindow s = Some c -> heap s !! c = Some wc ->
     children wc = [] -> dialog_pop s = Some s) /\
  (forall c wc st l wl,
     MuttDialogWindow s = Some c -> heap s !! c = Some wc ->
     children wc = st ++ [l] -> NoDup (children wc) ->
     heap s !! l = Some wl ->
     (forall l', last st = Some l' -> is_Some (heap s !! l')) ->
     exists s',
       dialog_pop s = Some s' /\
       s' = set_heap (heap s') s /\ calls s' = calls s /\
       (exists wc', heap s' !! c = Some wc' /\ children wc' = st) /\
       (exists wl', heap s' !! l = Some wl'
                    /\ visible (state wl') = false) /\
       (forall l', last st = Some l' ->
          exists w', heap s' !! l' = Some w'
                     /\ visible (state w') = true) /\
       (forall p w, heap s !! p = Some w ->
          exists w', heap s' !! p = Some w' /\ geometry w' = geometry w /\
            (p <> l -> p <> c -> last st <> Some p -> w' = w))).
Proof.
  split; [| split].
  - intros H. unfold dialog_pop. by rewrite H.
  - intros c wc Hc Hwc Hch. unfold dialog_pop, TAILQ_LAST.
    rewrite Hc, Hwc. cbn. by rewrite Hch.
  - intros c wc st l wl Hc Hwc Hch Hnd Hwl Hl'.
    assert (Hlast : TAILQ_LAST wc = Some l)
      by (unfold TAILQ_LAST; rewrite Hch; apply last_snoc).
    assert (Hnin : l ∉ st).
    { rewrite Hch in Hnd. apply NoDup_app in Hnd as (_ & Hd & _).
      intros Hin. apply (Hd l Hin). by left. }
    assert (Hrm : remove_first l (children wc) = st)
      by (rewrite Hch; by apply remove_first_last).
    assert (Hne : last st <> Some l).
    { intros E. apply Hnin. by apply last_Some_elem_of. }
    rewrite (pop_eval s c l wc Hc Hwc Hlast (mk_is_Some _ _ Hwl))
      by (rewrite Hrm; exact Hl').
    eexists. split; [reflexivity |]. cbn [heap set_heap calls].
    split; [reflexivity |]. split; [reflexivity |].
    split; [| split; [| split]].
    + rewrite (pop_heap_lookup c l wc _ c wc Hwc). eexists.
      split; [reflexivity |]. cbv zeta. rewrite Hrm.
      repeat case_decide; simplify_eq; cbn; try done.
    + rewrite (pop_heap_lookup c l wc _ l wl Hwl). eexists.
      split; [reflexivity |]. cbv zeta. rewrite Hrm.
      repeat case_decide; simplify_eq; cbn; try done.
    + intros l' El'. destruct (Hl' l' El') as [w' Hw'].
      rewrite (pop_heap_lookup c l wc _ l' w' Hw'). eexists.
      split; [reflexivity |]. cbv zeta. rewrite Hrm.
      repeat case_decide; simplify_eq; cbn; try done.
    + intros p w Hp. rewrite (pop_heap_lookup c l wc _ p w Hp). eexists.
      split; [reflexivity |]. cbv zeta. rewrite Hrm.
      repeat case_decide; simplify_eq; (split; [reflexivity |]);
        intros; congruence.
Qed.

Lemma C5_dialog_pop_witness :
  exists s',
    dialog_pop stage3 = Some s'
    /\ (exists wc', heap s' !! 2%nat = Some wc' /\ children wc' = [4%nat])
    /\ (exists wl', heap s' !! 5%nat = Some wl'
                     /\ visible (state wl') = false).
Proof.
  assert (Hc : MuttDialogWindow stage3 = Some 2%nat)
    by (vm_compute; reflexivity).
  assert (Hwc : exists wc, heap stage3 !! 2%nat = Some wc
                           /\ children wc = [4%nat] ++ [5%nat]).
  { assert (E : children <$> heap stage3 !! 2%nat = Some [4%nat; 5%nat])
      by (vm_compute; reflexivity).
    destruct (heap stage3 !! 2%nat) as [wc |]; [| discriminate E].
    exists wc. split; [reflexivity |]. by injection E. }
  assert (Hwl : is_Some (heap stage3 !! 5%nat)) by (vm_compute; eauto).
  assert (Hw4 : is_Some (heap stage3 !! 4%nat)) by (vm_compute; eauto).
  destruct Hwc as (wc & Hwc & Hch). destruct Hwl as [wl Hwl].
  destruct (proj2 (proj2 (C5_dialog_pop stage3)) 2%nat wc [4%nat] 5%nat wl
              Hc Hwc Hch)
    as (s' & Hs & _ & _ & Hcc & Hl & _).
  - rewrite Hch. apply (bool_decide_unpack _). vm_compute. exact I.
  - exact Hwl.
  - intros l' [= <-]. exact Hw4.
  - exists s'. auto.
Defined.

(** *** The dialog stack, sequences of operations *)

Lemma is_Some_push_heap c r wc h q :
  is_Some (push_heap c r wc h !! q) <-> is_Some (h !! q).
Proof.
  unfold push_heap. by rewrite !is_Some_alter, is_Some_hide_last.
Qed.

Lemma is_Some_pop_heap c l wc h q :
  is_Some (pop_heap c l wc h !! q) <-> is_Some (h !! q).
Proof.
  unfold pop_heap. by rewrite is_Some_show_last, !is_Some_alter.
Qed.

(** A push of a fresh, allocated root keeps the stack on screen. *)
Lemma push_on_screen c st s d r :
  on_screen c st s -> root d = Some r -> r <> c -> r ∉ st ->
  is_Some (heap s !! r) ->
  exists s', dialog_push (Some d) s = Some s'
             /\ on_screen c (st ++ [r]) s'
             /\ (forall q, is_Some (heap s' !! q) <-> is_Some (heap s !! q)).
Proof.
  intros (Hc & (wc & Hwc & Hch) & Hnd & Hcn & Hvis) Hr Hrc Hrn [wr Hwr].
  assert (Hlast : forall l, TAILQ_LAST wc = Some l -> l ∈ st).
  { intros l E. unfold TAILQ_LAST in E. rewrite Hch in E.
    by apply last_Some_elem_of. }
  rewrite (push_eval s d c r wc Hc Hwc Hr (mk_is_Some _ _ Hwr)).
  2: { intros l E. destruct (Hvis l (Hlast l E)) as (w & Hw & _). eauto. }
  eexists. split; [reflexivity |]. split.
  2: { intros q. cbn [heap set_heap]. apply is_Some_push_heap. }
  split; [exact Hc |]. cbn [heap set_heap]. split; [| split; [| split]].
  - rewrite (push_heap_lookup c r wc _ c wc Hwc). eexists.
    split; [reflexivity |]. cbv zeta.
    repeat case_decide; simplify_eq; cbn; try done; try (by rewrite Hch);
      exfalso; apply Hcn; eauto.
  - apply NoDup_app. split; [exact Hnd |]. split; [| apply NoDup_singleton].
    intros x Hx Hx'. apply list_elem_of_singleton in Hx'. by subst.
  - intros Hin. apply elem_of_app in Hin as [Hin | Hin]; [done |].
    apply list_elem_of_singleton in Hin. by subst.
  - intros p Hp. rewrite last_snoc.
    apply elem_of_app in Hp as [Hp | Hp].
    + destruct (Hvis p Hp) as (w & Hw & Hv).
      rewrite (push_heap_lookup c r wc _ p w Hw). eexists.
      split; [reflexivity |]. cbv zeta. unfold TAILQ_LAST. rewrite Hch.
      assert (p <> r) by (intros ->; done).
      assert (p <> c) by (intros ->; done).
      repeat case_decide; simplify_eq; cbn; split; try congruence.
      intros Hv'. apply Hv in Hv'. congruence.
    + apply list_elem_of_singleton in Hp. subst p.
      rewrite (push_heap_lookup c r wc _ r wr Hwr). eexists.
      split; [reflexivity |]. cbv zeta.
      repeat case_decide; simplify_eq; cbn; done.
Qed.

(** A pop keeps the stack, less its top, on screen. *)
Lemma pop_on_screen c st s :
  on_screen c st s ->
  exists s', dialog_pop s = Some s'
             /\ on_screen c (removelast st) s'
             /\ (forall q, is_Some (heap s' !! q) <-> is_Some (heap s !! q)).
Proof.
  intros (Hc & (wc & Hwc & Hch) & Hnd & Hcn & Hvis).
  destruct (decide (st = [])) as [-> | Hne].
  - exists s. split.
    + by apply (proj2 (pop_noop s) c wc).
    + split; [| done]. cbn. repeat split; eauto.
  - destruct (exists_last Hne) as (st' & l & ->).
    rewrite removelast_last.
    assert (Hlast : TAILQ_LAST wc = Some l)
      by (unfold TAILQ_LAST; rewrite Hch; apply last_snoc).
    apply NoDup_app in Hnd as (Hnd' & Hd & _).
    assert (Hnin : l ∉ st') by (intros Hin; apply (Hd l Hin); by left).
    assert (Hrm : remove_first l (children wc) = st')
      by (rewrite Hch; by apply remove_first_last).
    destruct (Hvis l) as (wl & Hwl & _); [apply elem_of_app; right; by left |].
    rewrite (pop_eval s c l wc Hc Hwc Hlast (mk_is_Some _ _ Hwl)).
    2: { rewrite Hrm. intros l' E. apply last_Some_elem_of in E.
         destruct (Hvis l') as (w & Hw & _); [apply elem_of_app; by left |].
         eauto. }
    eexists. split; [reflexivity |]. split.
    2: { intros q. cbn [heap set_heap]. apply is_Some_pop_heap. }
    assert (Hcn' : c ∉ st') by (intros Hin; apply Hcn, elem_of_app; by left).
    assert (Hcl : c <> l) by (intros ->; apply Hcn, elem_of_app; right; by left).
    split; [exact Hc |]. cbn [heap set_heap]. split; [| split; [| split]].
    + rewrite (pop_heap_lookup c l wc _ c wc Hwc). eexists.
      split; [reflexivity |]. cbv zeta. rewrite Hrm.
      repeat case_decide; simplify_eq; cbn; try done;
        exfalso; apply Hcn'; by apply last_Some_elem_of.
    + exact Hnd'.
    + exact Hcn'.
    + intros p Hp. destruct (Hvis p) as (w & Hw & Hv);
        [apply elem_of_app; by left |].
      rewrite (pop_heap_lookup c l wc _ p w Hw). eexists.
      split; [reflexivity |]. cbv zeta. rewrite Hrm.
      assert (p <> l) by (intros ->; done).
      assert (p <> c) by (intros ->; done).
      rewrite last_snoc in Hv.
      repeat case_decide; simplify_eq; cbn; split; try congruence.
      intros Hv'. apply Hv in Hv'. congruence.
Qed.

Lemma run_on_screen c h0 ops :
  forall st s,
    on_screen c st s ->
    (forall q, is_Some (h0 !! q) -> is_Some (heap s !! q)) ->
    pushes_ok h0 c st ops ->
    exists s', run ops s = Some s'
               /\ on_screen c (foldl stack_step st ops) s'.
Proof.
  induction ops as [| o ops IH]; intros st s Hon Hal Hok.
  - exists s. by split.
  - destruct o as [d |]; cbn [run step pushes_ok foldl stack_step] in *.
    + destruct Hok as (r & Hr & Hrc & Hrn & Hra & Hok).
      destruct (push_on_screen c st s d r Hon Hr Hrc Hrn (Hal r Hra))
        as (s1 & -> & Hon1 & Hdom).
      rewrite Hr. cbn. apply IH; [exact Hon1 | | exact Hok].
      intros q Hq. by apply Hdom, Hal.
    + destruct (pop_on_screen c st s Hon) as (s1 & -> & Hon1 & Hdom).
      cbn. apply IH; [exact Hon1 | | exact Hok].
      intros q Hq. by apply Hdom, Hal.
Qed.

(** C2: start from a state whose dialog container exists and has no child,
    and run any finite sequence of [dialog_push] and [dialog_pop] in which
    every push is given a dialog whose root is an allocated window, is not
    the container and is not in the container at that moment.  Every
    operation returns, and at the end the container's children are the
    dialogs pushed and not yet popped, oldest first; a child that is visible
    is the last of them, the most recently pushed one still in the
    container; so at most one child is visible. *)
Theorem C2_dialog_stack_invariant (s0 : World) (c : nat) (wc : MuttWindow)
  (ops : list Op) :
  MuttDialogWindow s0 = Some c -> heap s0 !! c = Some wc ->
  children wc = [] -> pushes_ok (heap s0) c [] ops ->
  exists s wc',
    run ops s0 = Some s /\
    heap s !! c = Some wc' /\ children wc' = stack_of ops /\
    (forall p w, p ∈ children wc' -> heap s !! p = Some w ->
       visible (state w) = true -> last (stack_of ops) = Some p) /\
    (forall p q wp wq,
       p ∈ children wc' -> q ∈ children wc' ->
       heap s !! p = Some wp -> heap s !! q = Some wq ->
       visible (state wp) = true -> visible (state wq) = true -> p = q).
Proof.
  intros Hc Hwc Hch Hok.
  assert (Hon : on_screen c [] s0).
  { split; [exact Hc |]. split; [eauto |]. split; [constructor |].
    split; [apply not_elem_of_nil |]. intros p Hp. by apply elem_of_nil in Hp. }
  destruct (run_on_screen c (heap s0) ops [] s0 Hon (fun q H => H) Hok)
    as (s & Hrun & _ & (wc' & Hwc' & Hch') & _ & _ & Hvis).
  fold (stack_of ops) in Hch', Hvis.
  exists s, wc'. split; [exact Hrun |]. split; [exact Hwc' |].
  split; [exact Hch' |].
  assert (Hone : forall p w, p ∈ children wc' -> heap s !! p = Some w ->
            visible (state w) = true -> last (stack_of ops) = Some p).
  { intros p w Hp Hw Hv. rewrite Hch' in Hp.
    destruct (Hvis p Hp) as (w' & Hw' & Hiff).
    rewrite Hw in Hw'. injection Hw' as <-. by apply Hiff. }
  split; [exact Hone |].
  intros p q wp wq Hp Hq Hwp Hwq Hvp Hvq.
  pose proof (Hone p wp Hp Hwp Hvp) as E1.
  pose proof (Hone q wq Hq Hwq Hvq) as E2. congruence.
Qed.

Lemma C2_dialog_stack_invariant_witness :
  exists s wc',
    run [Push (mkDialog (Some 4%nat)); Push (mkDialog (Some 5%nat)); Pop;
         Push (mkDialog (Some 5%nat)); Pop] stage2 = Some s
    /\ heap s !! 2%nat = Some wc' /\ children wc' = [4%nat].
Proof.
  assert (Hc : MuttDialogWindow stage2 = Some 2%nat)
    by (vm_compute; reflexivity).
  assert (Hwc : exists wc, heap stage2 !! 2%nat = Some wc /\ children wc = []).
  { assert (E : children <$> heap stage2 !! 2%nat = Some [])
      by (vm_compute; reflexivity).
    destruct (heap stage2 !! 2%nat) as [wc |]; [| discriminate E].
    exists wc. split; [reflexivity |]. by injection E. }
  assert (H4 : is_Some (heap stage2 !! 4%nat)) by (vm_compute; eauto).
  assert (H5 : is_Some (heap stage2 !! 5%nat)) by (vm_compute; eauto).
  destruct Hwc as (wc & Hwc & Hch).
  destruct (C2_dialog_stack_invariant stage2 2%nat wc
              [Push (mkDialog (Some 4%nat)); Push (mkDialog (Some 5%nat)); Pop;
               Push (mkDialog (Some 5%nat)); Pop] Hc Hwc Hch)
    as (s & wc' & Hrun & Hwc' & Hch' & _).
  - cbn [pushes_ok root app removelast].
    exists 4%nat. repeat split; [lia | apply not_elem_of_nil | exact H4 |].
    exists 5%nat. repeat split; [lia | | exact H5 |].
    { rewrite list_elem_of_singleton. lia. }
    exists 5%nat. repeat split; [lia | | exact H5].
    rewrite list_elem_of_singleton. lia.
  - exists s, wc'. repeat split; assumption.
Defined.

(** *** Operations that write the heap only *)

Lemma heap_only_refl s : heap_only s s.
Proof. unfold heap_only. by rewrite set_heap_id. Qed.

Lemma heap_only_trans s1 s2 s3 :
  heap_only s1 s2 -> heap_only s2 s3 -> heap_only s1 s3.
Proof. unfold heap_only. intros -> ->. reflexivity. Qed.

Lemma modify_heap_only p f s s' : modify p f s = Some s' -> heap_only s s'.
Proof. intros H. apply modify_inv in H as (w & _ & ->). reflexivity. Qed.

Lemma TAILQ_REMOVE_heap_only h e s s' :
  TAILQ_REMOVE h e s = Some s' -> heap_only s s'.
Proof.
  unfold TAILQ_REMOVE. destruct (heap s !! e); [cbn | discriminate].
  apply modify_heap_only.
Qed.

Lemma TAILQ_INSERT_TAIL_heap_only h e s s' :
  TAILQ_INSERT_TAIL h e s = Some s' -> heap_only s s'.
Proof.
  unfold TAILQ_INSERT_TAIL. destruct (heap s !! e); [cbn | discriminate].
  apply modify_heap_only.
Qed.

Lemma swap_first_heap_only h a s s' :
  swap_first h a s = Some s' -> heap_only s s'.
Proof.
  unfold swap_first. destruct (heap s !! h) as [w |]; [cbn | discriminate].
  destruct (_ || _).
  - destruct (TAILQ_FIRST w) as [f |]; [cbn | discriminate].
    destruct (TAILQ_REMOVE h f s) as [s1 |] eqn:E1; [cbn | discriminate].
    intros E2. eapply heap_only_trans.
    + eapply TAILQ_REMOVE_heap_only, E1.
    + eapply TAILQ_INSERT_TAIL_heap_only, E2.
  - intros [= <-]. apply heap_only_refl.
Qed.

Lemma heap_only_fields s s' :
  heap_only s s' ->
  RootWindow s' = RootWindow s /\ MuttIndexWindow s' = MuttIndexWindow s
  /\ MuttPagerWindow s' = MuttPagerWindow s
  /\ C_PagerIndexLines s' = C_PagerIndexLines s
  /\ OptNoCurses s' = OptNoCurses s /\ calls s' = calls s.
Proof. intros ->. by repeat split. Qed.

(** Walks down a sequence of statements that returned: names each
    intermediate state and keeps the fact that the heap only was written
    since the start. *)
Ltac walk H :=
  repeat lazymatch type of H with
         | (?m ≫= _) = Some _ =>
             let E := fresh "E" in
             destruct m eqn:E;
             [cbn [mbind option_bind] in H | discriminate H];
             try (first [ apply modify_heap_only in E
                        | apply swap_first_heap_only in E ];
                  match goal with
                  | Hc : heap_only ?s0 ?a, E' : heap_only ?a ?b |- _ =>
                      pose proof (heap_only_trans _ _ _ Hc E'); clear Hc E'
                  end)
         end.

Ltac walk_end H :=
  first [ injection H as <-; assumption
        | apply modify_heap_only in H;
          match goal with
          | Hc : heap_only ?s0 ?a, E' : heap_only ?a ?b |- _ =>
              exact (heap_only_trans _ _ _ Hc E')
          end ].

Lemma mutt_window_reflow_prep_heap_only s s' :
  mutt_window_reflow_prep s = Some s' -> heap_only s s'.
Proof.
  unfold mutt_window_reflow_prep. intros H.
  pose proof (heap_only_refl s) as Hc.
  walk H.
  repeat match type of H with
         | match ?o with Some _ => _ | None => _ end = Some _ =>
             destruct o; [| walk_end H]
         end.
  walk H.
  match type of H with (if ?b then _ else _) = Some _ => destruct b end;
    walk H; walk_end H.
Qed.

(** *** Reflow triggers *)

Section TreeReflow.

Variable E : Extern.

Lemma win_dump_inv s s' : win_dump s = Some s' -> s' = s.
Proof.
  unfold win_dump. destruct (RootWindow s); [| discriminate].
  cbn [mbind option_bind]. destruct (dump _ _ _); [| discriminate].
  cbn [mbind option_bind]. congruence.
Qed.

(** A reflow that runs and returns has called the reflow engine on its
    target, then asked for the two redraws, and logged nothing else. *)
Lemma reflow_calls win s s' :
  OptNoCurses s = false ->
  mutt_window_reflow E win s = Some s' ->
  calls s' =
    calls s ++ [call_window_reflow
                  (match win with Some p => Some p | None => RootWindow s end);
                call_redraw_full; call_redraw_FLOW].
Proof.
  intros Hn H. unfold mutt_window_reflow in H. rewrite Hn in H.
  destruct (mutt_window_reflow_prep s) as [s1 |] eqn:Ep; [| discriminate H].
  cbn [mbind option_bind] in H. cbv zeta in H.
  destruct (heap_only_fields _ _ (mutt_window_reflow_prep_heap_only _ _ Ep))
    as (ER & _ & _ & _ & _ & EC).
  apply win_dump_inv in H. subst s'. cbn [calls log set_heap].
  rewrite EC, ER. by rewrite <- !List.app_assoc.
Qed.

(** Given no window, [mutt_window_reflow] reflows the root window. *)
Lemma reflow_null s :
  mutt_window_reflow E None s = mutt_window_reflow E (RootWindow s) s.
Proof.
  unfold mutt_window_reflow. destruct (OptNoCurses s); [reflexivity |].
  destruct (mutt_window_reflow_prep s) as [s1 |] eqn:Ep; [| reflexivity].
  cbn [mbind option_bind].
  destruct (heap_only_fields _ _ (mutt_window_reflow_prep_heap_only _ _ Ep))
    as (ER & _).
  rewrite <- ER. by destruct (RootWindow s1).
Qed.



(** C9 (amended): given a null window, [mutt_window_add_child],
    [mutt_window_free], [mutt_winlist_free], [mutt_window_copy_size] and
    [dialog_push] return with the state unchanged; so do [dialog_push] and
    [dialog_pop] when the dialog container is absent and
    [mutt_window_set_root] when the root window is absent.
    [mutt_window_reflow] given a null window is no no-op: it reflows the
    root window. *)
Theorem C9_null_arguments (s : World) :
  (forall child, mutt_window_add_child None child s = Some s) /\
  (forall parent, mutt_window_add_child parent None s = Some s) /\
  mutt_window_free None s = Some s /\
  mutt_window_free (Some None) s = Some s /\
  (forall fuel, mutt_winlist_free fuel None s = Some s) /\
  (forall dst, mutt_window_copy_size None dst s = Some s) /\
  (forall src, mutt_window_copy_size src None s = Some s) /\
  dialog_push None s = Some s /\
  (MuttDialogWindow s = None -> forall dlg, dialog_push dlg s = Some s) /\
  (MuttDialogWindow s = None -> dialog_pop s = Some s) /\
  (RootWindow s = None ->
   forall rows cols, mutt_window_set_root E rows cols s = Some s) /\
  mutt_window_reflow E None s = mutt_window_reflow E (RootWindow s) s.
Proof.
  repeat split; try reflexivity.
  - by intros [].
  - by intros [].
  - by intros [].
  - intros H [d |]; unfold dialog_push; by rewrite ?H.
  - intros H. by apply pop_noop.
  - intros H rows cols. unfold mutt_window_set_root. by rewrite H.
  - apply reflow_null.
Qed.

(** The message-rows operation of the tree variant: when curses runs and it
    returns, it has run [mutt_window_reflow] on the parent of the Message
    window (on the root window when that parent is null), calling the reflow
    engine there, and then asked for one more full redraw. *)
Lemma tree_message_rows_calls mw_rows s s' m wm :
  OptNoCurses s = false ->
  MuttMessageWindow s = Some m -> heap s !! m = Some wm ->
  mutt_window_reflow_message_rows E mw_rows s = Some s' ->
  calls s' =
    calls s ++ [call_window_reflow
                  (match parent wm with
                   | Some p => Some p
                   | None => RootWindow s
                   end);
                call_redraw_full; call_redraw_FLOW; call_redraw_full].
Proof.
  intros Hn Hm Hwm H. unfold mutt_window_reflow_message_rows in H.
  rewrite Hm in H. cbn [mbind option_bind] in H.
  rewrite (modify_Some _ _ _ _ Hwm) in H. cbn [mbind option_bind] in H.
  cbn [heap set_heap] in H. rewrite lookup_insert_eq in H.
  cbn [mbind option_bind parent set_req_rows] in H.
  destruct (mutt_window_reflow E (parent wm) _) as [s1 |] eqn:Er;
    [| discriminate H].
  cbn [mbind option_bind] in H. injection H as <-.
  apply reflow_calls in Er; [| exact Hn]. cbn [calls log]. rewrite Er.
  cbn [calls set_heap RootWindow]. by rewrite <- !List.app_assoc.
Qed.

End TreeReflow.

(** C9, as the claim words it, fails: [mutt_window_reflow] given a null
    window does not leave the state as it is (it reflows the root window and
    asks for redraws), and [mutt_window_move] given a null window
    dereferences it. *)
Lemma C9_null_counterexample :
  mutt_window_reflow idle None stage <> Some stage
  /\ mutt_window_move idle None 0 0 stage = None.
Proof.
  split; [| vm_compute; reflexivity]. intros H.
  apply (reflow_calls idle) in H; [| vm_compute; reflexivity].
  apply (f_equal (@length _)) in H. rewrite length_app in H.
  cbn [length] in H. lia.
Qed.

Lemma C9_null_arguments_witness :
  dialog_pop (blank true false 0 false) = Some (blank true false 0 false).
Proof.
  apply (proj1 (proj2 (proj2 (proj2 (proj2 (proj2 (proj2 (proj2 (proj2
           (proj2 (C9_null_arguments idle (blank true false 0 false)))))))))))).
  reflexivity.
Defined.


End TreeFacts.

(** ** The message-rows operation in the two variants *)

Section MessageRows.

(** C3, at the failing input.  In the tree variant, after
    [mutt_window_init] with curses running, resizing the message window to
    three rows stores the request in the message window and runs
    [mutt_window_reflow] on its parent, the root window (address 0): the
    reflow engine is called on the root and [REDRAW_FLOW] is requested,
    which the comment in the function says it does not do.  This is no
    accident of the input: whatever the engine and the state, the function
    hands over to [mutt_window_reflow] on the parent of the message window
    with the request stored, and when curses runs and it returns, the
    engine was called there and [REDRAW_FLOW] requested.  The flat variant
    of the function writes the rows of the message window itself and
    requests the full redraw only. *)
Theorem C3_message_rows_runs_a_reflow (E : Tree.Extern) (mw_rows : Z) :
  (exists s' wm,
     Tree.RootWindow Tree.stage = Some 0%nat
     /\ Tree.MuttMessageWindow Tree.stage = Some 3%nat
     /\ Tree.OptNoCurses Tree.stage = false
     /\ Tree.calls Tree.stage = []
     /\ Tree.mutt_window_reflow_message_rows Tree.idle 3 Tree.stage = Some s'
     /\ Tree.calls s' =
          [Tree.call_window_reflow (Some 0%nat); Tree.call_redraw_full;
           Tree.call_redraw_FLOW; Tree.call_redraw_full]
     /\ Tree.heap s' !! 3%nat = Some wm /\ Tree.req_rows wm = 3) /\
  (forall s m wm,
     Tree.MuttMessageWindow s = Some m -> Tree.heap s !! m = Some wm ->
     Tree.mutt_window_reflow_message_rows E mw_rows s =
       (s1 ← Tree.mutt_window_reflow E (Tree.parent wm)
               (Tree.set_heap
                  (<[m := Tree.set_req_rows (to_short mw_rows) wm]>
                     (Tree.heap s)) s);
        Some (Tree.log Tree.call_redraw_full s1))
     /\ (forall s',
           Tree.OptNoCurses s = false ->
           Tree.mutt_window_reflow_message_rows E mw_rows s = Some s' ->
           Tree.calls s' =
             Tree.calls s ++
             [Tree.call_window_reflow
                (match Tree.parent wm with
                 | Some p => Some p
                 | None => Tree.RootWindow s
                 end);
              Tree.call_redraw_full; Tree.call_redraw_FLOW;
              Tree.call_redraw_full])) /\
  (forall g,
     Flat.laid_out g ->
     exists g' wm,
       Flat.mutt_window_reflow_message_rows mw_rows g = Some g'
       /\ Flat.menu_calls g' =
            Flat.menu_calls g ++ [Flat.mutt_menu_set_current_redraw_full]
       /\ Flat.win g' Flat.Message = Some wm /\ Flat.rows wm = mw_rows).
Proof.
  split; [| split].
  - do 2 eexists. do 4 (split; [vm_compute; reflexivity |]).
    split; [vm_compute; reflexivity |].
    split; [vm_compute; reflexivity |].
    split; [vm_compute; reflexivity | reflexivity].
  - intros s m wm Hm Hwm. split.
    + unfold Tree.mutt_window_reflow_message_rows. rewrite Hm.
      cbn [mbind option_bind].
      rewrite (modify_Some _ _ _ _ Hwm). cbn [mbind option_bind].
      cbn [Tree.heap Tree.set_heap]. rewrite lookup_insert_eq.
      reflexivity.
    + intros s' Hn Hs'. by apply (tree_message_rows_calls E mw_rows s s' m wm).
  - intros g Hg.
    destruct (flat_message_rows_frame mw_rows g Hg)
      as (g' & Hr & _ & Hcalls & _ & _ & (wm & Hwm & Hrows & _) & _).
    exists g', wm. by repeat split.
Qed.

Lemma C3_message_rows_runs_a_reflow_witness :
  exists s',
    Tree.mutt_window_reflow_message_rows Tree.idle 3 Tree.stage = Some s'
    /\ Tree.calls s' =
         Tree.calls Tree.stage ++
         [Tree.call_window_reflow (Some 0%nat); Tree.call_redraw_full;
          Tree.call_redraw_FLOW; Tree.call_redraw_full].
Proof.
  assert (Hm : Tree.MuttMessageWindow Tree.stage = Some 3%nat)
    by (vm_compute; reflexivity).
  assert (Hw : exists wm, Tree.heap Tree.stage !! 3%nat = Some wm
                          /\ Tree.parent wm = Some 0%nat).
  { assert (E : Tree.parent <$> Tree.heap Tree.stage !! 3%nat
                = Some (Some 0%nat)) by (vm_compute; reflexivity).
    destruct (Tree.heap Tree.stage !! 3%nat) as [wm |]; [| discriminate E].
    exists wm. split; [reflexivity |]. by injection E. }
  destruct Hw as (wm & Hwm & Hp).
  assert (Hs : is_Some
                 (Tree.mutt_window_reflow_message_rows Tree.idle 3 Tree.stage))
    by (vm_compute; eauto).
  destruct Hs as [s' Hs]. exists s'. split; [exact Hs |].
  rewrite (proj2 (proj1 (proj2 (C3_message_rows_runs_a_reflow Tree.idle 3))
                    Tree.stage 3%nat wm Hm Hwm) s' eq_refl Hs).
  by rewrite Hp.
Defined.

End MessageRows.

(** ** More on machine integers *)

Section CIntMore.

(** [to_int] is a reduction modulo [2 ^ 32]. *)
Lemma to_int_shift z k : to_int (z + k * 2 ^ 32) = to_int z.
Proof.
  unfold to_int, wrap. change (2 ^ (32 - 1)) with 2147483648.
  replace (z + k * 2 ^ 32 + 2147483648) with (z + 2147483648 + k * 2 ^ 32)
    by lia.
  by rewrite Z.mod_add by done.
Qed.

Lemma to_int_multiple z : exists k, to_int z = z + k * 2 ^ 32.
Proof.
  exists (- ((z + 2147483648) / 2 ^ 32)). unfold to_int, wrap.
  change (2 ^ (32 - 1)) with 2147483648.
  pose proof (Z.div_mod (z + 2147483648) (2 ^ 32) ltac:(done)). lia.
Qed.

Lemma to_int_sub_add a b : in_int b -> to_int (to_int (a + b) - a) = b.
Proof.
  intros Hb. destruct (to_int_multiple (a + b)) as [k ->].
  replace (a + b + k * 2 ^ 32 - a) with (b + k * 2 ^ 32) by lia.
  rewrite to_int_shift. by apply to_int_id.
Qed.

End CIntMore.

(** ** More on mutt_window_wrap_cols *)

Section WrapColsMore.

(** X27.  The wrap column lies within the width.  For an [int] width and
    a [short] wrap value, [mutt_window_wrap_cols] never returns more than
    the width; it returns a positive column whenever the width is positive,
    and returns the width itself when the width is zero or negative. *)
Theorem wrap_cols_within_width (width wrap : Z) :
  in_int width -> in_short wrap ->
  mutt_window_wrap_cols width wrap <= width
  /\ (0 < width -> 0 < mutt_window_wrap_cols width wrap)
  /\ (width <= 0 -> mutt_window_wrap_cols width wrap = width).
Proof.
  intros Hw Hs. unfold mutt_window_wrap_cols.
  rewrite (to_int_id (- wrap)) by (by apply in_int_neg_short).
  destruct (Z.ltb_spec wrap 0).
  - destruct (Z.gtb_spec width (- wrap)).
    + rewrite to_int_id by (apply in_int_margin; [done | lia | lia]). lia.
    + lia.
  - destruct (Z.eqb_spec wrap 0); cbn [negb]; [lia |].
    destruct (Z.ltb_spec wrap width); lia.
Qed.

Lemma wrap_cols_within_width_witness :
  mutt_window_wrap_cols 80 (-10) <= 80
  /\ (0 < 80 -> 0 < mutt_window_wrap_cols 80 (-10))
  /\ (80 <= 0 -> mutt_window_wrap_cols 80 (-10) = 80).
Proof.
  apply (wrap_cols_within_width 80 (-10)); vm_compute; split; discriminate.
Defined.

End WrapColsMore.

(** ** More on the flat layout *)

Section FlatMore.

Import Flat.

Lemma to_int_sub_sub a b c : to_int (to_int (a - b) - c) = to_int (a - b - c).
Proof.
  destruct (to_int_multiple (a - b)) as [k ->].
  replace (a - b + k * 2 ^ 32 - c) with (a - b - c + k * 2 ^ 32) by lia.
  apply to_int_shift.
Qed.

Lemma with_geometry_strip r c ro co w :
  with_geometry r c ro co w = with_geometry r c ro co (strip w).
Proof. reflexivity. Qed.

(** The windows a reflow leaves depend on the screen and the configuration
    only, and on what the five windows are apart from their geometry. *)
Lemma reflow_view_geometry g g' v v' :
  same_settings g g' -> same_but_geometry (C_SidebarVisible g) v v' ->
  reflow_view g' (fHelp v') (fIndex v') (fMessage v') (fStatus v') (fSidebar v')
  = reflow_view g (fHelp v) (fIndex v) (fMessage v) (fStatus v) (fSidebar v).
Proof.
  intros (EL & EC & EH & ET & EV & EW & ER & _) (H1 & H2 & H3 & H4 & H5).
  unfold reflow_view. rewrite EL, EC, EH, ET, EV, EW, ER. cbv zeta.
  rewrite !(with_geometry_strip _ _ _ _ (fHelp v')), H1.
  rewrite !(with_geometry_strip _ _ _ _ (fIndex v')), H2.
  rewrite !(with_geometry_strip _ _ _ _ (fMessage v')), H3.
  rewrite !(with_geometry_strip _ _ _ _ (fStatus v')), H4.
  destruct (C_SidebarVisible g).
  - rewrite !(with_geometry_strip _ _ _ _ (fSidebar v')), H5. reflexivity.
  - rewrite H5. reflexivity.
Qed.

Lemma reflow_view_same_but_geometry g wh wi wm ws wb :
  same_but_geometry (C_SidebarVisible g) (mkFive wh wi wm ws wb)
    (reflow_view g wh wi wm ws wb).
Proof.
  unfold reflow_view, same_but_geometry. cbv zeta.
  cbn [fHelp fIndex fMessage fStatus fSidebar].
  by destruct (C_Help g), (C_SidebarVisible g).
Qed.

Lemma message_rows_view_same_but_geometry n g wh wi wm ws wb :
  same_but_geometry (C_SidebarVisible g) (mkFive wh wi wm ws wb)
    (message_rows_view n g wh wi wm ws wb).
Proof.
  unfold message_rows_view, same_but_geometry. cbv zeta.
  cbn [fHelp fIndex fMessage fStatus fSidebar].
  by destruct (C_Help g), (C_SidebarVisible g).
Qed.

Lemma same_but_geometry_trans b v1 v2 v3 :
  same_but_geometry b v1 v2 -> same_but_geometry b v2 v3 ->
  same_but_geometry b v1 v3.
Proof.
  intros (A1 & A2 & A3 & A4 & A5) (B1 & B2 & B3 & B4 & B5).
  repeat split; try congruence. destruct b; congruence.
Qed.

Lemma laid_out_windows g :
  laid_out g ->
  exists wh wi wm ws wb,
    win g Help = Some wh /\ win g Index = Some wi /\ win g Message = Some wm
    /\ win g Status = Some ws /\ win g Sidebar = Some wb.
Proof.
  intros ([wh HH] & [wi HI] & [wm HM] & [ws HS] & [wb HB]).
  by exists wh, wi, wm, ws, wb.
Qed.

(** Two states that model the same view of the same state hold the same
    windows. *)
Lemma models_same_windows g0 g1 g2 v l1 l2 :
  models g0 g1 v l1 -> models g0 g2 v l2 -> forall p, win g2 p = win g1 p.
Proof.
  intros (_ & Hin1 & Hout1 & _) (_ & Hin2 & Hout2 & _) p.
  destruct (get5 p v) as [w |] eqn:Hp.
  - by rewrite (Hin1 p w Hp), (Hin2 p w Hp).
  - by rewrite (Hout1 p Hp), (Hout2 p Hp).
Qed.

Lemma models_rebase g0 g1 g2 v v' l l' :
  models g0 g1 v l -> models g1 g2 v' l' -> models g0 g2 v' (l ++ l').
Proof.
  intros (Hs1 & Hin1 & Hout1 & Hl1) (Hs2 & Hin2 & Hout2 & Hl2).
  split; [| split; [| split]].
  - destruct Hs1 as (? & ? & ? & ? & ? & ? & ? & ?).
    destruct Hs2 as (? & ? & ? & ? & ? & ? & ? & ?).
    repeat split; congruence.
  - exact Hin2.
  - intros p Hp. rewrite (Hout2 p Hp). apply Hout1.
    destruct p; try reflexivity; discriminate Hp.
  - by rewrite Hl2, Hl1, List.app_assoc.
Qed.

Lemma models_five g0 g v l :
  models g0 g v l ->
  win g Help = Some (fHelp v) /\ win g Index = Some (fIndex v)
  /\ win g Message = Some (fMessage v) /\ win g Status = Some (fStatus v)
  /\ win g Sidebar = Some (fSidebar v).
Proof. intros (_ & Hin & _). repeat split; by apply Hin. Qed.

Lemma models_OptNoCurses g0 g v l :
  models g0 g v l -> OptNoCurses g = OptNoCurses g0.
Proof. by intros ((_ & _ & _ & _ & _ & _ & _ & H) & _). Qed.

Lemma models_SidebarVisible g0 g v l :
  models g0 g v l -> C_SidebarVisible g = C_SidebarVisible g0.
Proof. by intros ((_ & _ & _ & _ & H & _) & _). Qed.

(** A reflow of a state that holds the five windows of [g0] with other
    geometry leaves the windows a reflow of [g0] leaves. *)
Lemma reflow_again g0 g wh wi wm ws wb v l :
  OptNoCurses g0 = false -> models g0 g v l ->
  same_but_geometry (C_SidebarVisible g0) (mkFive wh wi wm ws wb) v ->
  exists g' l',
    mutt_window_reflow g = Some g'
    /\ models g0 g' (reflow_view g0 wh wi wm ws wb) l'.
Proof.
  intros Hn Hst Hv.
  destruct (models_five _ _ _ _ Hst) as (HH & HI & HM & HS & HB).
  assert (Hn' : OptNoCurses g = false)
    by (by rewrite (models_OptNoCurses _ _ _ _ Hst)).
  destruct (reflow_eval g _ _ _ _ _ Hn' HH HI HM HS HB) as (g' & Hr & Hst').
  exists g'. eexists. split; [exact Hr |].
  rewrite (reflow_view_geometry g0 g (mkFive wh wi wm ws wb) v) in Hst'
    by (by destruct Hst).
  exact (models_rebase _ _ _ _ _ _ _ Hst Hst').
Qed.

(** X17.  The flat reflow is idempotent: with curses running and the five
    windows allocated, a second [mutt_window_reflow] returns and leaves
    every window as the first one left it. *)
Theorem reflow_idempotent (g : Globals) :
  OptNoCurses g = false -> laid_out g ->
  exists g1 g2,
    mutt_window_reflow g = Some g1 /\ mutt_window_reflow g1 = Some g2
    /\ forall p, win g2 p = win g1 p.
Proof.
  intros Hn Hl.
  destruct (laid_out_windows g Hl) as (wh & wi & wm & ws & wb & HH & HI & HM
                                        & HS & HB).
  destruct (reflow_eval g wh wi wm ws wb Hn HH HI HM HS HB)
    as (g1 & Hr1 & Hst1).
  destruct (reflow_again g g1 wh wi wm ws wb _ _ Hn Hst1
              (reflow_view_same_but_geometry g wh wi wm ws wb))
    as (g2 & l' & Hr2 & Hst2).
  exists g1, g2. split; [exact Hr1 |]. split; [exact Hr2 |].
  exact (models_same_windows _ _ _ _ _ _ Hst1 Hst2).
Qed.

Lemma reflow_idempotent_witness :
  exists g1 g2,
    mutt_window_reflow (boot 24 80 true false true 20 false) = Some g1
    /\ mutt_window_reflow g1 = Some g2
    /\ forall p, win g2 p = win g1 p.
Proof.
  apply (reflow_idempotent (boot 24 80 true false true 20 false)).
  - reflexivity.
  - repeat split; vm_compute; eauto.
Defined.

(** X18.  A reflow undoes the resizing of the message window: after
    [mutt_window_reflow], any [mutt_window_reflow_message_rows] followed by
    another [mutt_window_reflow] returns and leaves every window as the
    first reflow left it. *)
Theorem reflow_undoes_message_rows (g : Globals) (mw_rows : Z) :
  OptNoCurses g = false -> laid_out g ->
  exists g1 g2 g3,
    mutt_window_reflow g = Some g1
    /\ mutt_window_reflow_message_rows mw_rows g1 = Some g2
    /\ mutt_window_reflow g2 = Some g3
    /\ forall p, win g3 p = win g1 p.
Proof.
  intros Hn Hl.
  destruct (laid_out_windows g Hl) as (wh & wi & wm & ws & wb & HH & HI & HM
                                        & HS & HB).
  destruct (reflow_eval g wh wi wm ws wb Hn HH HI HM HS HB)
    as (g1 & Hr1 & Hst1).
  destruct (models_five _ _ _ _ Hst1) as (HH1 & HI1 & HM1 & HS1 & HB1).
  destruct (message_rows_eval mw_rows g1 _ _ _ _ _ HH1 HI1 HM1 HS1 HB1)
    as (g2 & Hr2 & Hst2).
  pose proof (models_rebase _ _ _ _ _ _ _ Hst1 Hst2) as Hst12.
  destruct (reflow_again g g2 wh wi wm ws wb _ _ Hn Hst12) as
    (g3 & l' & Hr3 & Hst3).
  { eapply same_but_geometry_trans;
      [apply reflow_view_same_but_geometry |].
    rewrite <- (models_SidebarVisible _ _ _ _ Hst1).
    apply message_rows_view_same_but_geometry. }
  exists g1, g2, g3. repeat (split; [done |]).
  exact (models_same_windows _ _ _ _ _ _ Hst1 Hst3).
Qed.

Lemma reflow_undoes_message_rows_witness :
  exists g1 g2 g3,
    mutt_window_reflow (boot 24 80 true false true 20 false) = Some g1
    /\ mutt_window_reflow_message_rows 5 g1 = Some g2
    /\ mutt_window_reflow g2 = Some g3
    /\ forall p, win g3 p = win g1 p.
Proof.
  apply (reflow_undoes_message_rows (boot 24 80 true false true 20 false) 5).
  - reflexivity.
  - repeat split; vm_compute; eauto.
Defined.

Lemma message_rows_1_view g g1 wh wi wm ws wb :
  same_settings g g1 ->
  let v := reflow_view g wh wi wm ws wb in
  message_rows_view 1 g1 (fHelp v) (fIndex v) (fMessage v) (fStatus v)
    (fSidebar v) = v.
Proof.
  intros (EL & EC & EH & ET & EV & EW & ER & _). cbv zeta.
  unfold message_rows_view, reflow_view, index_rows.
  rewrite EL, ET, EH, EV. cbv zeta.
  cbn [fHelp fIndex fMessage fStatus fSidebar].
  rewrite !to_int_sub_sub.
  replace (LINES g - 1 - 1) with (LINES g - 2) by lia.
  destruct (C_Help g), (C_SidebarVisible g), (C_StatusOnTop g);
    cbn [rows cols row_offset col_offset with_geometry andb negb];
    rewrite ?Z.sub_0_r; try reflexivity; by destruct wh, wb.
Qed.

(** X19.  The layout of a reflow has a message window of one row: right
    after [mutt_window_reflow], [mutt_window_reflow_message_rows] with 1
    returns and changes no window. *)
Theorem message_rows_one_is_the_layout (g : Globals) :
  OptNoCurses g = false -> laid_out g ->
  exists g1 g2,
    mutt_window_reflow g = Some g1
    /\ mutt_window_reflow_message_rows 1 g1 = Some g2
    /\ forall p, win g2 p = win g1 p.
Proof.
  intros Hn Hl.
  destruct (laid_out_windows g Hl) as (wh & wi & wm & ws & wb & HH & HI & HM
                                        & HS & HB).
  destruct (reflow_eval g wh wi wm ws wb Hn HH HI HM HS HB)
    as (g1 & Hr1 & Hst1).
  destruct (models_five _ _ _ _ Hst1) as (HH1 & HI1 & HM1 & HS1 & HB1).
  destruct (message_rows_eval 1 g1 _ _ _ _ _ HH1 HI1 HM1 HS1 HB1)
    as (g2 & Hr2 & Hst2).
  rewrite (message_rows_1_view g g1) in Hst2 by (by destruct Hst1).
  pose proof (models_rebase _ _ _ _ _ _ _ Hst1 Hst2) as Hst12.
  exists g1, g2. repeat (split; [done |]).
  exact (models_same_windows _ _ _ _ _ _ Hst1 Hst12).
Qed.

Lemma message_rows_one_is_the_layout_witness :
  exists g1 g2,
    mutt_window_reflow (boot 24 80 true false true 20 false) = Some g1
    /\ mutt_window_reflow_message_rows 1 g1 = Some g2
    /\ forall p, win g2 p = win g1 p.
Proof.
  apply (message_rows_one_is_the_layout (boot 24 80 true false true 20 false)).
  - reflexivity.
  - repeat split; vm_compute; eauto.
Defined.

Lemma message_rows_twice_view n m g g1 wh wi wm ws wb :
  same_settings g g1 ->
  let v := message_rows_view n g wh wi wm ws wb in
  message_rows_view m g1 (fHelp v) (fIndex v) (fMessage v) (fStatus v)
    (fSidebar v) = message_rows_view m g wh wi wm ws wb.
Proof.
  intros (EL & EC & EH & ET & EV & EW & ER & _). cbv zeta.
  unfold message_rows_view. rewrite EL, ET, EH, EV. cbv zeta.
  cbn [fHelp fIndex fMessage fStatus fSidebar].
  destruct (C_Help g), (C_SidebarVisible g); reflexivity.
Qed.

(** X20.  Of two resizings of the message window the last one wins: with
    the five windows allocated, [mutt_window_reflow_message_rows] with [m]
    after one with [n] returns and leaves every window as
    [mutt_window_reflow_message_rows] with [m] alone leaves it. *)
Theorem message_rows_last_wins (g : Globals) (n m : Z) :
  laid_out g ->
  exists g1 g2 g2',
    mutt_window_reflow_message_rows n g = Some g1
    /\ mutt_window_reflow_message_rows m g1 = Some g2
    /\ mutt_window_reflow_message_rows m g = Some g2'
    /\ forall p, win g2 p = win g2' p.
Proof.
  intros Hl.
  destruct (laid_out_windows g Hl) as (wh & wi & wm & ws & wb & HH & HI & HM
                                        & HS & HB).
  destruct (message_rows_eval n g wh wi wm ws wb HH HI HM HS HB)
    as (g1 & Hr1 & Hst1).
  destruct (message_rows_eval m g wh wi wm ws wb HH HI HM HS HB)
    as (g2' & Hr2' & Hst2').
  destruct (models_five _ _ _ _ Hst1) as (HH1 & HI1 & HM1 & HS1 & HB1).
  destruct (message_rows_eval m g1 _ _ _ _ _ HH1 HI1 HM1 HS1 HB1)
    as (g2 & Hr2 & Hst2).
  rewrite (message_rows_twice_view n m g g1) in Hst2 by (by destruct Hst1).
  pose proof (models_rebase _ _ _ _ _ _ _ Hst1 Hst2) as Hst12.
  exists g1, g2, g2'. repeat (split; [done |]).
  intros p. symmetry. exact (models_same_windows _ _ _ _ _ _ Hst12 Hst2' p).
Qed.

Lemma message_rows_last_wins_witness :
  exists g1 g2 g2',
    mutt_window_reflow_message_rows 5 (boot 24 80 true false true 20 false)
    = Some g1
    /\ mutt_window_reflow_message_rows 3 g1 = Some g2
    /\ mutt_window_reflow_message_rows 3 (boot 24 80 true false true 20 false)
       = Some g2'
    /\ forall p, win g2 p = win g2' p.
Proof.
  apply (message_rows_last_wins (boot 24 80 true false true 20 false) 5 3).
  repeat split; vm_compute; eauto.
Defined.

(** *** mutt_window_init *)

(** The windows [mutt_window_init] leaves when it runs: they do not depend
    on the state it starts from. *)
Lemma init_windows g p :
  win g W1 = None ->
  win (mutt_window_init g) p
  = win (boot 0 0 false false false 0 false) p.
Proof.
  intros H. unfold boot, mutt_window_init. rewrite H. cbn [win].
  destruct p; vm_compute; reflexivity.
Qed.

Lemma init_settings g : same_settings g (mutt_window_init g).
Proof.
  unfold mutt_window_init. destruct (win g W1); by repeat split.
Qed.

(** X21.  [mutt_window_reflow] needs [mutt_window_init].  Without curses
    it does nothing.  With curses it faults when the status window is null,
    as it is before [mutt_window_init]; after [mutt_window_init] has run it
    returns.  A second [mutt_window_init] changes nothing. *)
Theorem reflow_needs_init (g : Globals) :
  (OptNoCurses g = true -> mutt_window_reflow g = Some g) /\
  (OptNoCurses g = false -> win g Status = None ->
   mutt_window_reflow g = None) /\
  (win g W1 = None -> OptNoCurses g = false ->
   laid_out (mutt_window_init g)
   /\ exists g', mutt_window_reflow (mutt_window_init g) = Some g') /\
  mutt_window_init (mutt_window_init g) = mutt_window_init g.
Proof.
  split; [| split; [| split]].
  - intros Hn. unfold mutt_window_reflow. by rewrite Hn.
  - intros Hn Hs. unfold mutt_window_reflow, assign. by rewrite Hn, Hs.
  - intros H1 Hn.
    assert (Hl : laid_out (mutt_window_init g)).
    { repeat split; rewrite init_windows by done; vm_compute; eauto. }
    split; [exact Hl |].
    destruct (laid_out_windows _ Hl) as (wh & wi & wm & ws & wb & HH & HI
                                          & HM & HS & HB).
    assert (Hn' : OptNoCurses (mutt_window_init g) = false).
    { destruct (init_settings g) as (_ & _ & _ & _ & _ & _ & _ & ->).
      exact Hn. }
    destruct (reflow_eval _ wh wi wm ws wb Hn' HH HI HM HS HB)
      as (g' & Hr & _).
    by exists g'.
  - destruct (win g W1) as [w |] eqn:H1.
    + unfold mutt_window_init. by rewrite !H1.
    + assert (H1' : is_Some (win (mutt_window_init g) W1)).
      { rewrite init_windows by done. vm_compute. eauto. }
      destruct H1' as [w H1']. unfold mutt_window_init at 1. by rewrite H1'.
Qed.

Lemma reflow_needs_init_witness :
  laid_out
    (mutt_window_init
       (mkGlobals 24 80 true false true 20 false false (fun _ => None) []))
  /\ exists g',
       mutt_window_reflow
         (mutt_window_init
            (mkGlobals 24 80 true false true 20 false false (fun _ => None) []))
       = Some g'.
Proof.
  apply (proj1 (proj2 (proj2 (reflow_needs_init
           (mkGlobals 24 80 true false true 20 false false
              (fun _ => None) []))))); reflexivity.
Defined.

(** X22.  [mutt_window_init] builds a tree and shows nothing.  When it
    runs (the root pointer is null), it leaves the screen size, the
    configuration and the menu calls alone; all thirteen windows exist
    afterwards; parent pointers and child lists agree; the root [w1] has no
    parent and each of the seven named windows has no child; and every
    window still has [visible] false, the value of the zeroed allocation:
    this [mutt_window_new] never sets it. *)
Theorem init_builds_a_hidden_tree (g : Globals) :
  win g W1 = None ->
  let g' := mutt_window_init g in
  same_settings g g' /\ menu_calls g' = menu_calls g /\
  linked g' /\
  (exists w1, win g' W1 = Some w1 /\ parent w1 = None) /\
  (forall p, exists w, win g' p = Some w /\ visible w = false) /\
  (forall p, In p [Help; Index; Message; PagerBar; Pager; Sidebar; Status] ->
     exists w, win g' p = Some w /\ children w = []).
Proof.
  intros H1. cbv zeta. split; [apply init_settings |]. split.
  { unfold mutt_window_init. by rewrite H1. }
  split; [| split; [| split]].
  - intros p q. rewrite !init_windows by done. split.
    + intros (wq & Hq & Hin). destruct q; vm_compute in Hq;
        injection Hq as <-; cbn in Hin;
        repeat (destruct Hin as [<- | Hin]; [vm_compute; eauto |]);
        contradiction.
    + intros (wp & Hp & Hpar). destruct p; vm_compute in Hp;
        injection Hp as <-; cbn in Hpar; try discriminate Hpar;
        injection Hpar as <-; vm_compute; eexists; (split; [reflexivity |]);
        cbn; tauto.
  - rewrite init_windows by done. vm_compute. eauto.
  - intros p. rewrite init_windows by done. destruct p; vm_compute; eauto.
  - intros p Hp. rewrite init_windows by done. cbn in Hp.
    repeat (destruct Hp as [<- | Hp]; [vm_compute; eauto |]). contradiction.
Qed.

Lemma init_builds_a_hidden_tree_witness :
  linked
    (mutt_window_init
       (mkGlobals 24 80 true false true 20 false false (fun _ => None) [])).
Proof.
  apply (init_builds_a_hidden_tree
           (mkGlobals 24 80 true false true 20 false false
              (fun _ => None) [])).
  reflexivity.
Defined.

End FlatMore.

(** ** More on the window tree *)

Section TreeMore.

Import Tree.

(** *** mutt_window_init *)

Ltac look :=
  repeat first [rewrite lookup_insert_eq
               | rewrite lookup_insert_ne by congruence
               | rewrite lookup_delete_eq
               | rewrite lookup_delete_ne by congruence].

(** Four allocations in a row give four different addresses, none of them
    in use before. *)
Lemma four_fresh (h0 : gmap nat MuttWindow) (w1 w2 w3 : MuttWindow) :
  let r := fresh (dom h0) in
  let h := fresh (dom (<[r := w1]> h0)) in
  let d := fresh (dom (<[h := w2]> (<[r := w1]> h0))) in
  let m := fresh (dom (<[d := w3]> (<[h := w2]> (<[r := w1]> h0)))) in
  (r <> h /\ r <> d /\ r <> m /\ h <> d /\ h <> m /\ d <> m)
  /\ h0 !! r = None /\ h0 !! h = None /\ h0 !! d = None /\ h0 !! m = None.
Proof.
  intros r h d m.
  pose proof (is_fresh (dom h0)) as Hr. fold r in Hr.
  pose proof (is_fresh (dom (<[r := w1]> h0))) as Hh. fold h in Hh.
  pose proof (is_fresh (dom (<[h := w2]> (<[r := w1]> h0)))) as Hd.
  fold d in Hd.
  pose proof (is_fresh (dom (<[d := w3]> (<[h := w2]> (<[r := w1]> h0)))))
    as Hm. fold m in Hm.
  apply not_elem_of_dom in Hr, Hh, Hd, Hm.
  apply lookup_insert_None in Hh as [Hh Hh1].
  apply lookup_insert_None in Hd as [Hd Hd1].
  apply lookup_insert_None in Hd as [Hd Hd2].
  apply lookup_insert_None in Hm as [Hm Hm1].
  apply lookup_insert_None in Hm as [Hm Hm2].
  apply lookup_insert_None in Hm as [Hm Hm3].
  repeat split; congruence.
Qed.

Lemma modify_frame r h d m s hp p f w :
  hp !! p = Some w ->
  modify p f (init_frame r h d m s hp)
  = Some (init_frame r h d m s (<[p := f w]> hp)).
Proof. intros H. unfold modify. cbn. by rewrite H. Qed.

Lemma add_child_frame r h d m s hp p c wp wc :
  hp !! p = Some wp -> hp !! c = Some wc -> p <> c ->
  mutt_window_add_child (Some p) (Some c) (init_frame r h d m s hp)
  = Some (init_frame r h d m s
            (<[c := set_parent (Some p) wc]>
               (<[p := set_children (children wp ++ [c]) wp]> hp))).
Proof.
  intros Hp Hc Hne. unfold mutt_window_add_child, TAILQ_INSERT_TAIL.
  cbn [heap init_frame set_heap init_world]. rewrite Hc.
  cbn [mbind option_bind].
  change (mkWorld hp _ _ _ _ _ _ _ _ _ _ _ _ _ _)
    with (init_frame r h d m s hp).
  rewrite (modify_frame _ _ _ _ _ _ _ _ _ Hp). cbn [mbind option_bind].
  rewrite (modify_frame _ _ _ _ _ _ c _ wc); [done |].
  by rewrite lookup_insert_ne.
Qed.

Lemma init_eval s :
  RootWindow s = None ->
  exists r h d m,
    (r <> h /\ r <> d /\ r <> m /\ h <> d /\ h <> m /\ d <> m)
    /\ heap s !! r = None /\ heap s !! h = None /\ heap s !! d = None
    /\ heap s !! m = None
    /\ mutt_window_init s = Some (init_world r h d m s).
Proof.
  intros Hroot. unfold mutt_window_init. rewrite Hroot.
  unfold mutt_window_new. cbv zeta.
  cbn [heap set_heap set_RootWindow set_MuttHelpWindow set_MuttDialogWindow
       set_MuttMessageWindow].
  set (R0 := new_window MUTT_WIN_ORIENT_VERTICAL MUTT_WIN_SIZE_FIXED 0 0).
  set (H0 := new_window MUTT_WIN_ORIENT_VERTICAL MUTT_WIN_SIZE_FIXED 1
               MUTT_WIN_SIZE_UNLIMITED).
  set (D0 := new_window MUTT_WIN_ORIENT_VERTICAL MUTT_WIN_SIZE_MAXIMISE
               MUTT_WIN_SIZE_UNLIMITED MUTT_WIN_SIZE_UNLIMITED).
  destruct (four_fresh (heap s) R0 H0 D0)
    as ((N1 & N2 & N3 & N4 & N5 & N6) & Hr & Hh & Hd & Hm).
  set (r := fresh (dom (heap s))) in *.
  set (h := fresh (dom (<[r := R0]> (heap s)))) in *.
  set (d := fresh (dom (<[h := H0]> (<[r := R0]> (heap s))))) in *.
  set (m := fresh (dom (<[d := D0]> (<[h := H0]> (<[r := R0]> (heap s)))))) in *.
  exists r, h, d, m. split; [done |]. repeat (split; [assumption |]).
  change (set_MuttMessageWindow _ _)
    with (init_frame r h d m s
            (<[m:=H0]> (<[d:=D0]> (<[h:=H0]> (<[r:=R0]> (heap s)))))).
  erewrite modify_frame
    by (rewrite !lookup_insert_ne by congruence; apply lookup_insert_eq).
  cbn [mbind option_bind].
  erewrite modify_frame
    by (rewrite !lookup_insert_ne by congruence; apply lookup_insert_eq).
  cbn [mbind option_bind].
  erewrite modify_frame
    by (rewrite !lookup_insert_ne by congruence; apply lookup_insert_eq).
  cbn [mbind option_bind].
  erewrite modify_frame
    by (rewrite !lookup_insert_ne by congruence; apply lookup_insert_eq).
  cbn [mbind option_bind].
  change (RootWindow (init_frame r h d m s _)) with (Some r).
  change (MuttHelpWindow (init_frame r h d m s _)) with (Some h).
  erewrite add_child_frame;
    [| rewrite !lookup_insert_ne by congruence; apply lookup_insert_eq
     | rewrite !lookup_insert_ne by congruence; apply lookup_insert_eq
     | done].
  cbn [mbind option_bind].
  change (RootWindow (init_frame r h d m s _)) with (Some r).
  change (MuttDialogWindow (init_frame r h d m s _)) with (Some d).
  erewrite add_child_frame;
    [| rewrite !lookup_insert_ne by congruence; apply lookup_insert_eq
     | rewrite !lookup_insert_ne by congruence; apply lookup_insert_eq
     | done].
  cbn [mbind option_bind].
  change (RootWindow (init_frame r h d m s _)) with (Some r).
  change (MuttMessageWindow (init_frame r h d m s _)) with (Some m).
  erewrite add_child_frame;
    [| rewrite !lookup_insert_ne by congruence; apply lookup_insert_eq
     | rewrite !lookup_insert_ne by congruence; apply lookup_insert_eq
     | done].
  f_equal. unfold init_frame, init_world, set_heap.
  cbn [heap RootWindow MuttDialogWindow MuttHelpWindow MuttIndexWindow
       MuttMessageWindow MuttPagerBarWindow MuttPagerWindow MuttSidebarWindow
       MuttStatusWindow C_Help C_StatusOnTop C_PagerIndexLines OptNoCurses
       calls].
  f_equal. apply map_eq. intros k.
  destruct (decide (k = m)) as [-> | Km];
    [| destruct (decide (k = d)) as [-> | Kd];
       [| destruct (decide (k = h)) as [-> | Kh];
          [| destruct (decide (k = r)) as [-> | Kr]]]];
    repeat first [rewrite lookup_insert_eq
                 | rewrite lookup_insert_ne by congruence];
    reflexivity.
Qed.

(** X23.  [mutt_window_init] of the window tree.  When the root pointer is
    null it allocates four windows at addresses not in use, different from
    one another, and leaves every other window alone; the root has no
    parent and has the help, dialogs and message windows for children, in
    this order; each of the three is visible, has the root for parent and
    no child.  It creates no index window ([MuttIndexWindow] is left as it
    was) and calls nothing.  When the root pointer is not null it changes
    nothing, so a second call changes nothing. *)
Theorem init_makes_the_default_windows (s : World) :
  (is_Some (RootWindow s) -> mutt_window_init s = Some s) /\
  (RootWindow s = None ->
   exists s' r h d m wr,
     mutt_window_init s = Some s' /\ mutt_window_init s' = Some s'
     /\ RootWindow s' = Some r /\ MuttHelpWindow s' = Some h
     /\ MuttDialogWindow s' = Some d /\ MuttMessageWindow s' = Some m
     /\ MuttIndexWindow s' = MuttIndexWindow s /\ calls s' = calls s
     /\ NoDup [r; h; d; m]
     /\ (forall p, p ∈ [r; h; d; m] -> heap s !! p = None)
     /\ (forall q, q ∉ [r; h; d; m] -> heap s' !! q = heap s !! q)
     /\ heap s' !! r = Some wr /\ parent wr = None /\ children wr = [h; d; m]
     /\ (forall c, c ∈ [h; d; m] ->
           exists w, heap s' !! c = Some w /\ parent w = Some r
                     /\ children w = [] /\ visible (state w) = true)).
Proof.
  split.
  { intros [r Hr]. unfold mutt_window_init. by rewrite Hr. }
  intros Hroot.
  destruct (init_eval s Hroot)
    as (r & h & d & m & (N1 & N2 & N3 & N4 & N5 & N6) & Hr & Hh & Hd & Hm
        & Hi).
  exists (init_world r h d m s), r, h, d, m. eexists.
  split; [exact Hi |]. split; [reflexivity |].
  do 6 (split; [reflexivity |]). split; [| split; [| split; [| split]]].
  - repeat constructor; rewrite ?elem_of_cons, ?elem_of_nil; intuition.
  - intros p Hp. rewrite !elem_of_cons, elem_of_nil in Hp.
    destruct Hp as [-> | [-> | [-> | [-> | []]]]]; assumption.
  - intros q Hq. rewrite !not_elem_of_cons in Hq.
    destruct Hq as (Q1 & Q2 & Q3 & Q4 & _). cbn [heap init_world]. by look.
  - cbn [heap init_world]. look. reflexivity.
  - split; [reflexivity |]. split; [reflexivity |].
    intros c Hc. rewrite !elem_of_cons, elem_of_nil in Hc.
    destruct Hc as [-> | [-> | [-> | []]]]; cbn [heap init_world];
      eexists; (split; [look; reflexivity | by repeat split]).
Qed.

Lemma init_makes_the_default_windows_witness :
  exists s' r h d m wr,
    mutt_window_init (blank true false 0 false) = Some s'
    /\ mutt_window_init s' = Some s'
    /\ RootWindow s' = Some r /\ MuttHelpWindow s' = Some h
    /\ MuttDialogWindow s' = Some d /\ MuttMessageWindow s' = Some m
    /\ MuttIndexWindow s' = None /\ calls s' = []
    /\ heap s' !! r = Some wr /\ children wr = [h; d; m].
Proof.
  destruct (proj2 (init_makes_the_default_windows (blank true false 0 false))
              eq_refl)
    as (s' & r & h & d & m & wr & H1 & H2 & H3 & H4 & H5 & H6 & H7 & H8 & _
        & _ & _ & H9 & _ & H10 & _).
  exists s', r, h, d, m, wr. repeat (split; [assumption |]). assumption.
Defined.

(** *** mutt_window_free_all *)

Lemma size_lookup_Some (hp : gmap nat MuttWindow) k v :
  hp !! k = Some v -> exists n, base.size hp = S n.
Proof.
  intros H. destruct (base.size hp) as [| n] eqn:E; [| eauto].
  apply map_size_empty_iff in E. subst. by rewrite lookup_empty in H.
Qed.

(** Freeing the children of a window that has none frees nothing. *)
Lemma winlist_free_leaf fuel p s w :
  heap s !! p = Some w -> children w = [] ->
  mutt_winlist_free (S fuel) (Some p) s = Some s.
Proof.
  intros H Hc. cbn [mutt_winlist_free]. rewrite H. cbn [mbind option_bind].
  by rewrite Hc.
Qed.

(** One turn of the loop of [mutt_winlist_free] on a child without
    children. *)
Lemma free_leaf_child fuel s r np wr wn :
  heap s !! r = Some wr -> heap s !! np = Some wn -> children wn = [] ->
  r <> np ->
  (TAILQ_REMOVE r np s
   ≫= fun s1 => mutt_winlist_free (S fuel) (Some np) s1
   ≫= fun s2 => Some (set_heap (delete np (heap s2)) s2))
  = Some (set_heap
            (delete np
               (<[r := set_children (remove_first np (children wr)) wr]>
                  (heap s)))
            s).
Proof.
  intros Hr Hn Hc Hne. unfold TAILQ_REMOVE. rewrite Hn.
  cbn [mbind option_bind].
  rewrite (modify_Some _ _ _ _ Hr). cbn [mbind option_bind].
  rewrite (winlist_free_leaf _ _ _ wn);
    [| cbn [heap set_heap]; by rewrite lookup_insert_ne | done].
  reflexivity.
Qed.

(** X24.  [mutt_window_free_all] after [mutt_window_init].  It returns;
    the four windows of [mutt_window_init] are freed and the heap is what
    it was before [mutt_window_init]; the root pointer and the pointers to
    the named windows are null.  [MuttDialogWindow] is not among the
    pointers it clears: it still holds the address of the freed dialogs
    window, and a [dialog_push] after that dereferences it. *)
Theorem free_all_after_init (s : World) :
  RootWindow s = None ->
  exists s' s'' d,
    mutt_window_init s = Some s' /\ mutt_window_free_all s' = Some s''
    /\ heap s'' = heap s
    /\ RootWindow s'' = None /\ MuttHelpWindow s'' = None
    /\ MuttIndexWindow s'' = None /\ MuttMessageWindow s'' = None
    /\ MuttPagerBarWindow s'' = None /\ MuttPagerWindow s'' = None
    /\ MuttSidebarWindow s'' = None /\ MuttStatusWindow s'' = None
    /\ MuttDialogWindow s' = Some d /\ MuttDialogWindow s'' = Some d
    /\ heap s'' !! d = None
    /\ (forall dlg, dialog_push (Some dlg) s'' = None).
Proof.
  intros Hroot.
  destruct (init_eval s Hroot)
    as (r & h & d & m & (N1 & N2 & N3 & N4 & N5 & N6) & Hr & Hh & Hd & Hm
        & Hi).
  assert (Hfree :
    exists s'',
      mutt_window_free_all (init_world r h d m s) = Some s''
      /\ heap s'' = heap s
      /\ RootWindow s'' = None /\ MuttHelpWindow s'' = None
      /\ MuttIndexWindow s'' = None /\ MuttMessageWindow s'' = None
      /\ MuttPagerBarWindow s'' = None /\ MuttPagerWindow s'' = None
      /\ MuttSidebarWindow s'' = None /\ MuttStatusWindow s'' = None
      /\ MuttDialogWindow s'' = Some d).
  { unfold mutt_window_free_all. cbv zeta.
    set (s1 := mkWorld (heap (init_world r h d m s)) _ _ _ _ _ _ _ _ _ _ _ _
                 _ _).
    change (RootWindow s1) with (Some r). unfold mutt_window_free.
    assert (Hr1 : is_Some (heap s1 !! r))
      by (cbn [s1 heap init_world]; look; eauto).
    destruct Hr1 as [wr Hr1].
    cbn [mutt_winlist_free]. rewrite Hr1. cbn [mbind option_bind].
    destruct (size_lookup_Some _ _ _ Hr1) as [n ->].
    assert (Hwr : children wr = [h; d; m]).
    { cbn [s1 heap init_world] in Hr1. revert Hr1. look. by intros [= <-]. }
    rewrite Hwr. cbn [foldl]. cbn [mbind option_bind].
    erewrite (free_leaf_child n s1 r h wr);
      [| exact Hr1 | cbn [s1 heap init_world]; look; reflexivity
       | reflexivity | done].
    cbn [mbind option_bind].
    erewrite free_leaf_child;
      [| cbn [s1 heap set_heap init_world]; look; reflexivity
       | cbn [s1 heap set_heap init_world]; look; reflexivity
       | reflexivity | done].
    cbn [mbind option_bind].
    erewrite free_leaf_child;
      [| cbn [s1 heap set_heap init_world]; look; reflexivity
       | cbn [s1 heap set_heap init_world]; look; reflexivity
       | reflexivity | done].
    cbn [mbind option_bind heap set_heap].
    look. cbn [mbind option_bind].
    eexists. split; [reflexivity |].
    cbn [heap set_heap set_RootWindow s1 init_world RootWindow
         MuttDialogWindow MuttHelpWindow MuttIndexWindow MuttMessageWindow
         MuttPagerBarWindow MuttPagerWindow MuttSidebarWindow MuttStatusWindow
         C_Help C_StatusOnTop C_PagerIndexLines OptNoCurses calls].
    split; [| by repeat split].
    apply map_eq. intros k.
    destruct (decide (k = m)) as [-> | Km];
      [| destruct (decide (k = d)) as [-> | Kd];
         [| destruct (decide (k = h)) as [-> | Kh];
            [| destruct (decide (k = r)) as [-> | Kr]]]];
      look; congruence. }
  destruct Hfree as (s'' & Hf & Hheap & G1 & G2 & G3 & G4 & G5 & G6 & G7 & G8
                    & G9).
  exists (init_world r h d m s), s'', d.
  split; [exact Hi |]. split; [exact Hf |].
  repeat (split; [assumption |]). split; [reflexivity |].
  split; [assumption |]. split; [by rewrite Hheap |].
  intros dlg. unfold dialog_push. by rewrite G9, Hheap, Hd.
Qed.

Lemma free_all_after_init_witness :
  exists s' s'' d,
    mutt_window_init (blank true false 0 false) = Some s'
    /\ mutt_window_free_all s' = Some s''
    /\ heap s'' = ∅ /\ RootWindow s'' = None
    /\ MuttDialogWindow s'' = Some d.
Proof.
  destruct (free_all_after_init (blank true false 0 false) eq_refl)
    as (s' & s'' & d & H1 & H2 & H3 & H4 & _ & _ & _ & _ & _ & _ & _ & _ & H5
        & _).
  exists s', s'', d. repeat (split; [assumption |]). assumption.
Defined.

(** *** mutt_window_add_child *)

(** X25.  [mutt_window_add_child] keeps child lists and parent pointers in
    agreement.  In a world where they agree, adding an allocated window
    that is in no child list to an allocated parent returns; the child is
    the last of the parent's children, the children before it are as they
    were, its parent pointer is the parent, and child lists and parent
    pointers still agree. *)
Theorem add_child_keeps_links (s : World) (p c : nat) (wp wc : MuttWindow) :
  linked s -> heap s !! p = Some wp -> heap s !! c = Some wc ->
  (forall q wq, heap s !! q = Some wq -> c ∉ children wq) ->
  exists s' wp' wc',
    mutt_window_add_child (Some p) (Some c) s = Some s'
    /\ heap s' !! p = Some wp' /\ children wp' = children wp ++ [c]
    /\ heap s' !! c = Some wc' /\ parent wc' = Some p
    /\ linked s'.
Proof.
  intros Hl Hp Hc Hfree.
  set (h1 := alter (fun w => set_children (children w ++ [c]) w) p (heap s)).
  set (h2 := alter (set_parent (Some p)) c h1).
  assert (Hrun : mutt_window_add_child (Some p) (Some c) s
                 = Some (set_heap h2 s)).
  { unfold mutt_window_add_child, TAILQ_INSERT_TAIL. rewrite Hc.
    cbn [mbind option_bind]. rewrite modify_alter by eauto.
    cbn [mbind option_bind]. rewrite modify_alter.
    - reflexivity.
    - cbn [heap set_heap]. apply is_Some_alter. eauto. }
  assert (Hlook : forall q w, heap s !! q = Some w ->
            h2 !! q
            = Some (let y := if decide (p = q)
                             then set_children (children w ++ [c]) w else w in
                    if decide (c = q) then set_parent (Some p) y else y)).
  { intros q w Hq. unfold h2, h1.
    erewrite lookup_alter_Some; [reflexivity |].
    by erewrite lookup_alter_Some. }
  assert (Hback : forall q w', h2 !! q = Some w' ->
            exists w, heap s !! q = Some w).
  { intros q w' Hq. destruct (heap s !! q) as [w |] eqn:E; [eauto |].
    assert (Hn : is_Some (h2 !! q)) by eauto.
    unfold h2, h1 in Hn. apply is_Some_alter in Hn.
    apply is_Some_alter in Hn. rewrite E in Hn. by destruct Hn. }
  exists (set_heap h2 s). do 2 eexists. split; [exact Hrun |].
  cbn [heap set_heap]. split; [apply (Hlook p wp Hp) |]. split.
  { cbv zeta. rewrite (decide_True (P := p = p)) by done.
    destruct (decide (c = p)); reflexivity. }
  split; [apply (Hlook c wc Hc) |]. split.
  { cbv zeta. rewrite (decide_True (P := c = c)) by done. reflexivity. }
  intros q wq' k Hq Hk. cbn [heap set_heap] in *.
  destruct (Hback q wq' Hq) as [wq Hq0].
  rewrite (Hlook q wq Hq0) in Hq. injection Hq as <-. cbv zeta in Hk.
  assert (Hk' : k ∈ (if decide (p = q) then children wq ++ [c]
                     else children wq)).
  { destruct (decide (p = q)), (decide (c = q)); exact Hk. }
  assert (Hcases : k ∈ children wq \/ (p = q /\ k = c)).
  { destruct (decide (p = q)) as [-> | Hne]; [| by left].
    apply elem_of_app in Hk' as [Hk' | Hk']; [by left |].
    apply list_elem_of_singleton in Hk'. by right. }
  destruct Hcases as [Hold | [<- ->]].
  - destruct (Hl q wq k Hq0 Hold) as (wk & Hwk & Hpar).
    eexists. split; [apply (Hlook k wk Hwk) |]. cbv zeta.
    assert (Hck : c <> k).
    { intros <-. by apply (Hfree q wq Hq0). }
    rewrite (decide_False (P := c = k)) by done.
    destruct (decide (p = k)); exact Hpar.
  - eexists. split; [apply (Hlook c wc Hc) |]. cbv zeta.
    rewrite (decide_True (P := c = c)) by done. reflexivity.
Qed.

Lemma add_child_keeps_links_witness :
  exists s',
    mutt_window_add_child (Some 2%nat) (Some 4%nat) stage2 = Some s'
    /\ linked s'.
Proof.
  assert (Hw2 : is_Some (heap stage2 !! 2%nat))
    by (apply (bool_decide_unpack _); vm_compute; exact I).
  destruct Hw2 as (w2 & Hw2).
  assert (Hw4 : is_Some (heap stage2 !! 4%nat))
    by (apply (bool_decide_unpack _); vm_compute; exact I).
  destruct Hw4 as (w4 & Hw4).
  destruct (add_child_keeps_links stage2 2 4 w2 w4)
    as (s' & _ & _ & H1 & _ & _ & _ & _ & H2);
    [| exact Hw2 | exact Hw4 | | by exists s'].
  - intros p wp c Hp Hin.
    assert (Hdom : p ∈ [0; 1; 2; 3; 4; 5]%nat).
    { assert (Hd : dom (heap stage2) = list_to_set [0; 1; 2; 3; 4; 5]%nat)
        by (apply (bool_decide_unpack _); vm_compute; exact I).
      assert (Hp' : p ∈ dom (heap stage2)) by (apply elem_of_dom; eauto).
      rewrite Hd in Hp'. by apply elem_of_list_to_set in Hp'. }
    rewrite !elem_of_cons, elem_of_nil in Hdom.
    destruct Hdom as [-> | [-> | [-> | [-> | [-> | [-> | []]]]]]];
      vm_compute in Hp; injection Hp as <-; cbn [children] in Hin;
      rewrite ?elem_of_cons, ?elem_of_nil in Hin;
      repeat (destruct Hin as [-> | Hin]; [vm_compute; eauto |]);
      contradiction.
  - intros q wq Hq.
    assert (Hdom : q ∈ [0; 1; 2; 3; 4; 5]%nat).
    { assert (Hd : dom (heap stage2) = list_to_set [0; 1; 2; 3; 4; 5]%nat)
        by (apply (bool_decide_unpack _); vm_compute; exact I).
      assert (Hq' : q ∈ dom (heap stage2)) by (apply elem_of_dom; eauto).
      rewrite Hd in Hq'. by apply elem_of_list_to_set in Hq'. }
    rewrite !elem_of_cons, elem_of_nil in Hdom.
    destruct Hdom as [-> | [-> | [-> | [-> | [-> | [-> | []]]]]]];
      vm_compute in Hq; injection Hq as <-; cbn [children];
      rewrite ?not_elem_of_cons; repeat split; try done; apply not_elem_of_nil.
Defined.

(** *** mutt_window_reflow_prep *)

Lemma TAILQ_REMOVE_eval head elm s w :
  is_Some (heap s !! elm) -> heap s !! head = Some w ->
  TAILQ_REMOVE head elm s
  = Some (set_heap
            (<[head := set_children (remove_first elm (children w)) w]>
               (heap s)) s).
Proof.
  intros [we He] Hh. unfold TAILQ_REMOVE. rewrite He.
  cbn [mbind option_bind].
  exact (modify_Some _
           (fun w0 => set_children (remove_first elm (children w0)) w0) _ _ Hh).
Qed.

Lemma TAILQ_INSERT_TAIL_eval head elm s w :
  is_Some (heap s !! elm) -> heap s !! head = Some w ->
  TAILQ_INSERT_TAIL head elm s
  = Some (set_heap (<[head := set_children (children w ++ [elm]) w]> (heap s))
            s).
Proof.
  intros [we He] Hh. unfold TAILQ_INSERT_TAIL. rewrite He.
  cbn [mbind option_bind].
  exact (modify_Some _ (fun w0 => set_children (children w0 ++ [elm]) w0) _ _
           Hh).
Qed.

(** The swap of [mutt_window_reflow_prep] on a child list [first :: rest]. *)
Lemma swap_first_eval par anchor s w first rest :
  heap s !! par = Some w -> children w = first :: rest ->
  is_Some (heap s !! first) ->
  swap_first par anchor s
  = Some (if (C_StatusOnTop s && bool_decide (first = anchor))
             || (negb (C_StatusOnTop s) && negb (bool_decide (first = anchor)))
          then set_heap (<[par := set_children (rest ++ [first]) w]> (heap s))
                 s
          else s).
Proof.
  intros Hh Hc Hf. unfold swap_first. rewrite Hh. cbn [mbind option_bind].
  unfold TAILQ_FIRST. rewrite Hc. cbn [head].
  assert (Hb : bool_decide (Some first = Some anchor)
               = bool_decide (first = anchor)).
  { apply bool_decide_ext. split; congruence. }
  rewrite Hb.
  destruct ((C_StatusOnTop s && bool_decide (first = anchor))
            || (negb (C_StatusOnTop s) && negb (bool_decide (first = anchor))));
    [| reflexivity].
  cbn [mbind option_bind].
  rewrite (TAILQ_REMOVE_eval _ _ _ _ Hf Hh). cbn [mbind option_bind].
  erewrite TAILQ_INSERT_TAIL_eval;
    [| cbn [heap set_heap];
       destruct (decide (par = first)) as [-> | Hne];
       [rewrite lookup_insert_eq; eauto | by rewrite lookup_insert_ne]
     | cbn [heap set_heap]; apply lookup_insert_eq].
  cbn [heap set_heap children set_children]. rewrite Hc.
  cbn [remove_first]. rewrite Nat.eqb_refl.
  f_equal. unfold set_heap. cbn. f_equal. by rewrite insert_insert_eq.
Qed.

(** [mutt_window_reflow_prep] when the index or the pager window is null:
    the world it leaves. *)
Lemma reflow_prep_eval s help p first rest wh wp :
  MuttHelpWindow s = Some help -> heap s !! help = Some wh ->
  parent wh = Some p -> p <> help -> heap s !! p = Some wp ->
  children wp = first :: rest -> is_Some (heap s !! first) ->
  MuttIndexWindow s = None \/ MuttPagerWindow s = None ->
  mutt_window_reflow_prep s
  = Some (let s1 :=
            set_heap (<[help := set_state_visible (C_Help s) wh]> (heap s)) s in
          if (C_StatusOnTop s && bool_decide (first = help))
             || (negb (C_StatusOnTop s) && negb (bool_decide (first = help)))
          then set_heap (<[p := set_children (rest ++ [first]) wp]> (heap s1))
                 s1
          else s1).
Proof.
  intros Hhelp Hwh Hpar Hne Hwp Hc Hf Hnull. unfold mutt_window_reflow_prep.
  rewrite Hhelp. cbn [mbind option_bind].
  rewrite (modify_Some _ _ _ _ Hwh). cbn [mbind option_bind heap set_heap].
  rewrite lookup_insert_eq. cbn [mbind option_bind parent set_state_visible].
  rewrite Hpar. cbn [mbind option_bind].
  rewrite (swap_first_eval p help _ wp first rest);
    [| cbn [heap set_heap]; by rewrite lookup_insert_ne
     | done
     | cbn [heap set_heap]; destruct (decide (help = first)) as [-> | Hn];
       [rewrite lookup_insert_eq; eauto | by rewrite lookup_insert_ne]].
  cbn [mbind option_bind C_StatusOnTop set_heap]. cbv zeta.
  destruct ((C_StatusOnTop s && bool_decide (first = help))
            || (negb (C_StatusOnTop s) && negb (bool_decide (first = help))));
    cbn [MuttIndexWindow MuttPagerWindow set_heap];
    destruct Hnull as [-> | ->]; [done | | done |];
    by destruct (MuttIndexWindow s).
Qed.

Lemma set_state_visible_twice v w :
  set_state_visible v (set_state_visible v w) = set_state_visible v w.
Proof. reflexivity. Qed.

(** X26.  [mutt_window_reflow_prep] places the help line.  Take a world
    without an index or without a pager window, whose help window has an
    allocated parent other than itself with at least one child.  The call
    returns; the help window is visible exactly when [C_Help] is set; the
    first child of the parent has moved to the end of the child list when
    the status is on top and that child is the help window, or the status
    is at the bottom and it is not, and the list is unchanged otherwise; no
    other window changes.  When the parent has exactly two children, one of
    them the help window, the help window is then the first child with the
    status at the bottom and the last with the status on top, and a second
    call changes nothing. *)
Theorem reflow_prep_places_the_help_line (s : World) (help p first : nat)
  (rest : list nat) (wh wp : MuttWindow) :
  MuttHelpWindow s = Some help -> heap s !! help = Some wh ->
  parent wh = Some p -> p <> help -> heap s !! p = Some wp ->
  children wp = first :: rest -> is_Some (heap s !! first) ->
  MuttIndexWindow s = None \/ MuttPagerWindow s = None ->
  exists s' wh' wp',
    mutt_window_reflow_prep s = Some s'
    /\ heap s' !! help = Some wh' /\ visible (state wh') = C_Help s
    /\ heap s' !! p = Some wp'
    /\ children wp'
       = (if (C_StatusOnTop s && bool_decide (first = help))
             || (negb (C_StatusOnTop s) && negb (bool_decide (first = help)))
          then rest ++ [first] else first :: rest)
    /\ (forall q, q <> help -> q <> p -> heap s' !! q = heap s !! q)
    /\ (forall other,
          rest = [other] -> first <> other -> first = help \/ other = help ->
          is_Some (heap s !! other) ->
          children wp'
          = (if C_StatusOnTop s
             then [if bool_decide (first = help) then other else first; help]
             else [help; if bool_decide (first = help) then other else first])
          /\ mutt_window_reflow_prep s' = Some s').
Proof.
  intros Hhelp Hwh Hpar Hne Hwp Hc Hf Hnull.
  pose proof (reflow_prep_eval s help p first rest wh wp Hhelp Hwh Hpar Hne
                Hwp Hc Hf Hnull) as Hrun.
  cbv zeta in Hrun.
  set (rotate := (C_StatusOnTop s && bool_decide (first = help))
                 || (negb (C_StatusOnTop s)
                     && negb (bool_decide (first = help)))) in *.
  set (h1 := <[help := set_state_visible (C_Help s) wh]> (heap s)) in *.
  set (wp' := if rotate then set_children (rest ++ [first]) wp else wp).
  set (h2 := if rotate then <[p := set_children (rest ++ [first]) wp]> h1
             else h1).
  assert (Hs' : mutt_window_reflow_prep s = Some (set_heap h2 s)).
  { rewrite Hrun. unfold h2. by destruct rotate. }
  assert (H2help : h2 !! help = Some (set_state_visible (C_Help s) wh)).
  { unfold h2, h1. destruct rotate; look; reflexivity. }
  assert (H2p : h2 !! p = Some wp').
  { unfold h2, h1, wp'. destruct rotate; look; done. }
  assert (Hcw : children wp' = (if rotate then rest ++ [first]
                                else first :: rest)).
  { unfold wp'. by destruct rotate. }
  exists (set_heap h2 s). do 2 eexists. split; [exact Hs' |].
  cbn [heap set_heap]. split; [exact H2help |]. split; [reflexivity |].
  split; [exact H2p |]. split; [exact Hcw |]. split.
  { intros q Q1 Q2. unfold h2, h1. destruct rotate; look; reflexivity. }
  intros other -> Hno Hor Hother.
  assert (Hfinal : children wp'
                   = (if C_StatusOnTop s
                      then [if bool_decide (first = help) then other
                            else first; help]
                      else [help; if bool_decide (first = help) then other
                                  else first])).
  { rewrite Hcw. unfold rotate. destruct Hor as [-> | ->].
    - rewrite !bool_decide_true by done. by destruct (C_StatusOnTop s).
    - rewrite !bool_decide_false by done. by destruct (C_StatusOnTop s). }
  split; [exact Hfinal |].
  assert (Hdom : forall q, is_Some (heap s !! q) -> is_Some (h2 !! q)).
  { intros q Hq. unfold h2, h1.
    destruct (decide (q = p)) as [-> | Q1];
      [| destruct (decide (q = help)) as [-> | Q2]];
      destruct rotate; look; eauto. }
  assert (Hx : (if bool_decide (first = help) then other else first) <> help).
  { destruct Hor as [-> | ->].
    - rewrite bool_decide_true by done. congruence.
    - by rewrite bool_decide_false by done. }
  assert (Hxs : is_Some (h2 !! (if bool_decide (first = help) then other
                                else first))).
  { apply Hdom. by destruct (bool_decide (first = help)). }
  destruct (C_StatusOnTop s) eqn:Ht.
  - rewrite (reflow_prep_eval (set_heap h2 s) help p
               (if bool_decide (first = help) then other else first) [help]
               (set_state_visible (C_Help s) wh) wp');
      try done.
    cbv zeta. cbn [C_StatusOnTop C_Help set_heap heap]. rewrite Ht.
    rewrite (bool_decide_false _ Hx). cbn [andb orb negb].
    rewrite set_state_visible_twice, (insert_id _ _ _ H2help). reflexivity.
  - rewrite (reflow_prep_eval (set_heap h2 s) help p help
               [if bool_decide (first = help) then other else first]
               (set_state_visible (C_Help s) wh) wp');
      try done; try (by (cbn [heap set_heap]; eauto)).
    cbv zeta. cbn [C_StatusOnTop C_Help set_heap heap]. rewrite Ht.
    rewrite bool_decide_true by done. cbn [andb orb negb].
    rewrite set_state_visible_twice, (insert_id _ _ _ H2help). reflexivity.
Qed.

Lemma reflow_prep_places_the_help_line_witness :
  exists s' wp',
    mutt_window_reflow_prep (init_world 0 1 2 3 (blank true false 0 false))
    = Some s'
    /\ heap s' !! 0%nat = Some wp' /\ children wp' = [1; 2; 3]%nat.
Proof.
  destruct (reflow_prep_places_the_help_line
              (init_world 0 1 2 3 (blank true false 0 false)) 1 0 1
              [2; 3]%nat
              (set_parent (Some 0%nat)
                 (set_name (Some "Help"%string)
                    (new_window MUTT_WIN_ORIENT_VERTICAL MUTT_WIN_SIZE_FIXED 1
                       MUTT_WIN_SIZE_UNLIMITED)))
              (set_children [1; 2; 3]%nat
                 (set_name (Some "Root"%string)
                    (new_window MUTT_WIN_ORIENT_VERTICAL MUTT_WIN_SIZE_FIXED 0
                       0))))
    as (s' & wh' & wp' & H1 & _ & _ & H2 & H3 & _).
  - reflexivity.
  - cbn [heap init_world]. look. reflexivity.
  - reflexivity.
  - discriminate.
  - cbn [heap init_world]. look. reflexivity.
  - reflexivity.
  - cbn [heap init_world]. look. eauto.
  - by left.
  - exists s', wp'. split; [exact H1 |]. split; [exact H2 |]. exact H3.
Defined.

(** *** dialog_push and the parent pointer *)

(** X28.  [dialog_push] does not set the parent pointer.  When the
    container and the dialog's root are allocated windows (and the last
    child of the container, if any, is allocated), [dialog_push] returns
    with the root in the container's child list and the root's parent
    pointer as it was: unless that pointer was the container already, child
    lists and parent pointers no longer agree. *)
Theorem dialog_push_leaves_the_parent (s : World) (d : Dialog) (c r : nat)
  (wc wr : MuttWindow) :
  MuttDialogWindow s = Some c -> heap s !! c = Some wc ->
  root d = Some r -> heap s !! r = Some wr ->
  (forall l, TAILQ_LAST wc = Some l -> is_Some (heap s !! l)) ->
  exists s' wc' wr',
    dialog_push (Some d) s = Some s'
    /\ heap s' !! c = Some wc' /\ r ∈ children wc'
    /\ heap s' !! r = Some wr' /\ parent wr' = parent wr
    /\ (parent wr <> Some c -> ~ linked s').
Proof.
  intros Hc Hwc Hd Hwr Hlast.
  pose proof (push_eval s d c r wc Hc Hwc Hd ltac:(eauto) Hlast) as Hrun.
  pose proof (push_heap_lookup c r wc (heap s) r wr Hwr) as Hr.
  pose proof (push_heap_lookup c r wc (heap s) c wc Hwc) as Hcc.
  cbv zeta in Hr, Hcc.
  exists (set_heap (push_heap c r wc (heap s)) s). do 2 eexists.
  split; [exact Hrun |]. cbn [heap set_heap].
  split; [exact Hcc |].
  assert (Hin : r ∈ children
                  (if decide (r = c)
                   then set_state_visible true
                          (if decide (c = c)
                           then set_children
                                  (children
                                     (if decide (TAILQ_LAST wc = Some c)
                                      then set_state_visible false wc else wc)
                                   ++ [r])
                                  (if decide (TAILQ_LAST wc = Some c)
                                   then set_state_visible false wc else wc)
                           else if decide (TAILQ_LAST wc = Some c)
                                then set_state_visible false wc else wc)
                   else if decide (c = c)
                        then set_children
                               (children
                                  (if decide (TAILQ_LAST wc = Some c)
                                   then set_state_visible false wc else wc)
                                ++ [r])
                               (if decide (TAILQ_LAST wc = Some c)
                                then set_state_visible false wc else wc)
                        else if decide (TAILQ_LAST wc = Some c)
                             then set_state_visible false wc else wc)).
  { rewrite (decide_True (P := c = c)) by done.
    destruct (decide (r = c)); cbn [children set_state_visible set_children];
      apply elem_of_app; right; by left. }
  split; [exact Hin |]. split; [exact Hr |].
  assert (Hpar : parent
                   (if decide (r = r)
                    then set_state_visible true
                           (if decide (c = r)
                            then set_children
                                   (children
                                      (if decide (TAILQ_LAST wc = Some r)
                                       then set_state_visible false wr
                                       else wr) ++ [r])
                                   (if decide (TAILQ_LAST wc = Some r)
                                    then set_state_visible false wr else wr)
                            else if decide (TAILQ_LAST wc = Some r)
                                 then set_state_visible false wr else wr)
                    else if decide (c = r)
                         then set_children
                                (children
                                   (if decide (TAILQ_LAST wc = Some r)
                                    then set_state_visible false wr else wr)
                                 ++ [r])
                                (if decide (TAILQ_LAST wc = Some r)
                                 then set_state_visible false wr else wr)
                         else if decide (TAILQ_LAST wc = Some r)
                              then set_state_visible false wr else wr)
                 = parent wr).
  { by destruct (decide (r = r)), (decide (c = r)),
         (decide (TAILQ_LAST wc = Some r)). }
  split; [exact Hpar |].
  intros Hne Hl.
  destruct (Hl c _ r Hcc Hin) as (w & Hw & Hp). cbn [heap set_heap] in Hw.
  rewrite Hr in Hw. injection Hw as <-. rewrite Hpar in Hp. by apply Hne.
Qed.

Lemma dialog_push_leaves_the_parent_witness :
  exists s',
    dialog_push (Some (mkDialog (Some 4%nat))) stage2 = Some s'
    /\ ~ linked s'.
Proof.
  assert (Hw2 : is_Some (heap stage2 !! 2%nat))
    by (apply (bool_decide_unpack _); vm_compute; exact I).
  destruct Hw2 as (w2 & Hw2).
  assert (Hc2 : children <$> heap stage2 !! 2%nat = Some [])
    by (vm_compute; reflexivity).
  rewrite Hw2 in Hc2. injection Hc2 as Hc2.
  assert (Hw4 : is_Some (heap stage2 !! 4%nat))
    by (apply (bool_decide_unpack _); vm_compute; exact I).
  destruct Hw4 as (w4 & Hw4).
  assert (Hp4 : parent <$> heap stage2 !! 4%nat = Some None)
    by (vm_compute; reflexivity).
  rewrite Hw4 in Hp4. injection Hp4 as Hp4.
  destruct (dialog_push_leaves_the_parent stage2 (mkDialog (Some 4%nat)) 2 4
              w2 w4) as (s' & _ & _ & H1 & _ & _ & _ & _ & H2).
  - vm_compute. reflexivity.
  - exact Hw2.
  - reflexivity.
  - exact Hw4.
  - intros l Hl. unfold TAILQ_LAST in Hl. rewrite Hc2 in Hl. discriminate.
  - exists s'. split; [exact H1 |]. apply H2. by rewrite Hp4.
Defined.

End TreeMore.

(** ** Drawing in a window *)

Section DrawFacts.

Import Flat Draw.
Local Open Scope char_scope.
Local Open Scope Z_scope.

(** X14.  [mutt_window_getxy] undoes [mutt_window_move].  Take a curses
    whose cursor is where a [move] that did not fail sent it.  After
    [mutt_window_move] to a row and column of a window, if the move did
    not fail, [mutt_window_getxy] on the same window gives that column and
    that row back, for every [int] row and column, wherever the window
    lies. *)
Theorem getxy_after_move (L : Curses) (g : Globals) (p : Win) (row col : Z)
  (t : Term) (w : MuttWindow) :
  win g p = Some w -> in_int row -> in_int col ->
  (forall r c l, result L (move r c) l <> ERR -> getyx L (l ++ [move r c]) = (r, c)) ->
  exists rc t',
    mutt_window_move L g p row col t = Some (rc, t')
    /\ (rc <> ERR ->
        mutt_window_getxy L g p true true t' = Some (Some col, Some row)).
Proof.
  intros Hw Hr Hc Hlaw. unfold mutt_window_move. rewrite Hw.
  cbn [mbind option_bind]. do 2 eexists. split; [reflexivity |].
  intros Hrc. unfold mutt_window_getxy. cbn [log].
  rewrite Hlaw by exact Hrc. rewrite Hw. cbn [mbind option_bind].
  by rewrite !to_int_sub_add.
Qed.

Lemma getxy_after_move_witness :
  exists rc t',
    mutt_window_move sample_curses (boot 24 80 true false false 20 false)
      Index 3 5 (mkTerm true []) = Some (rc, t')
    /\ (rc <> ERR ->
        mutt_window_getxy sample_curses (boot 24 80 true false false 20 false)
          Index true true t' = Some (Some 5, Some 3)).
Proof.
  eapply (getxy_after_move sample_curses
            (boot 24 80 true false false 20 false) Index 3 5 (mkTerm true [])).
  - vm_compute. reflexivity.
  - vm_compute. split; discriminate.
  - vm_compute. split; discriminate.
  - intros r c l _. unfold sample_curses. cbn [getyx].
    generalize (0, 0). induction l as [| a l IH]; intros at_; [done |].
    destruct a; cbn [app sample_cursor]; apply IH.
Defined.

(** The loop of [mutt_window_clrtoeol] returns, having written a blank for
    every column from [curcol] up to [limit]. *)
Lemma blank_loop_blanks L limit : forall fuel curcol t,
  in_int curcol -> limit <= INT_MAX ->
  (Z.to_nat (limit - curcol) <= fuel)%nat ->
  blank_loop L fuel curcol limit t
  = Some (mkTerm (stdscr t)
            (log t ++ replicate (Z.to_nat (limit - curcol)) (addch " "))).
Proof.
  induction fuel as [| fuel IH]; intros curcol t Hc Hl Hf.
  - cbn [blank_loop]. destruct (Z.ltb_spec curcol limit); [lia |].
    replace (Z.to_nat (limit - curcol)) with 0%nat by lia.
    cbn [replicate]. rewrite app_nil_r. by destruct t.
  - cbn [blank_loop]. destruct (Z.ltb_spec curcol limit).
    + rewrite to_int_id
        by (unfold in_int, INT_MIN, INT_MAX in *; lia).
      rewrite IH by (unfold in_int, INT_MIN, INT_MAX in *; lia).
      cbn [curses snd stdscr log]. do 2 f_equal.
      replace (Z.to_nat (limit - curcol))
        with (S (Z.to_nat (limit - (curcol + 1)))) by lia.
      cbn [replicate]. by rewrite <- List.app_assoc.
    + replace (Z.to_nat (limit - curcol)) with 0%nat by lia.
      cbn [replicate]. rewrite app_nil_r. by destruct t.
Qed.

(** [mutt_window_clrtoeol] on a window that exists, with [stdscr] set. *)
Lemma clrtoeol_live L g p t w :
  win g p = Some w -> stdscr t = true ->
  in_int (col_offset w + cols w) ->
  (col_offset w + cols w = COLS g ->
   mutt_window_clrtoeol L g p t = Some (mkTerm true (log t ++ [clrtoeol])))
  /\
  (col_offset w + cols w <> COLS g -> in_int (getyx L (log t)).2 ->
   mutt_window_clrtoeol L g p t
   = Some (mkTerm true
             (log t
              ++ replicate
                   (Z.to_nat (col_offset w + cols w - (getyx L (log t)).2))
                   (addch " ")
              ++ [move (getyx L (log t)).1 (getyx L (log t)).2]))).
Proof.
  unfold mutt_window_clrtoeol.
  intros Hw Hs Hi. rewrite Hw, Hs. cbn [negb].
  rewrite (to_int_id _ Hi). split.
  - intros He. rewrite (proj2 (Z.eqb_eq _ _) He). cbn [curses snd].
    by rewrite Hs.
  - intros Hne Hc. rewrite (proj2 (Z.eqb_neq _ _) Hne).
    destruct (getyx L (log t)) as [row col]. cbn [fst snd] in *.
    rewrite blank_loop_blanks;
      [| done | unfold in_int in Hi; lia | lia].
    cbn [mbind option_bind curses snd stdscr log].
    by rewrite Hs, <- List.app_assoc.
Qed.

(** X15.  [mutt_window_clrtoeol] stays inside the window.  It does nothing
    for a null window or without [stdscr].  For a window that ends at the
    right edge of the screen it makes the one call [clrtoeol].  For any
    other window it always returns, having written one blank for every
    column from the cursor up to, and not including, the first column right
    of the window (none when the cursor is already there or beyond), and
    then moved the cursor back to where it was. *)
Theorem clrtoeol_stays_in_window (L : Curses) (g : Globals) (p : Win)
  (t : Term) :
  (win g p = None -> mutt_window_clrtoeol L g p t = Some t) /\
  (stdscr t = false -> mutt_window_clrtoeol L g p t = Some t) /\
  (forall w, win g p = Some w -> stdscr t = true ->
     in_int (col_offset w + cols w) ->
     (col_offset w + cols w = COLS g ->
      mutt_window_clrtoeol L g p t = Some (mkTerm true (log t ++ [clrtoeol])))
     /\
     (col_offset w + cols w <> COLS g -> in_int (getyx L (log t)).2 ->
      mutt_window_clrtoeol L g p t
      = Some (mkTerm true
                (log t
                 ++ replicate
                      (Z.to_nat (col_offset w + cols w - (getyx L (log t)).2))
                      (addch " ")
                 ++ [move (getyx L (log t)).1 (getyx L (log t)).2])))).
Proof.
  unfold mutt_window_clrtoeol. split; [by intros -> |]. split.
  - intros Hs. rewrite Hs. by destruct (win g p).
  - intros w Hw Hs Hi. fold (mutt_window_clrtoeol L g p t).
    by apply clrtoeol_live.
Qed.

Lemma clrtoeol_stays_in_window_witness :
  mutt_window_clrtoeol sample_curses
    (set_win (fun _ => Some (mkWindow 1 10 0 5 true MUTT_WIN_ORIENT_VERTICAL
                               MUTT_WIN_SIZE_FIXED None []))
       (boot 24 80 true false false 20 false))
    Help (mkTerm true [move 0 12])
  = Some (mkTerm true [move 0 12; addch " "; addch " "; addch " "; move 0 12]).
Proof.
  apply (proj2 (proj2 (proj2 (clrtoeol_stays_in_window sample_curses
           (set_win (fun _ => Some (mkWindow 1 10 0 5 true
                                      MUTT_WIN_ORIENT_VERTICAL
                                      MUTT_WIN_SIZE_FIXED None []))
              (boot 24 80 true false false 20 false))
           Help (mkTerm true [move 0 12])))
           (mkWindow 1 10 0 5 true MUTT_WIN_ORIENT_VERTICAL
              MUTT_WIN_SIZE_FIXED None [])
           eq_refl eq_refl ltac:(vm_compute; split; discriminate))).
  - vm_compute. discriminate.
  - vm_compute. split; discriminate.
Defined.

(** X16.  [mutt_window_clearline] blanks the window's row.  On a null
    window it faults, although [mutt_window_clrtoeol] alone does not.  With
    a curses whose cursor is where a [move] that did not fail sent it, on a
    window of [cols >= 0] columns that does not end at the right edge of
    the screen, it moves to the start of the row, writes exactly [cols]
    blanks and moves back to the start of the row. *)
Theorem clearline_blanks_the_row (L : Curses) (g : Globals) (p : Win)
  (row : Z) (t : Term) :
  (win g p = None -> mutt_window_clearline L g p row t = None) /\
  (forall w, win g p = Some w -> stdscr t = true ->
     in_int (row_offset w + row) -> in_int (col_offset w) ->
     in_int (col_offset w + cols w) -> 0 <= cols w ->
     col_offset w + cols w <> COLS g ->
     (forall r c l, result L (move r c) l <> ERR ->
                    getyx L (l ++ [move r c]) = (r, c)) ->
     result L (move (row_offset w + row) (col_offset w)) (log t) <> ERR ->
     mutt_window_clearline L g p row t
     = Some (mkTerm true
               (log t ++ [move (row_offset w + row) (col_offset w)]
                ++ replicate (Z.to_nat (cols w)) (addch " ")
                ++ [move (row_offset w + row) (col_offset w)]))).
Proof.
  split.
  - intros Hw. unfold mutt_window_clearline, mutt_window_move. by rewrite Hw.
  - intros w Hw Hs Hr Hc Hi Hcols Hne Hlaw Hok.
    unfold mutt_window_clearline, mutt_window_move. rewrite Hw.
    cbn [mbind option_bind curses]. rewrite Z.add_0_r.
    rewrite (to_int_id _ Hr), (to_int_id _ Hc).
    set (t1 := mkTerm (stdscr t)
                 (log t ++ [move (row_offset w + row) (col_offset w)])).
    destruct (clrtoeol_live L g p t1 w) as [_ H];
      [done | done | done |].
    rewrite H; [| done |].
    + subst t1. cbn [log]. rewrite (Hlaw _ _ _ Hok). cbn [fst snd].
      replace (col_offset w + cols w - col_offset w) with (cols w) by lia.
      by rewrite <- !List.app_assoc.
    + subst t1. cbn [log]. by rewrite (Hlaw _ _ _ Hok).
Qed.

Lemma clearline_blanks_the_row_witness :
  mutt_window_clearline sample_curses
    (set_win (fun _ => Some (mkWindow 1 3 2 5 true MUTT_WIN_ORIENT_VERTICAL
                               MUTT_WIN_SIZE_FIXED None []))
       (boot 24 80 true false false 20 false))
    Help 0 (mkTerm true [])
  = Some (mkTerm true
            [move 2 5; addch " "; addch " "; addch " "; move 2 5]).
Proof.
  apply (proj2 (clearline_blanks_the_row sample_curses
           (set_win (fun _ => Some (mkWindow 1 3 2 5 true
                                      MUTT_WIN_ORIENT_VERTICAL
                                      MUTT_WIN_SIZE_FIXED None []))
              (boot 24 80 true false false 20 false))
           Help 0 (mkTerm true []))
           (mkWindow 1 3 2 5 true MUTT_WIN_ORIENT_VERTICAL
              MUTT_WIN_SIZE_FIXED None [])).
  - reflexivity.
  - reflexivity.
  - vm_compute. split; discriminate.
  - vm_compute. split; discriminate.
  - vm_compute. split; discriminate.
  - vm_compute. discriminate.
  - vm_compute. discriminate.
  - intros r c l _. unfold sample_curses. cbn [getyx].
    generalize (0, 0). induction l as [| a l IH]; intros at_; [done |].
    destruct a; cbn [app sample_cursor]; apply IH.
  - vm_compute. discriminate.
Defined.

End DrawFacts.

(** ** The curses signal handler *)

Section SignalFacts.

Import Signal.

Lemma set_errno_errno p : set_errno (errno p) p = p.
Proof. by destruct p. Qed.

(** What one signal leaves of the variables. *)
Lemma handler_variables L sig p :
  let p' := curses_signal_handler L sig p in
  errno p' = errno p /\ C_Suspend p' = C_Suspend p
  /\ SigWinch p' = (if resizes (C_Suspend p) sig then 1 else SigWinch p)
  /\ SigInt p' = (if is_SIGINT sig then 1 else SigInt p).
Proof.
  destruct sig; cbn; try done.
  - destruct (C_Suspend p) eqn:Hs; cbn; rewrite ?Hs; [| done].
    destruct (isendwin_answer L (calls p)); cbn; by rewrite ?Hs.
  - by destruct (IsEndwin p =? 0).
Qed.

(** X12.  Whatever signals arrive and whatever the library calls answer
    and do to [errno], the handler leaves [errno] and [C_Suspend] as they
    were and never clears a flag: afterwards [SigInt] is 1 if a [SIGINT]
    arrived and unchanged if none did, and [SigWinch] is 1 if a signal
    arrived that asks for a resize ([SIGWINCH], [SIGCONT], or [SIGTSTP]
    with [C_Suspend] set) and unchanged if none did. *)
Theorem signals_only_raise_flags (L : Lib) (sigs : list Signum) (p : Proc) :
  let p' := deliver L sigs p in
  errno p' = errno p /\ C_Suspend p' = C_Suspend p
  /\ SigInt p' = (if existsb is_SIGINT sigs then 1 else SigInt p)
  /\ SigWinch p'
     = (if existsb (resizes (C_Suspend p)) sigs then 1 else SigWinch p).
Proof.
  revert p. induction sigs as [| sig sigs IH]; intros p; [done |].
  unfold deliver in *. cbn [foldl existsb].
  destruct (handler_variables L sig p) as (He & Hs & Hw & Hi).
  destruct (IH (curses_signal_handler L sig p)) as (He' & Hs' & Hi' & Hw').
  cbv zeta. rewrite He', Hs', Hi', Hw', He, Hs, Hw, Hi. repeat split.
  - by destruct (is_SIGINT sig), (existsb is_SIGINT sigs).
  - by destruct (resizes (C_Suspend p) sig),
         (existsb (resizes (C_Suspend p)) sigs).
Qed.

(** X13.  A suspend request.  With [C_Suspend] off, [SIGTSTP] changes
    nothing and calls nothing.  With it on, the handler asks [isendwin],
    shows the cursor, stops the process, and asks for a resize; it leaves
    curses with [endwin] before the stop exactly when [isendwin] answered
    no, and in that case, and only then, calls [refresh] after it. *)
Theorem suspend_request (L : Lib) (p : Proc) :
  (C_Suspend p = false -> curses_signal_handler L SIGTSTP p = p) /\
  (C_Suspend p = true ->
   let ended := isendwin_answer L (calls p) in
   let p' := curses_signal_handler L SIGTSTP p in
   calls p'
   = calls p ++ [isendwin; curs_set 1]
     ++ (if ended then [] else [endwin]) ++ [kill_0_SIGSTOP]
     ++ (if ended then [] else [refresh]) ++ [mutt_curs_set (-1)]
   /\ IsEndwin p' = (if ended then 1 else 0) /\ SigWinch p' = 1
   /\ SigInt p' = SigInt p /\ errno p' = errno p).
Proof.
  split; intros Hs.
  - unfold curses_signal_handler. rewrite Hs. cbn. apply set_errno_errno.
  - unfold curses_signal_handler. rewrite Hs. cbn.
    destruct (isendwin_answer L (calls p)); cbn;
      repeat split; by rewrite <- ?List.app_assoc.
Qed.

Lemma suspend_request_witness :
  calls (curses_signal_handler sample_lib SIGTSTP (mkProc 0 0 0 7 true []))
  = [isendwin; curs_set 1; endwin; kill_0_SIGSTOP; refresh;
     mutt_curs_set (-1)].
Proof.
  apply (proj2 (suspend_request sample_lib (mkProc 0 0 0 7 true []))).
  reflexivity.
Defined.

End SignalFacts.

(** ** Format=flowed text *)

Section Rfc3676Facts.

Import Rfc3676.
Local Open Scope char_scope.
Local Open Scope Z_scope.

Lemma to_size_t_id z : 0 <= z < 2 ^ 64 -> to_size_t z = z.
Proof. intros H. unfold to_size_t. by rewrite Z.mod_small. Qed.

Lemma state_puts_puts a b s :
  state_puts b (state_puts a s) = state_puts (a ++ b) s.
Proof. unfold state_puts. cbn. by rewrite List.app_assoc. Qed.

Lemma state_puts_nil s : state_puts [] s = s.
Proof. destruct s. unfold state_puts. cbn. by rewrite app_nil_r. Qed.

Lemma space_quotes_puts e txt s :
  space_quotes e (state_puts txt s) = space_quotes e s.
Proof. reflexivity. Qed.

(** *** get_quote_level *)

Lemma quote_loop_counts p : forall q,
  0 <= q -> q + Z.of_nat (length p) <= INT_MAX ->
  exists n rest,
    p = replicate n ">" ++ rest /\ head rest <> Some ">"
    /\ quote_loop p q = q + Z.of_nat n.
Proof.
  induction p as [| c p IH]; intros q Hq Hl.
  - exists 0%nat, []. cbn. repeat split; [done | lia].
  - cbn [quote_loop]. destruct (Ascii.eqb_spec c ">") as [-> | Hc].
    + rewrite to_int_id by
        (unfold in_int, INT_MIN, INT_MAX in *; cbn [length] in Hl; lia).
      destruct (IH (q + 1)) as (n & rest & -> & Hr & ->);
        [lia | cbn [length] in Hl; lia |].
      exists (S n), rest. repeat split; [done | lia].
    + exists 0%nat, (c :: p). cbn. repeat split; [congruence | lia].
Qed.

(** X1.  [get_quote_level] counts the [>] characters a line starts with:
    a line shorter than [INT_MAX] is that many [>] followed by a rest that
    does not start with [>]; a null line has level 0. *)
Theorem get_quote_level_counts (line : list ascii) :
  Z.of_nat (length line) <= INT_MAX ->
  get_quote_level None = 0 /\
  exists n rest,
    line = replicate n ">" ++ rest /\ head rest <> Some ">"
    /\ get_quote_level (Some line) = Z.of_nat n.
Proof.
  intros Hl. split; [reflexivity |].
  destruct (quote_loop_counts line 0) as (n & rest & Hp & Hr & Hq);
    [lia | lia |].
  exists n, rest. repeat split; [done | done |]. cbn. rewrite Hq. lia.
Qed.

Lemma get_quote_level_counts_witness :
  exists n rest,
    [">"; ">"; " "; "a"] = replicate n ">" ++ rest /\ head rest <> Some ">"
    /\ get_quote_level (Some [">"; ">"; " "; "a"]) = Z.of_nat n.
Proof.
  apply (get_quote_level_counts [">"; ">"; " "; "a"]). vm_compute. discriminate.
Defined.

(** *** print_indent *)

(** The quote marks the loop of [print_indent] writes. *)
Lemma indent_loop e n s :
  Nat.iter n
    (fun s => let s := state_putc ">" s in
              if space_quotes e s then state_putc " " s else s) s
  = state_puts
      (concat (replicate n (if space_quotes e s then [">"; " "] else [">"])))
      s.
Proof.
  induction n as [| n IH].
  - cbn. by rewrite state_puts_nil.
  - rewrite Nat.iter_succ, IH. cbv zeta. unfold state_putc.
    rewrite !space_quotes_puts.
    destruct (space_quotes e s); rewrite !state_puts_puts; f_equal;
      clear IH; induction n as [| n IH]; cbn in *; [done | | done |];
      by rewrite IH.
Qed.

Lemma spaces_loop n s :
  Nat.iter n (state_putc " ") s = state_puts (replicate n " ") s.
Proof.
  induction n as [| n IH].
  - cbn. by rewrite state_puts_nil.
  - rewrite Nat.iter_succ, IH. unfold state_putc. rewrite state_puts_puts.
    f_equal. clear IH. induction n as [| n IH]; cbn in *; [done |].
    by rewrite IH.
Qed.

(** [print_indent] with all its cases spelled out. *)
Lemma print_indent_eq e ql s add :
  print_indent e ql s add =
    let ql' := match prefix s with
               | Some _ => if C_TextFlowed e then to_int (ql + 1) else ql
               | None => ql
               end in
    let pre := match prefix s with
               | Some pre => if C_TextFlowed e then [] else pre
               | None => []
               end in
    let wid := match prefix s with
               | Some pre => if C_TextFlowed e then 0
                             else to_size_t (to_int (mutt_strwidth e pre))
               | None => 0
               end in
    (to_size_t
       (to_int ((if space_quotes e s then to_int (ql' * 2) else ql') + add)
        + wid),
     state_puts
       (pre
        ++ concat (replicate (Z.to_nat ql')
                     (if space_quotes e s then [">"; " "] else [">"]))
        ++ (if negb (add =? 0) then [" "] else [])) s).
Proof.
  unfold print_indent. cbv zeta.
  destruct (prefix s) as [pre |] eqn:Hp; [destruct (C_TextFlowed e) eqn:Ht |];
    rewrite indent_loop, ?space_quotes_puts;
    destruct (negb (add =? 0)); unfold state_putc;
    rewrite ?state_puts_puts, ?space_quotes_puts, ?app_nil_r; reflexivity.
Qed.

Lemma length_marks n (m : list ascii) :
  length (concat (replicate n m)) = (n * length m)%nat.
Proof. induction n as [| n IH]; cbn; [done |]. rewrite length_app, IH. lia. Qed.

Lemma Forall_marks (P : ascii -> Prop) n (m : list ascii) :
  Forall P m -> Forall P (concat (replicate n m)).
Proof.
  intros Hm. induction n as [| n IH]; cbn; [constructor |].
  by apply Forall_app.
Qed.

Ltac int_bounds :=
  unfold in_int, INT_MIN, INT_MAX, in_short, SHRT_MIN, SHRT_MAX, FLOWED_MAX in *;
  change (2 ^ 31) with 2147483648 in *; change (2 ^ 15) with 32768 in *;
  change (2 ^ 29) with 536870912 in *;
  change (2 ^ 64) with 18446744073709551616 in *.

(** X2.  [print_indent] returns the number of columns it wrote: for a
    quote level from 0 to [2 ^ 29] and [add_suffix] 0 or 1, the text written
    is the prefix (when there is one and [C_TextFlowed] is off) followed by
    quote marks and spaces only, and the number returned is the display
    width of that prefix plus the number of those marks and spaces. *)
Theorem print_indent_returns_columns (e : Env) (ql : Z) (s : State)
  (add_suffix : Z) :
  0 <= ql <= 2 ^ 29 -> add_suffix = 0 \/ add_suffix = 1 ->
  (forall pre, prefix s = Some pre -> 0 <= mutt_strwidth e pre <= INT_MAX) ->
  let pre := match prefix s with
             | Some pre => if C_TextFlowed e then [] else pre
             | None => []
             end in
  let wid := match prefix s with
             | Some pre => if C_TextFlowed e then 0 else mutt_strwidth e pre
             | None => 0
             end in
  exists marks,
    (print_indent e ql s add_suffix).2 = state_puts (pre ++ marks) s
    /\ (print_indent e ql s add_suffix).1 = wid + Z.of_nat (length marks)
    /\ Forall (fun c => c = ">" \/ c = " ") marks.
Proof.
  intros Hql Hadd Hw. rewrite print_indent_eq. cbv zeta. cbn [fst snd].
  eexists. split; [reflexivity |]. split.
  - rewrite length_app, length_marks.
    assert (Hq : forall q, 0 <= q <= 2 ^ 29 + 1 ->
              to_size_t
                (to_int ((if space_quotes e s then to_int (q * 2) else q)
                         + add_suffix) + 0)
              = Z.of_nat
                  (Z.to_nat q
                     * length (if space_quotes e s then [">"; " "] else [">"])
                   + length (if negb (add_suffix =? 0) then [" "] else []))).
    { intros q Hq.
      assert (Hlen : Z.of_nat
                (Z.to_nat q
                 * length (if space_quotes e s then [">"; " "] else [">"])
                 + length (if negb (add_suffix =? 0) then [" "] else []))
              = (if space_quotes e s then q * 2 else q) + add_suffix).
      { destruct (space_quotes e s), Hadd as [-> | ->]; cbn [length negb Z.eqb];
          lia. }
      rewrite Hlen. int_bounds.
      destruct (space_quotes e s), Hadd as [-> | ->];
        rewrite ?(to_int_id (q * 2)) by (int_bounds; lia);
        rewrite to_int_id by (int_bounds; lia);
        rewrite to_size_t_id by lia; lia. }
    destruct (prefix s) as [pre |] eqn:Hp;
      [destruct (C_TextFlowed e) |].
    + rewrite (to_int_id (ql + 1)) by (int_bounds; lia).
      rewrite Hq by lia. lia.
    + specialize (Hw pre eq_refl).
      rewrite (to_int_id (mutt_strwidth e pre)) by (int_bounds; lia).
      rewrite (to_size_t_id (mutt_strwidth e pre)) by (int_bounds; lia).
      specialize (Hq ql ltac:(lia)). rewrite Z.add_0_r in Hq.
      assert (Hr : in_int ((if space_quotes e s then to_int (ql * 2) else ql)
                           + add_suffix)).
      { int_bounds.
        destruct (space_quotes e s), Hadd as [-> | ->];
          rewrite ?(to_int_id (ql * 2)) by (int_bounds; lia); int_bounds; lia. }
      assert (Hnn : 0 <= to_int ((if space_quotes e s then to_int (ql * 2)
                                  else ql) + add_suffix)).
      { rewrite to_int_id by exact Hr.
        destruct (space_quotes e s), Hadd as [-> | ->];
          rewrite ?(to_int_id (ql * 2)) by (int_bounds; lia); lia. }
      pose proof (to_int_range ((if space_quotes e s then to_int (ql * 2)
                                 else ql) + add_suffix)) as Hrange.
      rewrite to_size_t_id in Hq by (int_bounds; lia).
      rewrite to_size_t_id by (int_bounds; lia). lia.
    + rewrite Hq by lia. lia.
  - apply Forall_app. split.
    + apply Forall_marks.
      destruct (space_quotes e s);
        repeat first [apply List.Forall_nil
                     | apply List.Forall_cons; [first [by left | by right] |]].
    + destruct (negb _);
        repeat first [apply List.Forall_nil
                     | apply List.Forall_cons; [first [by left | by right] |]].
Qed.

Lemma print_indent_returns_columns_witness :
  exists marks,
    (print_indent (plain_env 80) 2 (display []) 1).2
      = state_puts marks (display [])
    /\ (print_indent (plain_env 80) 2 (display []) 1).1
       = Z.of_nat (length marks).
Proof.
  destruct (print_indent_returns_columns (plain_env 80) 2 (display []) 1)
    as (marks & H1 & H2 & _).
  - vm_compute. split; discriminate.
  - by right.
  - intros pre [=].
  - exists marks. split; [exact H1 | exact H2].
Defined.

(** X3.  When quoted text is displayed (no reply, no prefix, quote level
    above 0), the indent ends in exactly one space: with
    [C_ReflowSpaceQuotes] every quote mark is followed by a space and no
    suffix is added; without it the marks are written together and one
    space follows them. *)
Theorem indent_ends_in_one_space (e : Env) (s : State) (ql : Z) :
  replying s = false -> prefix s = None -> 0 < ql ->
  (print_indent e ql s (b2z (add_quote_suffix e s ql))).2 =
    state_puts
      (if C_ReflowSpaceQuotes e
       then concat (replicate (Z.to_nat ql) [">"; " "])
       else replicate (Z.to_nat ql) ">" ++ [" "]) s.
Proof.
  intros Hr Hp Hql. rewrite print_indent_eq. cbv zeta. cbn [snd].
  unfold add_quote_suffix, space_quotes, has_prefix. rewrite Hr, Hp.
  rewrite andb_false_r.
  destruct (Z.eqb_spec ql 0) as [-> | _]; [lia |].
  destruct (C_ReflowSpaceQuotes e); cbn [andb negb b2z Z.eqb app].
  - by rewrite app_nil_r.
  - rewrite andb_false_r. cbn [b2z negb Z.eqb]. f_equal. f_equal.
    generalize (Z.to_nat ql). intros n.
    induction n as [| n IH]; cbn; [done |]. by rewrite IH.
Qed.

Lemma indent_ends_in_one_space_witness :
  (print_indent (plain_env 80) 3 (display [])
     (b2z (add_quote_suffix (plain_env 80) (display []) 3))).2
  = state_puts [">"; ">"; ">"; " "] (display []).
Proof.
  apply (indent_ends_in_one_space (plain_env 80) (display []) 3);
    [reflexivity | reflexivity | lia].
Defined.

(** *** quote_width *)

Lemma wrap_cols_in_short width wrap :
  in_short width -> in_short wrap ->
  in_short (mutt_window_wrap_cols width wrap).
Proof.
  intros Hw Hs. unfold mutt_window_wrap_cols.
  rewrite (to_int_id (- wrap)) by (by apply in_int_neg_short).
  destruct (Z.ltb_spec wrap 0).
  - destruct (Z.gtb_spec width (- wrap)); [| done].
    rewrite to_int_id by (int_bounds; lia). int_bounds. lia.
  - destruct (negb _); [destruct (wrap <? width) |]; done.
Qed.

(** X4.  [quote_width] faults when there is no index window; with one it
    returns a width that is always positive, and at most [FLOWED_MAX] when
    a reply is written as format=flowed (quote level from 0 to [2 ^ 29],
    the window's columns and [C_ReflowWrap] being [short] values). *)
Theorem quote_width_positive (e : Env) (s : State) (ql : Z) :
  (Tree.MuttIndexWindow (windows e) = None -> quote_width e s ql = None) /\
  (forall c, index_cols e c ->
   exists w,
     quote_width e s ql = Some w /\ 0 < w /\
     (C_TextFlowed e = true -> replying s = true -> 0 <= ql <= 2 ^ 29 ->
      in_short c -> in_short (C_ReflowWrap e) -> w <= FLOWED_MAX)).
Proof.
  split; [intros H; unfold quote_width; by rewrite H |].
  intros c (p & win & Hp & Hw & Hc). unfold quote_width.
  rewrite Hp. cbn [mbind option_bind]. rewrite Hw. cbn [mbind option_bind].
  rewrite Hc. cbv zeta.
  set (W := mutt_window_wrap_cols c (C_ReflowWrap e)).
  destruct (C_TextFlowed e && replying s) eqn:Hfr.
  - eexists. split; [reflexivity |]. split.
    + destruct (Z.leb_spec
                  (if add_quote_suffix e s (to_int (ql + 1))
                   then to_int
                          (to_int
                             ((if W >? FLOWED_MAX then FLOWED_MAX else W)
                              - (if space_quotes e s
                                 then to_int (to_int (ql + 1) * 2)
                                 else to_int (ql + 1))) - 1)
                   else to_int
                          ((if W >? FLOWED_MAX then FLOWED_MAX else W)
                           - (if space_quotes e s
                              then to_int (to_int (ql + 1) * 2)
                              else to_int (ql + 1)))) 0);
        [unfold FLOWED_MAX | ]; lia.
    + intros Ht Hr Hql Hcs Hws.
      assert (HW : in_short W) by (by apply wrap_cols_in_short).
      unfold add_quote_suffix, space_quotes. rewrite Ht, Hr. cbn [andb].
      rewrite (to_int_id (ql + 1)) by (int_bounds; lia).
      destruct (Z.gtb_spec W FLOWED_MAX).
      * rewrite to_int_id by (int_bounds; lia).
        destruct (Z.leb_spec (FLOWED_MAX - (ql + 1)) 0); int_bounds; lia.
      * rewrite to_int_id by (int_bounds; lia).
        destruct (Z.leb_spec (W - (ql + 1)) 0); int_bounds; lia.
  - eexists. split; [reflexivity |]. split.
    + destruct (Z.leb_spec
                  (if add_quote_suffix e s ql
                   then to_int
                          (to_int
                             (W - (if space_quotes e s then to_int (ql * 2)
                                   else ql)) - 1)
                   else to_int
                          (W - (if space_quotes e s then to_int (ql * 2)
                                else ql))) 0);
        [unfold FLOWED_MAX | ]; lia.
    + intros Ht Hr. rewrite Ht, Hr in Hfr. discriminate.
Qed.

Lemma index_cols_plain c : index_cols (plain_env c) c.
Proof.
  exists 0%nat,
    (Tree.set_state_cols c
       (Tree.new_window MUTT_WIN_ORIENT_VERTICAL MUTT_WIN_SIZE_MAXIMISE
          MUTT_WIN_SIZE_UNLIMITED MUTT_WIN_SIZE_UNLIMITED)).
  split; [reflexivity |]. split; [| reflexivity].
  unfold plain_env, index_world. cbn [windows Tree.heap].
  apply lookup_singleton_eq.
Qed.

Lemma quote_width_positive_witness :
  exists w, quote_width (plain_env 80) (display []) 1 = Some w /\ 0 < w.
Proof.
  destruct (proj2 (quote_width_positive (plain_env 80) (display []) 1) 80)
    as (w & H1 & H2 & _).
  - apply (index_cols_plain 80).
  - exists w. split; [exact H1 | exact H2].
Defined.

Lemma quote_width_Some e s ql c :
  index_cols e c -> is_Some (quote_width e s ql).
Proof.
  intros (p & win & Hp & Hw & Hc). unfold quote_width.
  rewrite Hp. cbn [mbind option_bind]. rewrite Hw. cbn [mbind option_bind].
  cbv zeta. destruct (C_TextFlowed e && replying s); eauto.
Qed.

(** X5.  The paragraph width and the indent add up to the wrap column.
    When text is displayed without a prefix, [quote_width] is the wrap
    column of the index window less the number [print_indent] returns for
    the same quote level, as long as that leaves a positive width; when a
    format=flowed reply is written with a prefix, the same holds of the wrap
    column capped at [FLOWED_MAX]. *)
Theorem quote_width_leaves_indent (e : Env) (s : State) (ql c : Z) :
  index_cols e c -> in_short c -> in_short (C_ReflowWrap e) ->
  0 <= ql <= 2 ^ 29 ->
  let W := mutt_window_wrap_cols c (C_ReflowWrap e) in
  let n := (print_indent e ql s (b2z (add_quote_suffix e s ql))).1 in
  (replying s = false -> prefix s = None -> n < W ->
   quote_width e s ql = Some (W - n)) /\
  (replying s = true -> C_TextFlowed e = true -> is_Some (prefix s) ->
   n < Z.min W FLOWED_MAX ->
   quote_width e s ql = Some (Z.min W FLOWED_MAX - n)).
Proof.
  intros (p & win & Hp & Hw & Hc) Hcs Hws Hql W n.
  assert (HW : in_short W) by (by apply wrap_cols_in_short).
  subst n. rewrite print_indent_eq. cbv zeta. cbn [fst].
  unfold quote_width. rewrite Hp. cbn [mbind option_bind]. rewrite Hw.
  cbn [mbind option_bind]. rewrite Hc. fold W. cbv zeta.
  unfold add_quote_suffix, space_quotes, has_prefix.
  split.
  - intros Hr Hn. rewrite Hr, Hn, andb_false_r. cbv iota. cbn [negb andb].
    rewrite andb_false_r. cbv iota. rewrite andb_true_r.
    rewrite Z.add_0_r.
    destruct (C_ReflowSpaceQuotes e).
    + cbn [b2z]. rewrite (to_int_id (ql * 2)) by (int_bounds; lia).
      rewrite Z.add_0_r.
      rewrite (to_int_id (ql * 2)) by (int_bounds; lia).
      rewrite to_size_t_id by (int_bounds; lia).
      rewrite to_int_id by (int_bounds; lia). intros Hlt.
      destruct (Z.leb_spec (W - ql * 2) 0); [lia | done].
    + destruct (Z.eqb_spec ql 0) as [-> | Hne]; cbn [b2z].
      * change (to_int (0 + 0)) with 0. change (to_size_t 0) with 0.
        rewrite to_int_id by (int_bounds; lia). intros Hlt.
        destruct (Z.leb_spec (W - 0) 0); [lia |]. f_equal.
      * rewrite (to_int_id (ql + 1)) by (int_bounds; lia).
        rewrite to_size_t_id by (int_bounds; lia).
        rewrite (to_int_id (W - ql)) by (int_bounds; lia).
        rewrite to_int_id by (int_bounds; lia). intros Hlt.
        destruct (Z.leb_spec (W - ql - 1) 0); [lia |]. f_equal. lia.
  - intros Hr Ht [pre Hpre]. rewrite Hr, Ht, Hpre. cbn [andb b2z]. cbv iota.
    rewrite !Z.add_0_r.
    rewrite !(to_int_id (ql + 1)) by (int_bounds; lia).
    rewrite to_size_t_id by (int_bounds; lia). intros Hlt.
    destruct (Z.gtb_spec W FLOWED_MAX).
    + rewrite Z.min_r in * by lia.
      rewrite to_int_id by (int_bounds; lia).
      destruct (Z.leb_spec (FLOWED_MAX - (ql + 1)) 0); [lia | done].
    + rewrite Z.min_l in * by lia.
      rewrite to_int_id by (int_bounds; lia).
      destruct (Z.leb_spec (W - (ql + 1)) 0); [lia | done].
Qed.

Lemma quote_width_leaves_indent_witness :
  quote_width (plain_env 80) (display []) 2 = Some (80 - 3).
Proof.
  apply (quote_width_leaves_indent (plain_env 80) (display []) 2 80).
  - apply (index_cols_plain 80).
  - vm_compute. split; discriminate.
  - vm_compute. split; discriminate.
  - vm_compute. split; discriminate.
  - reflexivity.
  - reflexivity.
  - vm_compute. reflexivity.
Defined.




(** *** The handler on lines that are not quoted *)

Lemma quote_loop_unquoted buf q : head buf <> Some ">" -> quote_loop buf q = q.
Proof.
  destruct buf as [| c buf]; [done |]. cbn.
  destruct (Ascii.eqb_spec c ">") as [-> | _]; [by intros [] | done].
Qed.

Lemma flush_par_eq s fst :
  flush_par s fst =
    (state_puts (if 0 <? width fst then [LF] else []) s,
     mkFlowed (if 0 <? width fst then 0 else width fst) 0 (delsp fst)).
Proof.
  unfold flush_par. destruct (0 <? width fst); [reflexivity |].
  by rewrite state_puts_nil.
Qed.

Lemma print_indent_plain e s add :
  prefix s = None ->
  (print_indent e 0 s add).2
  = state_puts (if negb (add =? 0) then [" "] else []) s.
Proof. intros Hp. rewrite print_indent_eq. cbv zeta. by rewrite Hp. Qed.

Lemma add_quote_suffix_plain e s :
  prefix s = None -> add_quote_suffix e s 0 = false.
Proof.
  intros Hp. unfold add_quote_suffix, has_prefix. rewrite Hp.
  by destruct (replying s), (space_quotes e s).
Qed.

Lemma print_fixed_line_plain e line s fst :
  prefix s = None ->
  print_fixed_line e (Some line) s 0 fst
  = (state_puts (line ++ [LF]) s, mkFlowed 0 0 (delsp fst)).
Proof.
  intros Hp. unfold print_fixed_line.
  pose proof (print_indent_plain e s (b2z (add_quote_suffix e s 0)) Hp) as Hi.
  destruct (print_indent e 0 s (b2z (add_quote_suffix e s 0))) as [n s'].
  cbn [snd] in Hi. subst s'. rewrite add_quote_suffix_plain by done.
  cbn [b2z negb Z.eqb]. rewrite state_puts_nil. unfold state_putc.
  destruct line; [by rewrite app_nil_l | by rewrite state_puts_puts].
Qed.

Lemma unstuffed_drop buf :
  drop (Z.to_nat (if bool_decide (buf !! Z.to_nat 0 = Some " ")
                  then to_int (0 + 1) else 0)) buf
  = unstuffed buf.
Proof.
  destruct buf as [| c buf]; [done |].
  change (Z.to_nat 0) with 0%nat. cbn [lookup list_lookup unstuffed].
  destruct (Ascii.eqb_spec c " ") as [-> | Hc].
  - rewrite bool_decide_true by done. reflexivity.
  - rewrite bool_decide_false by congruence. reflexivity.
Qed.

(** The turn of the loop on a line that does not start with [>], at quote
    level 0. *)
Lemma handler_line_unquoted e dsp buf s fst :
  head buf <> Some ">" ->
  handler_line e dsp buf (s, fst, 0) =
    let sigsep := bool_decide (unstuffed buf = ["-"; "-"; " "]) in
    let fixed :=
      bool_decide (unstuffed buf = [])
      || negb (bool_decide (List.last buf NUL = " ")) || sigsep in
    if (fixed && ((width fst =? 0) || bool_decide (buf = []))) || sigsep then
      let '(s, fst) := flush_par s fst in
      let '(s, fst) := print_fixed_line e (Some (unstuffed buf)) s 0 fst in
      Some (s, fst, 0)
    else
      '(s, fst) ←
        print_flowed_line e
          (Some (unstuffed (if dsp && negb fixed then removelast buf else buf)))
          s 0 fst fixed;
      Some (s, fst, 0).
Proof.
  intros Hq. unfold handler_line. cbn [get_quote_level].
  rewrite quote_loop_unquoted by done.
  change (to_uint 0) with 0. change (0 =? 0) with true. cbn [negb].
  change (to_int 0) with 0. cbv zeta.
  assert (Hlen : (Z.of_nat (length buf)
                  =? to_size_t (if bool_decide (buf !! Z.to_nat 0 = Some " ")
                                then to_int (0 + 1) else 0))
                 = bool_decide (unstuffed buf = [])).
  { destruct buf as [| c buf]; [done |]. cbn [unstuffed].
    change (Z.to_nat 0) with 0%nat. cbn [lookup list_lookup].
    destruct (Ascii.eqb_spec c " ") as [-> | Hc].
    - rewrite bool_decide_true by done. change (to_size_t (to_int (0 + 1))) with 1.
      destruct buf; [done |]. rewrite bool_decide_false by done.
      apply Z.eqb_neq. cbn [length]. lia.
    - rewrite bool_decide_false by congruence.
      rewrite bool_decide_false by done. apply Z.eqb_neq. cbn [length].
      change (to_size_t 0) with 0. lia. }
  assert (Hnil : (Z.of_nat (length buf) =? 0) = bool_decide (buf = [])).
  { destruct buf; [done |]. rewrite bool_decide_false by done.
    apply Z.eqb_neq. cbn [length]. lia. }
  rewrite Hlen, Hnil, !unstuffed_drop.
  destruct ((bool_decide (unstuffed buf = [])
             || negb (bool_decide (List.last buf NUL = " "))
             || bool_decide (unstuffed buf = ["-"; "-"; " "]))
            && ((width fst =? 0) || bool_decide (buf = []))
            || bool_decide (unstuffed buf = ["-"; "-"; " "])) eqn:Hb;
    [reflexivity |].
  set (fixed := bool_decide (unstuffed buf = [])
                || negb (bool_decide (List.last buf NUL = " "))
                || bool_decide (unstuffed buf = ["-"; "-"; " "])).
  assert (Hd : drop
                 (Z.to_nat (if bool_decide (buf !! Z.to_nat 0 = Some " ")
                            then to_int (0 + 1) else 0))
                 (if dsp && negb fixed then removelast buf else buf)
               = unstuffed (if dsp && negb fixed then removelast buf else buf)).
  { destruct (dsp && negb fixed) eqn:Hdf; [| apply unstuffed_drop].
    destruct buf as [| c buf]; [done |].
    change (Z.to_nat 0) with 0%nat. cbn [lookup list_lookup].
    destruct (Ascii.eqb_spec c " ") as [-> | Hc].
    - rewrite bool_decide_true by done. change (Z.to_nat (to_int (0 + 1))) with 1%nat.
      destruct buf as [| d buf]; [done |]. cbn [removelast unstuffed].
      change (Ascii.eqb " " " ") with true. cbv iota. reflexivity.
    - rewrite bool_decide_false by congruence. change (Z.to_nat 0) with 0%nat.
      destruct buf as [| d buf]; [done |]. cbn [removelast unstuffed drop].
      destruct (Ascii.eqb_spec c " "); [done | reflexivity]. }
  rewrite Hd. reflexivity.
Qed.

(** *** Fixed lines *)

Lemma handler_line_fixed e dsp buf s fst :
  prefix s = None -> width fst = 0 -> plain_fixed buf ->
  handler_line e dsp buf (s, fst, 0)
  = Some (state_puts (unstuffed buf ++ [LF]) s, mkFlowed 0 0 (delsp fst), 0).
Proof.
  intros Hp Hw [Hq Hf]. rewrite handler_line_unquoted by done. cbv zeta.
  rewrite Hw. change (0 =? 0) with true. rewrite orb_true_l, andb_true_r.
  assert (Hfixed : bool_decide (unstuffed buf = [])
                   || negb (bool_decide (List.last buf NUL = " "))
                   || bool_decide (unstuffed buf = ["-"; "-"; " "]) = true).
  { destruct Hf as [Hf | [Hf | Hf]].
    - by rewrite (bool_decide_true _ Hf).
    - rewrite (bool_decide_false _ Hf). cbn [negb]. by rewrite orb_true_r.
    - rewrite (bool_decide_true (unstuffed buf = ["-"; "-"; " "]) Hf).
      by rewrite orb_true_r. }
  rewrite Hfixed. cbn [orb]. rewrite flush_par_eq, Hw.
  change (0 <? 0) with false. cbv iota. rewrite state_puts_nil.
  rewrite print_fixed_line_plain by done. reflexivity.
Qed.

Lemma handler_loop_fixed e dsp lines : forall s fst,
  prefix s = None -> width fst = 0 -> Forall plain_fixed lines ->
  exists fst',
    handler_loop e dsp lines (s, fst, 0)
    = Some (state_puts (concat (map (fun b => unstuffed b ++ [LF]) lines)) s,
            fst', 0)
    /\ width fst' = 0.
Proof.
  induction lines as [| buf lines IH]; intros s fst Hp Hw Hl.
  - exists fst. cbn. by rewrite state_puts_nil.
  - apply Forall_cons in Hl as [Hb Hl]. cbn [handler_loop].
    rewrite handler_line_fixed by done. cbn [mbind option_bind].
    destruct (IH (state_puts (unstuffed buf ++ [LF]) s)
                (mkFlowed 0 0 (delsp fst)) Hp eq_refl Hl) as (fst' & -> & Hw').
    exists fst'. split; [| done]. cbn [map concat].
    by rewrite state_puts_puts.
Qed.

Lemma handler_fixed e a s :
  prefix s = None -> Forall plain_fixed (fp_in s) ->
  rfc3676_handler e a s
  = Some (0, mkState (replying s) None []
               (fp_out s
                ++ concat (map (fun b => unstuffed b ++ [LF]) (fp_in s)))).
Proof.
  intros Hp Hl. unfold rfc3676_handler. cbv zeta.
  set (s0 := mkState (replying s) (prefix s) [] (fp_out s)).
  assert (Hfst : exists dsp fst,
             (match parameter_delsp a with
              | Some t => (is_yes t, set_delsp true (mkFlowed 0 0 false))
              | None => (false, mkFlowed 0 0 false)
              end) = (dsp, fst) /\ width fst = 0).
  { destruct (parameter_delsp a); eauto. }
  destruct Hfst as (dsp & fst & -> & Hw).
  destruct (handler_loop_fixed e dsp (fp_in s) s0 fst Hp Hw Hl)
    as (fst' & -> & Hw').
  cbn [mbind option_bind]. rewrite flush_par_eq, Hw'.
  change (0 <? 0) with false. cbv iota. rewrite state_puts_nil.
  subst s0. unfold state_puts. cbn. by rewrite Hp.
Qed.

(** X6.  Fixed text passes through the handler.  With no prefix, when no
    line of the input starts with [>] and every line is empty once
    unstuffed, or does not end in a space, or is the signature separator,
    the handler returns 0 with the input read to its end, and has written
    every line, less the space that space-stuffing put before it, followed
    by a newline. *)
Theorem fixed_text_passes_through (e : Env) (a : Body) (s : State) :
  prefix s = None -> Forall plain_fixed (fp_in s) ->
  exists s',
    rfc3676_handler e a s = Some (0, s') /\ fp_in s' = []
    /\ fp_out s'
       = fp_out s ++ concat (map (fun b => unstuffed b ++ [LF]) (fp_in s)).
Proof.
  intros Hp Hl. eexists. split; [by apply handler_fixed |]. by split.
Qed.

Lemma fixed_text_passes_through_witness :
  exists s',
    rfc3676_handler (plain_env 80) (mkBody None None)
      (display [["a"; " "; "b"]; []; [" "; "F"; "r"; "o"; "m"]])
    = Some (0, s')
    /\ fp_out s' = ["a"; " "; "b"; LF; LF; "F"; "r"; "o"; "m"; LF].
Proof.
  destruct (fixed_text_passes_through (plain_env 80) (mkBody None None)
              (display [["a"; " "; "b"]; []; [" "; "F"; "r"; "o"; "m"]]))
    as (s' & H1 & _ & H2).
  - reflexivity.
  - repeat apply List.Forall_cons; try apply List.Forall_nil;
      (split; [cbn; congruence |]); cbn; auto.
  - exists s'. split; [exact H1 | exact H2].
Defined.

(** *** The round trip with space-stuffing *)

Lemma c_string_id l : NUL ∉ l -> c_string l = l.
Proof.
  induction l as [| c l IH]; [done |]. intros Hn. cbn.
  destruct (Ascii.eqb_spec c NUL) as [-> | _].
  - exfalso. apply Hn. by left.
  - rewrite IH; [done |]. intros H. apply Hn. by right.
Qed.

Lemma unstuffed_stuff l : NUL ∉ l -> unstuffed (stuff l) = l.
Proof.
  intros Hn. unfold stuff. rewrite c_string_id by done.
  destruct (bool_decide (head l = Some " ") || starts_with_From l) eqn:Hb.
  - reflexivity.
  - cbn [app]. apply orb_false_iff in Hb as [Hb _].
    apply bool_decide_eq_false in Hb. destruct l as [| c l]; [done |].
    cbn. destruct (Ascii.eqb_spec c " ") as [-> | _]; [by destruct Hb | done].
Qed.

Lemma plain_fixed_stuff l :
  NUL ∉ l -> head l <> Some ">" ->
  List.last l NUL <> " " \/ l = ["-"; "-"; " "] ->
  plain_fixed (stuff l).
Proof.
  intros Hn Hq Hl. split.
  - unfold stuff. rewrite c_string_id by done.
    destruct (_ || _); [cbn; congruence | done].
  - rewrite unstuffed_stuff by done.
    destruct Hl as [Hl | ->]; [| by (right; right)].
    destruct l as [| c l]; [by left |]. right. left.
    unfold stuff. rewrite c_string_id by done.
    destruct (_ || _); [| done]. cbn [app].
    change ([" "] ++ c :: l) with (" " :: c :: l). exact Hl.
Qed.

(** *** What the handler keeps of the text *)

Lemma ink_app a b : ink (a ++ b) = ink a ++ ink b.
Proof. apply filter_app. Qed.

Lemma ink_spaces n : ink (replicate n " ") = [].
Proof.
  induction n as [| n IH]; [done |]. cbn [replicate]. unfold ink.
  rewrite filter_cons_False by (intros [H _]; by apply H). exact IH.
Qed.

Lemma ink_LF : ink [LF] = [].
Proof. unfold ink. by rewrite filter_cons_False by (intros [_ H]; by apply H). Qed.

Lemma ink_space : ink [" "] = [].
Proof. apply (ink_spaces 1). Qed.

Lemma ink_unstuffed buf : ink (unstuffed buf) = ink buf.
Proof.
  destruct buf as [| c buf]; [done |]. cbn [unstuffed].
  destruct (Ascii.eqb_spec c " ") as [-> | _]; [| done].
  unfold ink. by rewrite filter_cons_False by (intros [H _]; by apply H).
Qed.

Lemma ink_removelast buf :
  List.last buf NUL = " " -> ink (removelast buf) = ink buf.
Proof.
  intros Hl. destruct (decide (buf = [])) as [-> | Hne]; [done |].
  rewrite (app_removelast_last NUL Hne) at 2. rewrite Hl, ink_app, ink_space.
  by rewrite app_nil_r.
Qed.

Lemma strsep_tokens_cons l : exists p ps, strsep_tokens l = p :: ps.
Proof.
  destruct l as [| c l]; cbn; [eauto |].
  destruct (Ascii.eqb c " "); [eauto |]. destruct (strsep_tokens l); eauto.
Qed.

Lemma ink_tokens l : ink (concat (strsep_tokens l)) = ink l.
Proof.
  induction l as [| c l IH]; [done |]. cbn [strsep_tokens].
  destruct (Ascii.eqb_spec c " ") as [-> | Hc].
  - cbn [concat app]. rewrite IH. unfold ink.
    by rewrite filter_cons_False by (intros [H _]; by apply H).
  - destruct (strsep_tokens_cons l) as (p & ps & Ht). rewrite Ht in *.
    cbn [concat] in *. change ((c :: p) ++ concat ps) with (c :: p ++ concat ps).
    unfold ink in *. rewrite !filter_cons. by rewrite IH.
Qed.

Lemma print_indent_plain0 e s :
  prefix s = None ->
  print_indent e 0 s (b2z (add_quote_suffix e s 0)) = (0, s).
Proof.
  intros Hp. rewrite print_indent_eq. cbv zeta.
  rewrite add_quote_suffix_plain by done. rewrite Hp.
  cbn [b2z negb Z.eqb Z.to_nat replicate concat app].
  rewrite state_puts_nil. by destruct (space_quotes e s).
Qed.

(** One turn of the loop of [print_flowed_line] writes the word after
    spaces and newlines only. *)
Lemma flowed_word_ink e wd last s fst words p :
  prefix s = None ->
  exists txt fst' words',
    flowed_word e 0 wd last (s, fst, words) p = (state_puts txt s, fst', words')
    /\ ink txt = ink p.
Proof.
  intros Hp. unfold flowed_word. destruct p as [| c p].
  { exists [], (set_spaces (to_size_t (spaces fst + 1)) fst), words.
    by rewrite state_puts_nil. }
  cbv zeta.
  set (fst1 := if negb (words =? 0)
               then set_spaces (to_size_t (spaces fst + 1)) fst else fst).
  set (w := to_size_t (to_int (mutt_strwidth e (c :: p)))).
  destruct (negb ((spaces fst1 =? 0) && delsp fst1 && negb (Ascii.eqb last " "))
            && (w <? wd)
            && (to_size_t (to_size_t (w + width fst1) + spaces fst1) >? wd)).
  - change (0 =? 0) with true. cbn [andb width set_spaces set_width].
    change (0 =? 0) with true. cbv iota.
    rewrite print_indent_plain0
      by (destruct (C_TextFlowed e); rewrite ?spaces_loop; exact Hp).
    cbn [spaces set_spaces set_width]. change (Z.to_nat 0) with 0%nat.
    rewrite !spaces_loop. unfold state_putc. cbn [replicate].
    rewrite state_puts_nil.
    destruct (C_TextFlowed e); rewrite !state_puts_puts; do 3 eexists;
      (split; [reflexivity |]);
      rewrite !ink_app, ?ink_spaces, ink_LF; reflexivity.
  - destruct ((words =? 0) && (width fst1 =? 0)).
    + rewrite print_indent_plain0 by done.
      cbn [spaces set_spaces set_width]. rewrite spaces_loop.
      rewrite !state_puts_puts.
      do 3 eexists. split; [reflexivity |].
      by rewrite ink_app, ink_spaces.
    + cbn [spaces set_spaces set_width]. rewrite spaces_loop.
      rewrite !state_puts_puts. do 3 eexists. split; [reflexivity |].
      by rewrite ink_app, ink_spaces.
Qed.

Lemma flowed_words_ink e wd last tokens : forall s fst words,
  prefix s = None ->
  exists txt fst' words',
    foldl (flowed_word e 0 wd last) (s, fst, words) tokens
    = (state_puts txt s, fst', words')
    /\ ink txt = ink (concat tokens).
Proof.
  induction tokens as [| p tokens IH]; intros s fst words Hp.
  - exists [], fst, words. by rewrite state_puts_nil.
  - cbn [foldl].
    destruct (flowed_word_ink e wd last s fst words p Hp)
      as (t1 & fst1 & words1 & -> & H1).
    destruct (IH (state_puts t1 s) fst1 words1 Hp)
      as (t2 & fst2 & words2 & -> & H2).
    exists (t1 ++ t2), fst2, words2. rewrite state_puts_puts.
    split; [done |]. cbn [concat]. by rewrite !ink_app, H1, H2.
Qed.

Lemma print_flowed_line_ink e l s fst term c :
  prefix s = None -> index_cols e c ->
  exists txt fst',
    print_flowed_line e (Some l) s 0 fst term = Some (state_puts txt s, fst')
    /\ ink txt = ink l.
Proof.
  intros Hp Hc. unfold print_flowed_line. destruct l as [| a l].
  - rewrite flush_par_eq.
    pose proof (print_indent_plain e
                  (state_puts (if 0 <? width fst then [LF] else []) s) 0 Hp)
      as Hi.
    destruct (print_indent e 0 _ 0) as [n s']. cbn [snd] in Hi. subst s'.
    cbn [negb Z.eqb]. rewrite state_puts_nil. unfold state_putc.
    rewrite state_puts_puts. do 2 eexists. split; [reflexivity |].
    rewrite ink_app, ink_LF. by destruct (0 <? width fst).
  - destruct (quote_width_Some e s 0 c Hc) as [wd ->].
    cbn [mbind option_bind]. cbv zeta.
    destruct (flowed_words_ink e (to_size_t wd) (List.last (a :: l) NUL)
                (strsep_tokens (a :: l)) s fst 0 Hp)
      as (txt & fst' & words' & -> & Hi).
    rewrite ink_tokens in Hi. destruct term.
    + rewrite flush_par_eq, state_puts_puts. do 2 eexists.
      split; [reflexivity |]. rewrite ink_app, Hi.
      destruct (0 <? width fst'); by rewrite ?ink_LF, app_nil_r.
    + by do 2 eexists.
Qed.

Lemma handler_line_ink e dsp buf s fst c :
  prefix s = None -> index_cols e c -> head buf <> Some ">" ->
  exists txt fst',
    handler_line e dsp buf (s, fst, 0) = Some (state_puts txt s, fst', 0)
    /\ ink txt = ink buf.
Proof.
  intros Hp Hc Hq. rewrite handler_line_unquoted by done. cbv zeta.
  set (fixed := bool_decide (unstuffed buf = [])
                || negb (bool_decide (List.last buf NUL = " "))
                || bool_decide (unstuffed buf = ["-"; "-"; " "])).
  destruct (fixed && ((width fst =? 0) || bool_decide (buf = []))
            || bool_decide (unstuffed buf = ["-"; "-"; " "])).
  - rewrite flush_par_eq, print_fixed_line_plain by done.
    rewrite state_puts_puts. do 2 eexists. split; [reflexivity |].
    rewrite !ink_app, ink_LF, ink_unstuffed, app_nil_r.
    by destruct (0 <? width fst).
  - destruct (print_flowed_line_ink e
                (unstuffed (if dsp && negb fixed then removelast buf else buf))
                s fst fixed c Hp Hc) as (txt & fst' & -> & Hi).
    cbn [mbind option_bind]. exists txt, fst'. split; [done |].
    rewrite Hi, ink_unstuffed. destruct (dsp && negb fixed) eqn:Hd; [| done].
    apply ink_removelast. apply andb_true_iff in Hd as [_ Hd].
    apply negb_true_iff in Hd. subst fixed.
    apply orb_false_iff in Hd as [Hd _]. apply orb_false_iff in Hd as [_ Hd].
    apply negb_false_iff in Hd. by apply bool_decide_eq_true in Hd.
Qed.

Lemma handler_loop_ink e dsp c lines : forall s fst,
  prefix s = None -> index_cols e c ->
  Forall (fun b => head b <> Some ">") lines ->
  exists txt fst',
    handler_loop e dsp lines (s, fst, 0) = Some (state_puts txt s, fst', 0)
    /\ ink txt = ink (concat lines).
Proof.
  induction lines as [| buf lines IH]; intros s fst Hp Hc Hl.
  - exists [], fst. by rewrite state_puts_nil.
  - apply Forall_cons in Hl as [Hb Hl]. cbn [handler_loop].
    destruct (handler_line_ink e dsp buf s fst c Hp Hc Hb)
      as (t1 & fst1 & -> & H1).
    cbn [mbind option_bind].
    destruct (IH (state_puts t1 s) fst1 Hp Hc Hl) as (t2 & fst2 & -> & H2).
    exists (t1 ++ t2), fst2. rewrite state_puts_puts. split; [done |].
    cbn [concat]. by rewrite !ink_app, H1, H2.
Qed.

(** X8.  The handler changes white space only.  With an index window, no
    prefix and no line that starts with [>], the handler returns 0, and the
    characters it has written, spaces and newlines left out, are the
    characters of the input lines in their order, spaces and newlines left
    out: whatever the width, DelSp and the configuration, no other
    character is dropped, added or moved. *)
Theorem handler_keeps_the_text (e : Env) (a : Body) (s : State) (c : Z) :
  prefix s = None -> index_cols e c ->
  Forall (fun b => head b <> Some ">") (fp_in s) ->
  exists s',
    rfc3676_handler e a s = Some (0, s')
    /\ ink (fp_out s') = ink (fp_out s) ++ ink (concat (fp_in s)).
Proof.
  intros Hp Hc Hl. unfold rfc3676_handler. cbv zeta.
  set (s0 := mkState (replying s) (prefix s) [] (fp_out s)).
  destruct (match parameter_delsp a with
            | Some t => (is_yes t, set_delsp true (mkFlowed 0 0 false))
            | None => (false, mkFlowed 0 0 false)
            end) as [dsp fst].
  destruct (handler_loop_ink e dsp c (fp_in s) s0 fst Hp Hc Hl)
    as (txt & fst' & -> & Hi).
  cbn [mbind option_bind]. rewrite flush_par_eq, state_puts_puts.
  eexists. split; [reflexivity |]. cbn [fp_out state_puts s0].
  rewrite !ink_app, Hi. destruct (0 <? width fst'); by rewrite ?ink_LF, app_nil_r.
Qed.

Lemma handler_keeps_the_text_witness :
  exists s',
    rfc3676_handler (plain_env 10) (mkBody None None)
      (display [["a"; "b"; " "; "c"; " "]; ["d"; "e"; "f"; "g"; " "; "h"; "i"]])
    = Some (0, s')
    /\ ink (fp_out s') = ["a"; "b"; "c"; "d"; "e"; "f"; "g"; "h"; "i"].
Proof.
  apply (handler_keeps_the_text (plain_env 10) (mkBody None None)
           (display [["a"; "b"; " "; "c"; " "];
                     ["d"; "e"; "f"; "g"; " "; "h"; "i"]]) 10).
  - reflexivity.
  - apply (index_cols_plain 10).
  - repeat apply List.Forall_cons; try apply List.Forall_nil; cbn; congruence.
Defined.

(** X9.  The signature separator always stands on a line of its own.
    Whatever paragraph is open and whatever the quote level of the line
    before, the turn of the handler's loop on the line [-- ], stuffed with a
    space or not, with no prefix, ends the open paragraph with a newline if
    there is one, writes [-- ] and a newline, and leaves no paragraph
    open. *)
Theorem signature_separator_stands_alone (e : Env) (dsp : bool) (s : State)
  (fst : FlowedState) (q : Z) (buf : list ascii) :
  prefix s = None ->
  buf = ["-"; "-"; " "] \/ buf = [" "; "-"; "-"; " "] ->
  handler_line e dsp buf (s, fst, q)
  = Some (state_puts ((if 0 <? width fst then [LF] else [])
                      ++ ["-"; "-"; " "; LF]) s,
          mkFlowed 0 0 (delsp fst), 0).
Proof.
  intros Hp Hbuf.
  assert (H0 : forall s fst, prefix s = None ->
            handler_line e dsp buf (s, fst, 0)
            = Some (state_puts ((if 0 <? width fst then [LF] else [])
                                ++ ["-"; "-"; " "; LF]) s,
                    mkFlowed 0 0 (delsp fst), 0)).
  { intros s1 fst1 Hp1. rewrite handler_line_unquoted
      by (destruct Hbuf as [-> | ->]; cbn; congruence).
    cbv zeta.
    assert (Hu : unstuffed buf = ["-"; "-"; " "])
      by (by destruct Hbuf as [-> | ->]).
    rewrite Hu. rewrite (bool_decide_true (_ = ["-"; "-"; " "])) by done.
    rewrite orb_true_r. rewrite flush_par_eq.
    rewrite print_fixed_line_plain by done. by rewrite state_puts_puts. }
  destruct (Z.eqb_spec 0 q) as [<- | Hne]; [by apply H0 |].
  unfold handler_line.
  replace (to_uint (get_quote_level (Some buf))) with 0
    by (by destruct Hbuf as [-> | ->]).
  rewrite (proj2 (Z.eqb_neq 0 q)) by done. cbn [negb].
  specialize (H0 (flush_par s fst).1 (flush_par s fst).2).
  unfold handler_line in H0.
  replace (to_uint (get_quote_level (Some buf))) with 0 in H0
    by (by destruct Hbuf as [-> | ->]).
  change (0 =? 0) with true in H0. cbn [negb] in H0.
  destruct (flush_par s fst) as [s1 fst1] eqn:Hf.
  cbn [Datatypes.fst Datatypes.snd] in H0.
  rewrite H0 by (rewrite flush_par_eq in Hf; by injection Hf as <- _).
  rewrite flush_par_eq in Hf. injection Hf as <- <-.
  rewrite state_puts_puts. cbn [width delsp].
  destruct (0 <? width fst) eqn:Hw.
  - change (0 <? 0) with false. cbv iota. reflexivity.
  - rewrite Hw. reflexivity.
Qed.

Lemma signature_separator_stands_alone_witness :
  handler_line (plain_env 80) false ["-"; "-"; " "]
    (state_puts ["a"] (display []), mkFlowed 1 0 false, 0)
  = Some (state_puts ["a"; LF; "-"; "-"; " "; LF] (display []),
          mkFlowed 0 0 false, 0).
Proof.
  apply (signature_separator_stands_alone (plain_env 80) false
           (state_puts ["a"] (display [])) (mkFlowed 1 0 false) 0
           ["-"; "-"; " "]).
  - reflexivity.
  - by left.
Defined.


(** *** Space-stuffing a file *)

Lemma fgets_bytes_line room l rest :
  LF ∉ l -> (length l < room)%nat ->
  fgets_bytes room (l ++ LF :: rest) = (l ++ [LF], rest).
Proof.
  revert room. induction l as [| c l IH]; intros room Hn Hlen.
  - destruct room; [cbn in Hlen; lia |]. reflexivity.
  - destruct room; [cbn in Hlen; lia |]. cbn [app fgets_bytes].
    destruct (Ascii.eqb_spec c LF) as [-> | _].
    + exfalso. apply Hn. by left.
    + rewrite IH; [done | | cbn in Hlen; lia].
      intros H. apply Hn. by right.
Qed.

Lemma fgets_bytes_tail room l :
  LF ∉ l -> (length l <= room)%nat -> fgets_bytes room l = (l, []).
Proof.
  revert room. induction l as [| c l IH]; intros room Hn Hlen.
  - by destruct room.
  - destruct room; [cbn in Hlen; lia |]. cbn [fgets_bytes].
    destruct (Ascii.eqb_spec c LF) as [-> | _].
    + exfalso. apply Hn. by left.
    + rewrite IH; [done | | cbn in Hlen; lia].
      intros H. apply Hn. by right.
Qed.

Lemma fgets_bytes_full room l rest :
  LF ∉ l -> length l = room -> fgets_bytes room (l ++ rest) = (l, rest).
Proof.
  revert room. induction l as [| c l IH]; intros room Hn Hlen.
  - cbn in Hlen. subst room. by destruct rest.
  - destruct room; [cbn in Hlen; lia |]. cbn [app fgets_bytes].
    destruct (Ascii.eqb_spec c LF) as [-> | _].
    + exfalso. apply Hn. by left.
    + rewrite IH; [done | | cbn in Hlen; lia].
      intros H. apply Hn. by right.
Qed.

Lemma c_string_app_LF l : NUL ∉ l -> c_string (l ++ [LF]) = l ++ [LF].
Proof.
  intros Hn. apply c_string_id. intros H. apply elem_of_app in H as [H | H].
  - by apply Hn.
  - apply list_elem_of_singleton in H. discriminate.
Qed.

Lemma stuff_line l : NUL ∉ l -> LF ∉ l -> stuff (l ++ [LF]) = stuff l ++ [LF].
Proof.
  intros Hn Hl. unfold stuff, starts_with_From.
  rewrite c_string_app_LF, (c_string_id l) by done.
  assert (Hh : bool_decide (head (l ++ [LF]) = Some " ")
               = bool_decide (head l = Some " ")).
  { destruct l as [| c l]; [| done]. cbn. by rewrite !bool_decide_false. }
  assert (Hf : bool_decide (take 5 (l ++ [LF]) = ["F"; "r"; "o"; "m"; " "])
               = bool_decide (take 5 l = ["F"; "r"; "o"; "m"; " "])).
  { destruct (decide (5 <= length l)%nat) as [Hlen | Hlen].
    - by rewrite take_app_le.
    - rewrite (take_ge l) by lia.
      rewrite (bool_decide_false (l = _))
        by (intros ->; cbn in Hlen; lia).
      apply bool_decide_false. intros H.
      assert (Hin : LF ∈ take 5 (l ++ [LF])).
      { rewrite take_app_ge by lia. apply elem_of_app. right.
        rewrite take_ge by (cbn; lia). by left. }
      rewrite H in Hin.
      repeat (apply elem_of_cons in Hin as [Hin | Hin]; [discriminate |]).
      by apply elem_of_nil in Hin. }
  rewrite Hh, Hf. by rewrite List.app_assoc.
Qed.

Lemma stuff_nil : stuff [] = [].
Proof. reflexivity. Qed.

(** The loop on a text of newline-terminated lines and a last line without
    a newline. *)
Lemma stuff_loop_lines text : forall fuel tail out,
  Forall (fun l => (NUL ∉ l) /\ (LF ∉ l) /\ (length l < 1023)%nat) text ->
  NUL ∉ tail -> LF ∉ tail -> (length tail <= 1023)%nat ->
  (length text + length tail <= fuel)%nat ->
  stuff_loop fuel (concat (map (fun l => l ++ [LF]) text) ++ tail) out
  = Some (out ++ concat (map (fun l => stuff l ++ [LF]) text) ++ stuff tail).
Proof.
  induction text as [| l text IH]; intros fuel tail out Ht Hn Hl Hlen Hf.
  - cbn [map concat app]. destruct tail as [| c tail].
    + destruct fuel; cbn; by rewrite app_nil_r.
    + destruct fuel; [cbn in Hf; lia |]. cbn [stuff_loop fgets].
      change (1024 - 1)%nat with 1023%nat.
      rewrite fgets_bytes_tail by done.
      destruct fuel; reflexivity.
  - apply Forall_cons in Ht as [(Hn1 & Hl1 & Hlen1) Ht].
    cbn [map concat]. rewrite <- !List.app_assoc.
    destruct fuel; [cbn in Hf; lia |].
    assert (Hne : exists c r, l ++ [LF] ++ concat (map (fun l => l ++ [LF]) text)
                                ++ tail = c :: r)
      by (destruct l; cbn; eauto).
    destruct Hne as (c & r & Hne). cbn [stuff_loop]. unfold fgets.
    rewrite Hne, <- Hne. change (1024 - 1)%nat with 1023%nat.
    change ([LF] ++ concat (map (fun l => l ++ [LF]) text) ++ tail)
      with (LF :: (concat (map (fun l => l ++ [LF]) text) ++ tail)).
    rewrite fgets_bytes_line by done.
    rewrite IH by (try done; cbn in Hf; lia).
    rewrite stuff_line by done. by rewrite <- !List.app_assoc.
Qed.

(** X10.  [rfc3676_space_stuff] changes nothing when the email, its content
    or the file name is null, when the file cannot be read, or when the new
    file cannot be written.  Otherwise, on a text without NUL whose lines
    are shorter than 1023 bytes, the last of them with or without its
    newline, it writes each line to the new file, with one space before
    those that start with a space or with [From ], removes the old file and
    names the new one in the email. *)
Theorem space_stuff_lines (tmpfile : string) (fs : gmap string (list ascii))
  (par : option (list ascii)) (name : string) (text : list (list ascii))
  (tail : list ascii) :
  (forall w, rfc3676_space_stuff tmpfile w None fs = Some (None, fs)) /\
  (forall w, rfc3676_space_stuff tmpfile w (Some (mkEmail None)) fs
             = Some (Some (mkEmail None), fs)) /\
  (forall w, rfc3676_space_stuff tmpfile w
               (Some (mkEmail (Some (mkBody par None)))) fs
             = Some (Some (mkEmail (Some (mkBody par None))), fs)) /\
  (forall w, fs !! name = None ->
     rfc3676_space_stuff tmpfile w
       (Some (mkEmail (Some (mkBody par (Some name))))) fs
     = Some (Some (mkEmail (Some (mkBody par (Some name)))), fs)) /\
  (rfc3676_space_stuff tmpfile false
     (Some (mkEmail (Some (mkBody par (Some name))))) fs
   = Some (Some (mkEmail (Some (mkBody par (Some name)))), fs)) /\
  (fs !! name = Some (concat (map (fun l => l ++ [LF]) text) ++ tail) ->
   Forall (fun l => (NUL ∉ l) /\ (LF ∉ l) /\ (length l < 1023)%nat) text ->
   NUL ∉ tail -> LF ∉ tail -> (length tail <= 1023)%nat ->
   rfc3676_space_stuff tmpfile true
     (Some (mkEmail (Some (mkBody par (Some name))))) fs
   = Some (Some (mkEmail (Some (mkBody par (Some tmpfile)))),
           delete name
             (<[tmpfile := concat (map (fun l => stuff l ++ [LF]) text)
                           ++ stuff tail]> fs))).
Proof.
  repeat split; try reflexivity.
  - intros w Hf. unfold rfc3676_space_stuff. by rewrite Hf.
  - unfold rfc3676_space_stuff. by destruct (fs !! name).
  - intros Hf Ht Hn Hl Hlen. unfold rfc3676_space_stuff. rewrite Hf.
    cbn [negb]. rewrite stuff_loop_lines; [done | done | done | done | done |].
    rewrite length_app. clear Hf.
    induction Ht as [| l text _ _ IH]; cbn [map concat length]; [lia |].
    rewrite !length_app. cbn [length]. lia.
Qed.

Lemma space_stuff_lines_witness :
  rfc3676_space_stuff "t" true
    (Some (mkEmail (Some (mkBody None (Some "m"%string)))))
    {[ "m"%string := ["F"; "r"; "o"; "m"; " "; "a"; LF; " "; "b"; LF; "c"] ]}
  = Some (Some (mkEmail (Some (mkBody None (Some "t"%string)))),
          delete "m"%string
            (<[ "t"%string :=
                  [" "; "F"; "r"; "o"; "m"; " "; "a"; LF; " "; " "; "b"; LF;
                   "c"] ]>
               {[ "m"%string :=
                    ["F"; "r"; "o"; "m"; " "; "a"; LF; " "; "b"; LF; "c"] ]})).
Proof.
  apply (proj2 (proj2 (proj2 (proj2 (proj2
           (space_stuff_lines "t"
              {[ "m"%string :=
                   ["F"; "r"; "o"; "m"; " "; "a"; LF; " "; "b"; LF; "c"] ]}
              None "m" [["F"; "r"; "o"; "m"; " "; "a"]; [" "; "b"]]
              ["c"])))))).
  - apply lookup_singleton_eq.
  - repeat apply List.Forall_cons; try apply List.Forall_nil;
      (split; [| split; [| cbn; lia]]);
      intros H; repeat (apply elem_of_cons in H as [H | H]; [discriminate |]);
      by apply elem_of_nil in H.
  - intros H; repeat (apply elem_of_cons in H as [H | H]; [discriminate |]);
      by apply elem_of_nil in H.
  - intros H; repeat (apply elem_of_cons in H as [H | H]; [discriminate |]);
      by apply elem_of_nil in H.
  - cbn. lia.
Defined.

Lemma stuff_loop_step fuel data out buf rest :
  fgets 1024 data = Some (buf, rest) ->
  stuff_loop (S fuel) data out = stuff_loop fuel rest (out ++ stuff buf).
Proof. intros H. cbn [stuff_loop]. by rewrite H. Qed.

(** X11.  A line of 1023 bytes or more is stuffed piece by piece.  When the
    file is one line made of [a], 1023 bytes long, and of [b], shorter than
    that, [rfc3676_space_stuff] writes what it writes for [a] and then
    what it writes for [b] as if [b] began a line: when [b] starts with a
    space, a space is added in the middle of the line. *)
Theorem space_stuff_long_line (tmpfile : string)
  (fs : gmap string (list ascii)) (par : option (list ascii)) (name : string)
  (a b : list ascii) :
  fs !! name = Some (a ++ b ++ [LF]) ->
  length a = 1023%nat -> NUL ∉ a -> LF ∉ a ->
  NUL ∉ b -> LF ∉ b -> (length b < 1023)%nat ->
  rfc3676_space_stuff tmpfile true
    (Some (mkEmail (Some (mkBody par (Some name))))) fs
  = Some (Some (mkEmail (Some (mkBody par (Some tmpfile)))),
          delete name (<[tmpfile := stuff a ++ stuff b ++ [LF]]> fs))
  /\ (head b = Some " " -> stuff b = " " :: b).
Proof.
  intros Hf Hla Hna Hnl Hnb Hlb Hlen. split.
  - unfold rfc3676_space_stuff. rewrite Hf. cbn [negb].
    assert (Hfuel : exists n, length (a ++ b ++ [LF]) = S (S n)).
    { rewrite !length_app, Hla. cbn. eauto. }
    destruct Hfuel as (n & ->).
    assert (Hg : fgets 1024 (a ++ b ++ [LF]) = Some (a, b ++ [LF])).
    { unfold fgets. change (1024 - 1)%nat with 1023%nat.
      rewrite fgets_bytes_full by done.
      destruct a; [discriminate Hla | done]. }
    rewrite (stuff_loop_step _ _ _ _ _ Hg). cbn [app].
    pose proof (stuff_loop_lines [b] (S n) [] (stuff a)) as Hl.
    cbn [map concat] in Hl. rewrite !app_nil_r in Hl.
    rewrite Hl; [done | | | | cbn; lia | cbn; lia].
    + apply List.Forall_cons; [done | apply List.Forall_nil].
    + apply not_elem_of_nil.
    + apply not_elem_of_nil.
  - intros Hh. unfold stuff. rewrite Hh, bool_decide_true by done.
    cbn [orb]. by rewrite c_string_id.
Qed.

Lemma space_stuff_long_line_witness :
  rfc3676_space_stuff "t" true
    (Some (mkEmail (Some (mkBody None (Some "m"%string)))))
    {[ "m"%string := replicate 1023 "x" ++ [" "; "y"] ++ [LF] ]}
  = Some (Some (mkEmail (Some (mkBody None (Some "t"%string)))),
          delete "m"%string
            (<[ "t"%string :=
                  stuff (replicate 1023 "x") ++ stuff [" "; "y"] ++ [LF] ]>
               {[ "m"%string := replicate 1023 "x" ++ [" "; "y"] ++ [LF] ]}))
  /\ (head [" "; "y"] = Some " " -> stuff [" "; "y"] = " " :: [" "; "y"]).
Proof.
  apply (space_stuff_long_line "t"
           {[ "m"%string := replicate 1023 "x" ++ [" "; "y"] ++ [LF] ]}
           None "m" (replicate 1023 "x") [" "; "y"]).
  - apply lookup_singleton_eq.
  - apply length_replicate.
  - intros H. apply elem_of_replicate in H as [H _]. discriminate.
  - intros H. apply elem_of_replicate in H as [H _]. discriminate.
  - intros H; repeat (apply elem_of_cons in H as [H | H]; [discriminate |]);
      by apply elem_of_nil in H.
  - intros H; repeat (apply elem_of_cons in H as [H | H]; [discriminate |]);
      by apply elem_of_nil in H.
  - cbn. lia.
Defined.

(** *** The round trip: a file, stuffed and then displayed *)

Lemma file_lines_from_line l : forall cur rest,
  LF ∉ l ->
  file_lines_from cur (l ++ LF :: rest)
  = (cur ++ l) :: file_lines_from [] rest.
Proof.
  induction l as [| c l IH]; intros cur rest Hl.
  - cbn [app file_lines_from]. rewrite Ascii.eqb_refl. by rewrite app_nil_r.
  - cbn [app file_lines_from].
    destruct (Ascii.eqb_spec c LF) as [-> | _].
    + exfalso. apply Hl. by left.
    + rewrite IH by (intros H; apply Hl; by right).
      by rewrite <- List.app_assoc.
Qed.

(** Lines without a newline inside, each followed by one, are read back as
    they are. *)
Lemma file_lines_lines ls :
  Forall (fun l => LF ∉ l) ls ->
  file_lines (concat (map (fun l => l ++ [LF]) ls)) = ls.
Proof.
  unfold file_lines. induction 1 as [| l ls Hl _ IH]; [reflexivity |].
  cbn [map concat]. rewrite <- List.app_assoc. cbn [app].
  rewrite file_lines_from_line by done. cbn [app]. by rewrite IH.
Qed.

Lemma stuff_no_LF l : NUL ∉ l -> LF ∉ l -> LF ∉ stuff l.
Proof.
  intros Hn Hl. unfold stuff. rewrite c_string_id by done.
  intros H. apply elem_of_app in H as [H | H]; [| by apply Hl].
  destruct (_ || _); [| by apply elem_of_nil in H].
  apply list_elem_of_singleton in H. discriminate.
Qed.

(** X7.  Space-stuffing and the handler are inverse on fixed text.  Take a
    file of lines, each ended by a newline, without NUL or carriage return,
    shorter than 1023 bytes, that do not start with [>] and do not end in a
    space (the signature separator apart).  [rfc3676_space_stuff] writes
    the temporary file and names it in the email; when the handler reads
    that file, with no prefix, it returns 0 and has written the text of the
    file as it was before the stuffing. *)
Theorem space_stuffing_round_trip (e : Env) (a : Body) (tmpfile name : string)
  (fs : gmap string (list ascii)) (par : option (list ascii))
  (text : list (list ascii)) :
  tmpfile <> name ->
  fs !! name = Some (concat (map (fun l => l ++ [LF]) text)) ->
  Forall (fun l => (NUL ∉ l) /\ (LF ∉ l) /\ (CR ∉ l)
                   /\ (length l < 1023)%nat /\ head l <> Some ">"
                   /\ (List.last l NUL <> " " \/ l = ["-"; "-"; " "])) text ->
  exists fs' out,
    rfc3676_space_stuff tmpfile true
      (Some (mkEmail (Some (mkBody par (Some name))))) fs
    = Some (Some (mkEmail (Some (mkBody par (Some tmpfile)))), fs')
    /\ fs' !! name = None /\ fs' !! tmpfile = Some out
    /\ forall s,
         prefix s = None -> fp_in s = file_lines out ->
         exists s',
           rfc3676_handler e a s = Some (0, s')
           /\ fp_out s' = fp_out s ++ concat (map (fun l => l ++ [LF]) text).
Proof.
  intros Hne Hf Ht.
  assert (Ht1 : Forall (fun l => (NUL ∉ l) /\ (LF ∉ l)
                                 /\ (length l < 1023)%nat) text).
  { eapply Forall_impl; [exact Ht |]. by intros l (? & ? & _ & ? & _). }
  assert (Hrun : stuff_loop
                   (length (concat (map (fun l => l ++ [LF]) text)))
                   (concat (map (fun l => l ++ [LF]) text)) []
                 = Some (concat (map (fun l => stuff l ++ [LF]) text))).
  { pose proof (stuff_loop_lines text
                  (length (concat (map (fun l => l ++ [LF]) text))) [] []
                  Ht1 (not_elem_of_nil _) (not_elem_of_nil _)) as H.
    rewrite !app_nil_r in H. cbn [app] in H. apply H; [cbn; lia |].
    clear. induction text as [| l text IH]; cbn [map concat length]; [lia |].
    rewrite !length_app. cbn [length]. lia. }
  exists (delete name
            (<[tmpfile := concat (map (fun l => stuff l ++ [LF]) text)]> fs)),
    (concat (map (fun l => stuff l ++ [LF]) text)).
  split; [| split; [| split]].
  - unfold rfc3676_space_stuff. rewrite Hf. cbn [negb]. by rewrite Hrun.
  - apply lookup_delete_eq.
  - rewrite lookup_delete_ne by congruence. apply lookup_insert_eq.
  - intros s Hp Hin.
    assert (Hlines : file_lines
                       (concat (map (fun l => stuff l ++ [LF]) text))
                     = map stuff text).
    { rewrite <- (file_lines_lines (map stuff text)).
      - f_equal. f_equal. clear. induction text; cbn [map]; congruence.
      - apply Forall_map. eapply Forall_impl; [exact Ht |].
        intros l (? & ? & _). by apply stuff_no_LF. }
    rewrite Hlines in Hin. eexists. split.
    + apply handler_fixed; [done |]. rewrite Hin. apply Forall_map.
      eapply Forall_impl; [exact Ht |].
      intros l (Hn & _ & _ & _ & Hq & Hl). by apply plain_fixed_stuff.
    + cbn [fp_out]. f_equal. rewrite Hin. f_equal. clear Hin Hf Ht1 Hrun Hlines.
      induction Ht as [| l text (Hn & _) _ IH]; cbn [map]; [done |].
      by rewrite unstuffed_stuff, IH.
Qed.

Lemma space_stuffing_round_trip_witness :
  exists fs' out s',
    rfc3676_space_stuff "t" true
      (Some (mkEmail (Some (mkBody None (Some "m"%string)))))
      {[ "m"%string :=
           ["F"; "r"; "o"; "m"; " "; "x"; LF; " "; "y"; LF; "z"; LF] ]}
    = Some (Some (mkEmail (Some (mkBody None (Some "t"%string)))), fs')
    /\ fs' !! "t"%string = Some out
    /\ rfc3676_handler (plain_env 80) (mkBody None None)
         (display (file_lines out)) = Some (0, s')
    /\ fp_out s' = ["F"; "r"; "o"; "m"; " "; "x"; LF; " "; "y"; LF; "z"; LF].
Proof.
  destruct (space_stuffing_round_trip (plain_env 80) (mkBody None None)
              "t" "m"
              {[ "m"%string :=
                   ["F"; "r"; "o"; "m"; " "; "x"; LF; " "; "y"; LF; "z"; LF] ]}
              None [["F"; "r"; "o"; "m"; " "; "x"]; [" "; "y"]; ["z"]])
    as (fs' & out & Hr & _ & Ho & Hh).
  - discriminate.
  - apply lookup_singleton_eq.
  - repeat apply List.Forall_cons; try apply List.Forall_nil;
      (split; [| split; [| split; [| split; [cbn; lia |]]]]);
      try (split; [cbn; congruence | left; cbn; congruence]);
      intros H; repeat (apply elem_of_cons in H as [H | H]; [discriminate |]);
      by apply elem_of_nil in H.
  - destruct (Hh (display (file_lines out)) eq_refl eq_refl) as (s' & H1 & H2).
    exists fs', out, s'. by repeat split.
Defined.

End Rfc3676Facts.
